(** * website-backend: the submission-protection pipeline

    A shallow embedding of the Go sources [main.go], [config/config.go],
    [mail] and [turnstile], and the properties of the rate limiter, the
    sanitizer, the verifier, the submission handler, the loading of the
    configuration and the SMTP session.

    Go strings are byte sequences: they are [string]s here, one [ascii] per
    byte.  Maps are [gmap]s.  Library calls that perform I/O (the HTTP client,
    the SMTP transport, the request body decoder, the clock) are read from an
    explicit environment, and every effect of a handler is recorded in an
    explicit state. *)

From Stdlib Require Import ZArith String Ascii List Lia Sorted DecimalString.
From stdpp Require Import base option list sorting gmap strings.

Set Warnings "-register-all".

Local Open Scope string_scope.
Local Open Scope list_scope.
Local Open Scope Z_scope.

(** ** config/config.go *)

Module config.

Record CFTurnConfig := {
  Endpoint : string;
  Secret : string
}.

Record SMTPConfig := {
  Server : string;
  Port : Z;
  Encryption : string;
  Username : string;
  Password : string;
  VerifyTLS : bool;
  From : string;
  To : string
}.

Record OptionsConfig := {
  EnableRateLimiting : bool;
  MaxBodySize : Z;
  BlockBotUserAgents : bool;
  CTAEndpoint : string
}.

Record Config := {
  CFTurn : CFTurnConfig;
  SMTP : SMTPConfig;
  Options : OptionsConfig
}.

End config.

(** ** package time: monotonic clock readings and durations

    [time.Now] attaches a monotonic clock reading to the value it returns, and
    [Time.Sub] uses the two monotonic readings when both operands have one.
    Every timestamp of the rate limiter comes from [time.Now], so a [Time] is
    its monotonic reading in nanoseconds.  [Sub] saturates at the bounds of
    [Duration] (an int64). *)

Module time.

Abbreviation Time := Z.
Abbreviation Duration := Z.

Definition minDuration : Duration := - 2 ^ 63.
Definition maxDuration : Duration := 2 ^ 63 - 1.

Definition Nanosecond : Duration := 1.
Definition Second : Duration := 1000000000 * Nanosecond.
Definition Minute : Duration := 60 * Second.

Definition Sub (t u : Time) : Duration :=
  let d := t - u in
  if d <? minDuration then minDuration
  else if maxDuration <? d then maxDuration
  else d.

End time.

(** ** main.go: the rate limiter *)

Record rateInfo := { timestamps : list time.Time }.

Definition limit : nat := 5.
Definition window : time.Duration := time.Minute.

(** The prune loop of [allowRate]: keeps, in order, the timestamps [ts] with
    [now.Sub(ts) <= window]. *)
Definition prune (now : time.Time) (t : list time.Time) : list time.Time :=
  filter (fun ts => time.Sub now ts <= window) t.

(** [allowRate ip], with the clock reading [now] that [time.Now()] returns
    inside the critical section and the table [rlimap] passed explicitly.
    The mutex makes the body atomic, so it is a function on the table. *)
Definition allowRate (opts : config.OptionsConfig) (now : time.Time) (ip : string)
    (rlimap : gmap string rateInfo) : bool * gmap string rateInfo :=
  if negb (config.EnableRateLimiting opts) then (true, rlimap)
  else
    match rlimap !! ip with
    | None => (true, <[ip := {| timestamps := [now] |}]> rlimap)
    | Some ri =>
        let nt := prune now (timestamps ri) ++ [now] in
        let rlimap' := <[ip := {| timestamps := nt |}]> rlimap in
        if (limit <? length nt)%nat then (false, rlimap') else (true, rlimap')
    end.

(** Successive admission checks of one identity at the given clock readings:
    the answers, in order, and the final table. *)
Fixpoint allowRate_seq (opts : config.OptionsConfig) (ip : string)
    (nows : list time.Time) (rlimap : gmap string rateInfo)
    : list bool * gmap string rateInfo :=
  match nows with
  | [] => ([], rlimap)
  | now :: rest =>
      let '(ok, rlimap') := allowRate opts now ip rlimap in
      let '(oks, rlimap'') := allowRate_seq opts ip rest rlimap' in
      (ok :: oks, rlimap'')
  end.

(** Admission checks of arbitrary identities, one after the other. *)
Definition allowRate_all (opts : config.OptionsConfig)
    (calls : list (string * time.Time)) (rlimap : gmap string rateInfo)
    : gmap string rateInfo :=
  fold_left (fun m c => (allowRate opts c.2 c.1 m).2) calls rlimap.

(** The stored timestamps of an identity ([[]] when it has no entry). *)
Definition stamps (rlimap : gmap string rateInfo) (ip : string) : list time.Time :=
  match rlimap !! ip with
  | Some ri => timestamps ri
  | None => []
  end.

(** The invariant of the table: every list is in nondecreasing order and holds
    no timestamp later than the clock reading [T]. *)
Definition table_ok (T : time.Time) (m : gmap string rateInfo) : Prop :=
  forall ip, StronglySorted Z.le (stamps m ip) /\ Forall (fun ts => ts <= T) (stamps m ip).

(** ** Bytes and the functions of package strings that the sources call *)

Definition byte_val (c : ascii) : N := N_of_ascii c.

Definition between (lo hi : N) (c : ascii) : bool :=
  ((lo <=? byte_val c) && (byte_val c <=? hi))%N.

Definition dquote : ascii := "034"%char.
Definition backslash : ascii := "\"%char.
Definition TAB : ascii := "009"%char.
Definition LF : ascii := "010"%char.
Definition VT : ascii := "011"%char.
Definition FF : ascii := "012"%char.
Definition CR : ascii := "013"%char.
Definition BS : ascii := "008"%char.
Definition SP : ascii := " "%char.

Definition str1 (c : ascii) : string := String c EmptyString.

Module strings.

(** [strings.HasPrefix]. *)
Definition HasPrefix (s prefix : string) : bool := String.prefix prefix s.

(** [strings.Contains]. *)
Fixpoint Contains (s substr : string) : bool :=
  HasPrefix s substr ||
  match s with
  | EmptyString => false
  | String _ r => Contains r substr
  end.

(** [strings.ToLower] on the ASCII letters.  Go also maps upper-case letters
    outside ASCII; the only ones whose lower case is an ASCII letter are
    U+0130 (to [i]) and U+212A (to [k]), and the callers below only search
    the result for [curl/], [python-requests] and [bot], none of which
    holds an [i] or a [k]. *)
Definition lower_byte (c : ascii) : ascii :=
  if between 65 90 c then ascii_of_N (byte_val c + 32) else c.

Fixpoint ToLower (s : string) : string :=
  match s with
  | EmptyString => EmptyString
  | String c r => String (lower_byte c) (ToLower r)
  end.

(** [strings.Split(s, sep)] for a one-byte separator. *)
Fixpoint Split (s : string) (sep : ascii) : list string :=
  match s with
  | EmptyString => [EmptyString]
  | String c r =>
      if Ascii.eqb c sep then EmptyString :: Split r sep
      else match Split r sep with
           | [] => [str1 c]
           | p :: ps => String c p :: ps
           end
  end.

(** [strings.ReplaceAll(s, old, new)] for a one-byte [old]. *)
Fixpoint ReplaceAll (s : string) (old : ascii) (new : string) : string :=
  match s with
  | EmptyString => EmptyString
  | String c r =>
      if Ascii.eqb c old then String.append new (ReplaceAll r old new)
      else String c (ReplaceAll r old new)
  end.

(** The UTF-8 encodings of the runes for which [unicode.IsSpace] holds:
    the ASCII ones, U+0085, U+00A0, U+1680, U+2000 to U+200A, U+2028,
    U+2029, U+202F, U+205F and U+3000.  [space_len l] is the length of the
    space rune that [l] starts with, and [0] when it starts with none. *)
Definition space_len (l : list ascii) : nat :=
  match l with
  | c :: r =>
      if between 9 13 c || Ascii.eqb c SP then 1%nat
      else match byte_val c, r with
           | 194%N, c1 :: _ =>
               if (byte_val c1 =? 133)%N || (byte_val c1 =? 160)%N then 2%nat else 0%nat
           | 225%N, c1 :: c2 :: _ =>
               if (byte_val c1 =? 154)%N && (byte_val c2 =? 128)%N then 3%nat else 0%nat
           | 226%N, c1 :: c2 :: _ =>
               if (byte_val c1 =? 128)%N
                  && (between 128 138 c2 || between 168 169 c2 || (byte_val c2 =? 175)%N)
               then 3%nat
               else if (byte_val c1 =? 129)%N && (byte_val c2 =? 159)%N then 3%nat
               else 0%nat
           | 227%N, c1 :: c2 :: _ =>
               if (byte_val c1 =? 128)%N && (byte_val c2 =? 128)%N then 3%nat else 0%nat
           | _, _ => 0%nat
           end
  | [] => 0%nat
  end.

(** The same from the end of the string: [l] is the reversed string, so its
    first bytes are the last bytes of a rune, as [DecodeLastRuneInString]
    reads them. *)
Definition space_len_rev (l : list ascii) : nat :=
  match l with
  | c :: r =>
      if between 9 13 c || Ascii.eqb c SP then 1%nat
      else match r with
           | c1 :: r1 =>
               if (space_len [c1; c] =? 2)%nat then 2%nat
               else match r1 with
                    | c2 :: _ => if (space_len [c2; c1; c] =? 3)%nat then 3%nat else 0%nat
                    | [] => 0%nat
                    end
           | [] => 0%nat
           end
  | [] => 0%nat
  end.

(** Drops space runes from the front; [fuel] bounds the number of runes. *)
Fixpoint trim_front (space : list ascii -> nat) (fuel : nat) (l : list ascii) : list ascii :=
  match fuel with
  | O => l
  | S fuel' =>
      match space l with
      | O => l
      | n => trim_front space fuel' (drop n l)
      end
  end.

(** [strings.TrimSpace]: [TrimLeftFunc] then [TrimRightFunc] with
    [unicode.IsSpace]. *)
Definition TrimSpace (s : string) : string :=
  let l := list_ascii_of_string s in
  let l1 := trim_front space_len (length l) l in
  let l2 := rev (trim_front space_len_rev (length l1) (rev l1)) in
  string_of_list_ascii l2.

End strings.

(** ** package regexp: the three patterns of package mail

    Each pattern is a fixed regular expression whose leftmost-first matches
    are found by one left-to-right scan.  The patterns only name ASCII bytes,
    and a byte of a multi-byte or malformed UTF-8 sequence is never an ASCII
    byte, so scanning bytes finds the same matches as scanning runes. *)

Module regexp.

Definition is_gt (c : ascii) : bool := Ascii.eqb c ">"%char.
Definition is_lt (c : ascii) : bool := Ascii.eqb c "<"%char.

Fixpoint has_gt (s : string) : bool :=
  match s with
  | EmptyString => false
  | String c r => is_gt c || has_gt r
  end.

(** [reHTML.ReplaceAllString(s, "")] for [reHTML = <[^>]*>]: a match starts
    at a [<] that has a [>] somewhere after it and ends at the first such
    [>].  [inside] says that the scan is within a match. *)
Fixpoint reHTML_scan (inside : bool) (s : string) : string :=
  match s with
  | EmptyString => EmptyString
  | String c r =>
      if inside then
        if is_gt c then reHTML_scan false r else reHTML_scan true r
      else if is_lt c && has_gt r then reHTML_scan true r
      else String c (reHTML_scan false r)
  end.

Definition reHTML_ReplaceAllString (s : string) : string := reHTML_scan false s.

(** [reHTML] matches somewhere in [s]: some [<] has a [>] after it. *)
Fixpoint reHTML_MatchString (s : string) : bool :=
  match s with
  | EmptyString => false
  | String c r => (is_lt c && has_gt r) || reHTML_MatchString r
  end.

(** The class [\S]: everything but tab, line feed, form feed, carriage
    return and space. *)
Definition nonspace (c : ascii) : bool :=
  negb (Ascii.eqb c TAB || Ascii.eqb c LF || Ascii.eqb c FF
        || Ascii.eqb c CR || Ascii.eqb c SP).

(** What follows [http://] or [https://] at the start of [s]. *)
Definition after_scheme (s : string) : option string :=
  if strings.HasPrefix s "http://" then Some (String.substring 7 (String.length s - 7) s)
  else if strings.HasPrefix s "https://" then Some (String.substring 8 (String.length s - 8) s)
  else None.

(** [https?://\S+] matches at the start of [s]. *)
Definition url_here (s : string) : bool :=
  match after_scheme s with
  | Some (String c _) => nonspace c
  | _ => false
  end.

(** [reURL.ReplaceAllString(s, "")] for [reURL = https?://\S+]: the bytes of
    the scheme are themselves in [\S], so a match that starts at a scheme
    runs to the end of the run of [\S] bytes it starts. *)
Fixpoint reURL_scan (inside : bool) (s : string) : string :=
  match s with
  | EmptyString => EmptyString
  | String c r =>
      if inside then
        if nonspace c then reURL_scan true r else String c (reURL_scan false r)
      else if url_here s then reURL_scan true r
      else String c (reURL_scan false r)
  end.

Definition reURL_ReplaceAllString (s : string) : string := reURL_scan false s.

(** The class [[\x00-\x09\x0B\x0C\x0E-\x1F]]. *)
Definition is_ctrl (c : ascii) : bool :=
  between 0 9 c || between 11 12 c || between 14 31 c.

(** [reCtrl] matches somewhere in [s]. *)
Fixpoint reCtrl_MatchString (s : string) : bool :=
  match s with
  | EmptyString => false
  | String c r => is_ctrl c || reCtrl_MatchString r
  end.

(** [reCtrl.ReplaceAllString(s, " ")]. *)
Fixpoint reCtrl_ReplaceAllString (s : string) : string :=
  match s with
  | EmptyString => EmptyString
  | String c r =>
      String (if is_ctrl c then SP else c) (reCtrl_ReplaceAllString r)
  end.

End regexp.

(** ** package unicode/utf8 *)

Module utf8.

Definition cont (c : ascii) : bool := between 128 191 c.

(** The width of the rune that [utf8.DecodeRuneInString] reads at the start
    of [l]; [None] when it returns [(RuneError, 1)] for a malformed or
    truncated sequence.  The ranges of the second byte are the accept
    ranges of the Go table. *)
Definition DecodeRune_size (l : list ascii) : option nat :=
  match l with
  | [] => None
  | c :: r =>
      if between 0 127 c then Some 1%nat
      else if between 194 223 c then
        match r with
        | c1 :: _ => if cont c1 then Some 2%nat else None
        | _ => None
        end
      else if between 224 239 c then
        match r with
        | c1 :: c2 :: _ =>
            let lo := if (byte_val c =? 224)%N then 160%N else 128%N in
            let hi := if (byte_val c =? 237)%N then 159%N else 191%N in
            if between lo hi c1 && cont c2 then Some 3%nat else None
        | _ => None
        end
      else if between 240 244 c then
        match r with
        | c1 :: c2 :: c3 :: _ =>
            let lo := if (byte_val c =? 240)%N then 144%N else 128%N in
            let hi := if (byte_val c =? 244)%N then 143%N else 191%N in
            if between lo hi c1 && cont c2 && cont c3 then Some 4%nat else None
        | _ => None
        end
      else None
  end.

End utf8.

(** ** Values of type interface{} as encoding/json decodes them

    A float64 is kept as the two texts the Go library prints for it: the one
    of encoding/json and the one of the verb [%v].  The values that
    encoding/json refuses to encode are the three that are not finite. *)

Inductive float64 :=
| Finite (json_text v_text : string)
| NaN
| PosInf
| NegInf.

Inductive value :=
| VNil
| VBool (b : bool)
| VFloat (f : float64)
| VString (s : string)
| VSlice (l : list value)
| VMap (m : list (string * value)).

(** ** package sort *)

Module sort.

Fixpoint insert_key {A} (k : string) (a : A) (l : list (string * A)) : list (string * A) :=
  match l with
  | [] => [(k, a)]
  | (k', a') :: r =>
      if String.ltb k k' then (k, a) :: l else (k', a') :: insert_key k a r
  end.

(** Entries in increasing byte order of their keys, which is the order of
    [sort.Strings] on the keys of a map. *)
Definition by_key {A} (l : list (string * A)) : list (string * A) :=
  fold_right (fun e acc => insert_key e.1 e.2 acc) [] l.

Definition Strings (l : list string) : list string :=
  (by_key (map (fun k => (k, tt)) l)).*1.

End sort.

(** ** package encoding/json *)

Module json.

Definition hex_digit (n : N) : ascii :=
  if (n <? 10)%N then ascii_of_N (48 + n) else ascii_of_N (87 + n).

(** The escape [\u00XX] of a byte. *)
Definition u00 (c : ascii) : string :=
  String backslash
    (String "u" (String "0" (String "0"
       (String (hex_digit (byte_val c / 16)) (str1 (hex_digit (byte_val c mod 16))))))).

(** One ASCII byte inside a string literal, with HTML escaping on, as
    [Marshal] has it. *)
Definition escape_ascii (c : ascii) : string :=
  if Ascii.eqb c backslash || Ascii.eqb c dquote then String backslash (str1 c)
  else if Ascii.eqb c BS then String backslash "b"
  else if Ascii.eqb c FF then String backslash "f"
  else if Ascii.eqb c LF then String backslash "n"
  else if Ascii.eqb c CR then String backslash "r"
  else if Ascii.eqb c TAB then String backslash "t"
  else if between 0 31 c || Ascii.eqb c "<" || Ascii.eqb c ">" || Ascii.eqb c "&"
  then u00 c
  else str1 c.

(** The body of a string literal.  [copy] counts the bytes of the current
    rune still to be written as they are, [skip] those to be left out. *)
Fixpoint escape_bytes (copy skip : nat) (l : list ascii) : string :=
  match l with
  | [] => EmptyString
  | c :: r =>
      match copy, skip with
      | S n, _ => String c (escape_bytes n skip r)
      | O, S n => escape_bytes O n r
      | O, O =>
          match utf8.DecodeRune_size l with
          | None => String.append (String backslash "ufffd") (escape_bytes O O r)
          | Some 1%nat => String.append (escape_ascii c) (escape_bytes O O r)
          | Some n =>
              match l with
              | c0 :: c1 :: c2 :: _ =>
                  if (byte_val c0 =? 226)%N && (byte_val c1 =? 128)%N && between 168 169 c2
                  then String.append
                         (String backslash (String "u" (String "2" (String "0" (String "2"
                            (str1 (hex_digit (byte_val c2 mod 16))))))))
                         (escape_bytes O 2 r)
                  else String c (escape_bytes (n - 1) O r)
              | _ => String c (escape_bytes (n - 1) O r)
              end
          end
      end
  end.

(** A Go string as a JSON string literal. *)
Definition quote (s : string) : string :=
  String dquote (String.append (escape_bytes O O (list_ascii_of_string s)) (str1 dquote)).

Fixpoint spaces (depth : nat) : string :=
  match depth with
  | O => EmptyString
  | S d => String.append "  " (spaces d)
  end.

(** A line break followed by the indentation of [depth] levels. *)
Definition newline (depth : nat) : string := String LF (spaces depth).

(** The elements of an array or object, one per line. *)
Fixpoint lines (depth : nat) (items : list string) : string :=
  match items with
  | [] => EmptyString
  | [x] => x
  | x :: r => String.append x (String.append (String "," (newline depth)) (lines depth r))
  end.

Definition block (open close : ascii) (depth : nat) (items : list string) : string :=
  match items with
  | [] => String open (str1 close)
  | _ => String open (String.append (newline (S depth))
           (String.append (lines (S depth) items)
              (String.append (newline depth) (str1 close))))
  end.

(** [json.MarshalIndent(v, "", "  ")] of a value nested [depth] levels deep;
    [None] is the error for a value that JSON does not have. *)
Fixpoint marshal (depth : nat) (v : value) : option string :=
  match v with
  | VNil => Some "null"
  | VBool true => Some "true"
  | VBool false => Some "false"
  | VFloat (Finite j _) => Some j
  | VFloat _ => None
  | VString s => Some (quote s)
  | VSlice l =>
      items ← (fix each (l : list value) : option (list string) :=
                 match l with
                 | [] => Some []
                 | x :: r => j ← marshal (S depth) x; js ← each r; Some (j :: js)
                 end) l;
      Some (block "[" "]" depth items)
  | VMap m =>
      items ← (fix each (m : list (string * value)) : option (list (string * string)) :=
                 match m with
                 | [] => Some []
                 | (k, x) :: r =>
                     j ← marshal (S depth) x; js ← each r;
                     Some ((k, String.append (quote k) (String.append ": " j)) :: js)
                 end) m;
      Some (block "{" "}" depth (sort.by_key items).*2)
  end.

Definition MarshalIndent (v : value) : option string := marshal O v.

End json.

(** ** package fmt: the verb [%v] on the values above *)

Module fmt.

Fixpoint join (sep : string) (items : list string) : string :=
  match items with
  | [] => EmptyString
  | [x] => x
  | x :: r => String.append x (String.append sep (join sep r))
  end.

Fixpoint Sprintf_v (v : value) : string :=
  match v with
  | VNil => "<nil>"
  | VBool true => "true"
  | VBool false => "false"
  | VFloat (Finite _ g) => g
  | VFloat NaN => "NaN"
  | VFloat PosInf => "+Inf"
  | VFloat NegInf => "-Inf"
  | VString s => s
  | VSlice l => String.append "[" (String.append (join " " (map Sprintf_v l)) "]")
  | VMap m =>
      let items :=
        (fix each (m : list (string * value)) : list (string * string) :=
           match m with
           | [] => []
           | (k, x) :: r => (k, String.append k (String.append ":" (Sprintf_v x))) :: each r
           end) m in
      String.append "map[" (String.append (join " " (sort.by_key items).*2) "]")
  end.

End fmt.

(** ** The outside world

    What the handlers read from the libraries that do I/O: one record, so
    that a run of a handler is a function of the request, the configuration,
    the table and this record. *)

Definition error := string.

Module http.

(** The reply of the verification endpoint as [VerifyTurnstile] sees it:
    [Body] is what [io.ReadAll(resp.Body)] returns. *)
Record Response := {
  StatusCode : Z;
  Status : string;
  Body : string + error
}.

(** An incoming request.  [Header] maps a canonical header name to its first
    value; [ContentLength] is [-1] when the length is unknown. *)
Record Request := {
  Method : string;
  Header : gmap string string;
  RemoteAddr : string;
  ContentLength : Z;
  Path : string;
  RequestBody : string
}.

Definition Header_Get (r : Request) (key : string) : string :=
  default EmptyString (Header r !! key).

Definition MethodPost : string := "POST".
Definition StatusNoContent : Z := 204.
Definition StatusBadRequest : Z := 400.
Definition StatusNotFound : Z := 404.
Definition StatusTooManyRequests : Z := 429.
Definition StatusInternalServerError : Z := 500.

(** What the handler wrote to its [ResponseWriter]: the status code, and the
    text given to [http.Error] (empty for [WriteHeader] alone). *)
Record Reply := {
  Code : Z;
  Text : string
}.

End http.

(** The struct that [ctaHandler] decodes the request body into. *)
Record submission := {
  Token : string;
  Payload : gmap string value
}.

Definition no_submission : submission := {| Token := EmptyString; Payload := ∅ |}.

(** The error of [dec.Decode]: [io.EOF] or any other. *)
Inductive decode_error :=
| io_EOF
| decode_failed (msg : string).

Record Env := {
  (** [time.Now()] inside [allowRate] *)
  time_Now : time.Time;
  (** [net.SplitHostPort] *)
  net_SplitHostPort : string -> option (string * string);
  (** [json.NewDecoder(http.MaxBytesReader(w, r.Body, n)).Decode(&body)]:
      the struct after the call, and the error *)
  json_Decode_submission : Z -> string -> submission * option decode_error;
  (** [http.Post(url, contentType, body)] *)
  http_Post : string -> string -> string -> http.Response + error;
  (** [json.NewDecoder(resp.Body).Decode(&res)]: the field [Success] *)
  json_Decode_success : string + error -> bool + error;
  (** the SMTP session of [SendMail] for a message *)
  smtp_Send : config.SMTPConfig -> string -> option error
}.

(** ** Effects of a handler *)

Inductive Stage :=
| ContentLengthGuard
| MethodGuard
| UserAgentFilter
| RateLimit
| ReadBody
| TokenPresent
| Verification
| Delivery.

Inductive Event :=
| EvCheck (s : Stage)                        (* the guard of a stage is evaluated *)
| EvWarn (ip path reason : string)           (* the log record of warnRefuse *)
| EvLog (msg : string)                       (* log.Warnf *)
| EvAllowRate (ip : string) (ok : bool)      (* allowRate returned *)
| EvDecode (limit : Z)                       (* the request body is read *)
| EvPost (url contentType body : string)     (* http.Post is called *)
| EvSMTP (msg : string) (err : option error). (* the SMTP session for a message ended *)

Record State := {
  rlimap : gmap string rateInfo;
  reply : option http.Reply;
  journal : list Event
}.

(** A computation either returns, or panics (a nil dereference) and leaves
    the state it had reached. *)
Inductive Res (A : Type) :=
| Ok (a : A) (s : State)
| Panic (s : State).
Arguments Ok {A} a s.
Arguments Panic {A} s.

Definition M (A : Type) : Type := State -> Res A.

#[global] Instance M_ret : MRet M := fun A a s => Ok a s.
#[global] Instance M_bind : MBind M := fun A B f m s =>
  match m s with
  | Ok a s' => f a s'
  | Panic s' => Panic s'
  end.

Definition emit (e : Event) : M unit := fun s =>
  Ok tt {| rlimap := rlimap s; reply := reply s; journal := journal s ++ [e] |}.

Definition panic {A} : M A := fun s => Panic s.

Definition final_state {A} (r : Res A) : State :=
  match r with
  | Ok _ s => s
  | Panic s => s
  end.

Definition panicked {A} (r : Res A) : bool :=
  match r with
  | Ok _ _ => false
  | Panic _ => true
  end.

(** [http.Error(w, text, code)]. *)
Definition http_Error (text : string) (code : Z) : M unit := fun s =>
  Ok tt {| rlimap := rlimap s;
           reply := Some {| http.Code := code; http.Text := text |};
           journal := journal s |}.

(** [w.WriteHeader(code)]. *)
Definition WriteHeader (code : Z) : M unit := http_Error EmptyString code.

(** [err != nil]. *)
Definition not_nil (err : option error) : bool :=
  match err with
  | Some _ => true
  | None => false
  end.

(** [err.Error()]: a nil [err] is a nil dereference. *)
Definition Error_of (err : option error) : M string :=
  match err with
  | Some e => mret e
  | None => panic
  end.

Definition cat (pieces : list string) : string :=
  fold_right String.append EmptyString pieces.

Definition nl : string := str1 LF.
Definition tab : string := str1 TAB.
Definition dq : string := str1 dquote.
Definition crlf : string := String CR (str1 LF).
(** The two bytes that a raw string literal of the source has for [\n]. *)
Definition raw_n : string := String backslash "n".

(** ** package mail *)

Module mail.

(** The value column of one row of [formatPayloadAsTable]: the text of the
    value, then the three replacements, then the trimming. *)
Definition render (v : value) : string :=
  match json.MarshalIndent v with
  | None => fmt.Sprintf_v v
  | Some j => j
  end.

Definition sanitize (v : value) : string :=
  let vstr := render v in
  let vstr := regexp.reHTML_ReplaceAllString vstr in
  let vstr := regexp.reURL_ReplaceAllString vstr in
  let vstr := regexp.reCtrl_ReplaceAllString vstr in
  strings.TrimSpace vstr.

Definition escapeKey (k : string) : string :=
  let escapedKey := strings.ReplaceAll k "<" "&lt;" in
  strings.ReplaceAll escapedKey ">" "&gt;".

Definition table_head : string :=
  cat ["<html>"; nl; tab; "<h1>New Submission</h1>"; nl; nl;
       "  <table width="; dq; "600"; dq; " style="; dq; "border:1px solid #333"; dq; ">"; nl;
       "    <thead>"; nl;
       tab; tab; "  <tr><th align="; dq; "left"; dq; ">Field</th><th align="; dq; "left"; dq;
       ">Value</th></tr>"; nl;
       tab; tab; "</thead>"; nl;
       "   <tbody>"; raw_n].

Definition table_row (k : string) (v : value) : string :=
  cat ["<tr>"; nl; tab; tab; "  <td><code>"; escapeKey k; "</code></td>"; nl;
       tab; tab; tab; "<td><pre>"; sanitize v; "</pre></td>"; nl;
       tab; tab; "</tr>"; raw_n].

Definition table_foot : string :=
  cat ["</tbody>"; nl; tab; "  </table>"; nl; tab; "</html>"; raw_n].

Definition formatPayloadAsTable (payload : gmap string value) : string :=
  let keys := sort.Strings (map_to_list payload).*1 in
  cat [table_head;
       cat (map (fun k => table_row k (default VNil (payload !! k))) keys);
       table_foot].

Definition buildEmailBody (payload : gmap string value) : string :=
  formatPayloadAsTable payload.

(** [SendMail]: the message, then the SMTP session chosen by
    [cfg.Encryption], which either takes the message or fails. *)
Definition SendMail (env : Env) (cfg : config.SMTPConfig) (subject : string)
    (payload : gmap string value) : M (option error) :=
  let body := buildEmailBody payload in
  let msg := cat ["From: "; config.From cfg; crlf;
                  "To: "; config.To cfg; crlf;
                  "Subject: "; subject; crlf;
                  "MIME-Version: 1.0"; crlf;
                  "Content-Type: text/html; charset=UTF-8"; crlf;
                  crlf; body] in
  let err := smtp_Send env cfg msg in
  emit (EvSMTP msg err);;
  mret err.

End mail.

(** ** package net/url *)

Module url.

Definition upper_hex (n : N) : ascii :=
  if (n <? 10)%N then ascii_of_N (48 + n) else ascii_of_N (55 + n).

Definition unreserved (c : ascii) : bool :=
  between 48 57 c || between 65 90 c || between 97 122 c
  || Ascii.eqb c "-" || Ascii.eqb c "_" || Ascii.eqb c "." || Ascii.eqb c "~".

Fixpoint QueryEscape (s : string) : string :=
  match s with
  | EmptyString => EmptyString
  | String c r =>
      if unreserved c then String c (QueryEscape r)
      else if Ascii.eqb c SP then String "+" (QueryEscape r)
      else String "%" (String (upper_hex (byte_val c / 16))
             (String (upper_hex (byte_val c mod 16)) (QueryEscape r)))
  end.

End url.

(** ** package turnstile *)

Module turnstile.

Definition http_Post (env : Env) (url contentType body : string)
    : M (http.Response + error) :=
  emit (EvPost url contentType body);;
  mret (http_Post env url contentType body).

(** [json.Marshal] of a [TurnstileRequest]; it has no error for a struct of
    three strings. *)
Definition Marshal_TurnstileRequest (secret response remoteip : string) : string :=
  cat ["{"; json.quote "secret"; ":"; json.quote secret; ",";
       json.quote "response"; ":"; json.quote response; ",";
       json.quote "remoteip"; ":"; json.quote remoteip; "}"].

Definition status_failed (status : string) : string :=
  String.append "turnstile verification failed with status: " status.

(** [VerifyTurnstile], the version that posts JSON and looks at the status
    of the reply. *)
Definition VerifyTurnstile (env : Env) (cfg : config.CFTurnConfig) (token ip : string)
    : M (bool * option error) :=
  if String.eqb (config.Secret cfg) "" || String.eqb (config.Endpoint cfg) "" then
    mret (false, Some "turnstile not configured")
  else
    let jsonData := Marshal_TurnstileRequest (config.Secret cfg) token ip in
    r ← http_Post env (config.Endpoint cfg) "application/json" jsonData;
    match r with
    | inr err => mret (false, Some err)
    | inl resp =>
        if 299 <? http.StatusCode resp then
          match http.Body resp with
          | inr _ =>
              mret (false, Some (String.append (status_failed (http.Status resp))
                                   " (cannot read body)"))
          | inl bodyBytes =>
              mret (false, Some (cat [status_failed (http.Status resp);
                                      " Error Body: `"; bodyBytes; "`"]))
          end
        else
          match json_Decode_success env (http.Body resp) with
          | inr err => mret (false, Some err)
          | inl success => mret (success, None)
          end
    end.

(** [VerifyTurnstile], the version that posts a form and decodes every
    reply. *)
Definition VerifyTurnstile_form (env : Env) (cfg : config.CFTurnConfig) (token ip : string)
    : M (bool * option error) :=
  if String.eqb (config.Secret cfg) "" || String.eqb (config.Endpoint cfg) "" then
    mret (false, Some "turnstile not configured")
  else
    let data := cat ["secret="; config.Secret cfg; "&response="; token; "&remoteip="; ip] in
    let data := url.QueryEscape data in
    r ← http_Post env (config.Endpoint cfg) "application/x-www-form-urlencoded" data;
    match r with
    | inr err => mret (false, Some err)
    | inl resp =>
        match json_Decode_success env (http.Body resp) with
        | inr err => mret (false, Some err)
        | inl success => mret (success, None)
        end
    end.

End turnstile.

(** ** main.go: the submission handler *)

Definition Verifier : Type :=
  Env -> config.CFTurnConfig -> string -> string -> M (bool * option error).

Section Handler.

Variable cfg : config.Config.
Variable env : Env.

Definition isFakeUA (ua : string) : bool :=
  if negb (config.BlockBotUserAgents (config.Options cfg)) then false
  else
    let l := strings.ToLower ua in
    if strings.Contains l "curl/" || strings.Contains l "python-requests"
       || strings.Contains l "bot"
    then true
    else false.

Definition clientIP (r : http.Request) : string :=
  let xff := http.Header_Get r "X-Forwarded-For" in
  if negb (String.eqb xff "") then
    let parts := strings.Split xff "," in
    strings.TrimSpace (hd EmptyString parts)
  else
    match net_SplitHostPort env (http.RemoteAddr r) with
    | None => http.RemoteAddr r
    | Some (host, _) => host
    end.

Definition warnRefuse (r : http.Request) (reason : string) : M unit :=
  let ip := clientIP r in
  emit (EvWarn ip (http.Path r) reason).

(** [allowRate] on the table of the state, at the clock reading of [env]. *)
Definition allowRateM (ip : string) : M bool := fun s =>
  let '(ok, m) := allowRate (config.Options cfg) (time_Now env) ip (rlimap s) in
  Ok ok {| rlimap := m; reply := reply s; journal := journal s ++ [EvAllowRate ip ok] |}.

(** [dec.Decode(&body)] on the size-capped request body. *)
Definition decodeBody (r : http.Request) : M (submission * option decode_error) :=
  let n := config.MaxBodySize (config.Options cfg) in
  emit (EvDecode n);;
  mret (json_Decode_submission env n (http.RequestBody r)).

Definition invalid_request : string := "invalid request".

Definition ctaHandler_with (VerifyTurnstile : Verifier) (r : http.Request) : M unit :=
  emit (EvCheck MethodGuard);;
  if negb (String.eqb (http.Method r) http.MethodPost) then
    http_Error "not found" http.StatusNotFound
  else
    (* User-Agent check *)
    let ua := http.Header_Get r "User-Agent" in
    emit (EvCheck UserAgentFilter);;
    if String.eqb ua "" || isFakeUA ua then
      warnRefuse r "fake user agent";;
      http_Error invalid_request http.StatusBadRequest
    else
      (* rate limit by IP *)
      let ip := clientIP r in
      emit (EvCheck RateLimit);;
      ok ← allowRateM ip;
      if negb ok then
        warnRefuse r "rate limit";;
        http_Error invalid_request http.StatusTooManyRequests
      else
        (* enforce max bytes *)
        emit (EvCheck ReadBody);;
        d ← decodeBody r;
        let '(body, err) := d in
        match err with
        | Some (decode_failed msg) =>
            warnRefuse r (String.append "bad json: %v" msg);;
            http_Error invalid_request http.StatusBadRequest
        | _ =>
            emit (EvCheck TokenPresent);;
            if String.eqb (Token body) "" then
              warnRefuse r "missing token";;
              http_Error invalid_request http.StatusBadRequest
            else
              emit (EvCheck Verification);;
              v ← VerifyTurnstile env (config.CFTurn cfg) (Token body) ip;
              let '(ok, err) := v in
              if not_nil err || negb ok then
                e ← Error_of err;
                warnRefuse r (String.append "turnstile failed: " e);;
                http_Error invalid_request http.StatusBadRequest
              else
                (* build sanitized email body *)
                emit (EvCheck Delivery);;
                err ← mail.SendMail env (config.SMTP cfg) "New CTA Submission" (Payload body);
                match err with
                | Some e =>
                    emit (EvLog (String.append "send mail failed: " e));;
                    http_Error invalid_request http.StatusInternalServerError
                | None => WriteHeader http.StatusNoContent
                end
        end.

Definition ctaHandler : http.Request -> M unit :=
  ctaHandler_with turnstile.VerifyTurnstile.

(** [limitMiddleware]: basic protections in front of every handler. *)
Definition limitMiddleware (next : http.Request -> M unit) (r : http.Request) : M unit :=
  let max := config.MaxBodySize (config.Options cfg) in
  emit (EvCheck ContentLengthGuard);;
  if (0 <=? max) && (max <? http.ContentLength r) && negb (http.ContentLength r =? -1) then
    warnRefuse r "content-length too large";;
    http_Error invalid_request http.StatusBadRequest
  else next r.

(** The server on a request that the mux routes to the submission
    endpoint. *)
Definition serve_with (VerifyTurnstile : Verifier) : http.Request -> M unit :=
  limitMiddleware (ctaHandler_with VerifyTurnstile).

Definition serve : http.Request -> M unit := serve_with turnstile.VerifyTurnstile.

End Handler.

(** The state a run starts from: nothing written yet, an empty journal. *)
Definition start (table : gmap string rateInfo) : State :=
  {| rlimap := table; reply := None; journal := [] |}.

(** The stages whose guard a run evaluated, in order. *)
Fixpoint stages (j : list Event) : list Stage :=
  match j with
  | [] => []
  | EvCheck s :: rest => s :: stages rest
  | _ :: rest => stages rest
  end.


Definition is_post (e : Event) : bool :=
  match e with EvPost _ _ _ => true | _ => false end.

Definition is_smtp (e : Event) : bool :=
  match e with EvSMTP _ _ => true | _ => false end.

Definition is_decode (e : Event) : bool :=
  match e with EvDecode _ => true | _ => false end.

Definition is_allowRate (e : Event) : bool :=
  match e with EvAllowRate _ _ => true | _ => false end.

(** ** The guards of the handler, as functions of the request *)

Section Guards.

Variable cfg : config.Config.
Variable env : Env.

(** The condition of [limitMiddleware]. *)
Definition too_large (r : http.Request) : bool :=
  let max := config.MaxBodySize (config.Options cfg) in
  (0 <=? max) && (max <? http.ContentLength r) && negb (http.ContentLength r =? -1).

(** The condition of the User-Agent check. *)
Definition bad_agent (r : http.Request) : bool :=
  let ua := http.Header_Get r "User-Agent" in
  String.eqb ua "" || isFakeUA cfg ua.

(** What [allowRate] answers for the request, and the table it leaves. *)
Definition admission (r : http.Request) (table : gmap string rateInfo)
    : bool * gmap string rateInfo :=
  allowRate (config.Options cfg) (time_Now env) (clientIP env r) table.

(** What the decoder leaves in [body], and its error. *)
Definition decoded (r : http.Request) : submission * option decode_error :=
  json_Decode_submission env (config.MaxBodySize (config.Options cfg)) (http.RequestBody r).

Definition bad_json (r : http.Request) : bool :=
  match (decoded r).2 with
  | Some (decode_failed _) => true
  | _ => false
  end.

End Guards.

(** The sanitizer as the specification words it: a string is taken as it
    is, and only the other values are rendered to text first. *)
Definition sanitize_as_specified (v : value) : string :=
  let vstr := match v with
              | VString s => s
              | _ => mail.render v
              end in
  strings.TrimSpace
    (regexp.reCtrl_ReplaceAllString
       (regexp.reURL_ReplaceAllString (regexp.reHTML_ReplaceAllString vstr))).

(** The reply to every refusal, with its status. *)
Definition refusal (code : Z) : http.Reply :=
  {| http.Code := code; http.Text := invalid_request |}.

(** A state with more events in its journal. *)
Definition logged (s : State) (j : list Event) : State :=
  {| rlimap := rlimap s; reply := reply s; journal := journal s ++ j |}.

(** The first guard that refuses a request, in the order in which the server
    has them; [None] when the request reaches the verification. *)
Definition first_refusal (cfg : config.Config) (env : Env) (r : http.Request)
    (table : gmap string rateInfo) : option Stage :=
  if too_large cfg r then Some ContentLengthGuard
  else if negb (String.eqb (http.Method r) http.MethodPost) then Some MethodGuard
  else if bad_agent cfg r then Some UserAgentFilter
  else if negb (admission cfg env r table).1 then Some RateLimit
  else if bad_json cfg env r then Some ReadBody
  else if String.eqb (Token (decoded cfg env r).1) "" then Some TokenPresent
  else None.


Definition is_refused_admission (e : Event) : bool :=
  match e with EvAllowRate _ false => true | _ => false end.

Definition is_failed_mail (e : Event) : bool :=
  match e with EvSMTP _ (Some _) => true | _ => false end.

Definition is_sent_mail (e : Event) : bool :=
  match e with EvSMTP _ None => true | _ => false end.

(** ** Sample data *)

Definition sample_options : config.OptionsConfig :=
  {| config.EnableRateLimiting := true;
     config.MaxBodySize := 4096;
     config.BlockBotUserAgents := true;
     config.CTAEndpoint := "/-/cta" |}.

Definition sample_options_off : config.OptionsConfig :=
  {| config.EnableRateLimiting := false;
     config.MaxBodySize := 4096;
     config.BlockBotUserAgents := true;
     config.CTAEndpoint := "/-/cta" |}.

Definition sample_cfg : config.Config :=
  {| config.CFTurn :=
       {| config.Endpoint := "https://challenges.cloudflare.com/turnstile/v0/siteverify";
          config.Secret := "0x4AAAAAAA-sample-secret-0123456789" |};
     config.SMTP :=
       {| config.Server := "mail.example"; config.Port := 25;
          config.Encryption := "plain"; config.Username := ""; config.Password := "";
          config.VerifyTLS := true;
          config.From := "john@example.com"; config.To := "info@example.com" |};
     config.Options := sample_options |}.

Definition sample_submission : submission :=
  {| Token := "tok"; Payload := {[ "name" := VString "Alice" ]} |}.

(** A world where the request body decodes to [sub], the verification
    endpoint answers [post] whose body decodes to [success], and the SMTP
    session ends with [smtp]. *)
Definition sample_env (sub : submission) (post : http.Response + error)
    (success : bool + error) (smtp : option error) : Env :=
  {| time_Now := 0;
     net_SplitHostPort := fun _ => Some ("203.0.113.7", "51234");
     json_Decode_submission := fun _ _ => (sub, None);
     http_Post := fun _ _ _ => post;
     json_Decode_success := fun _ => success;
     smtp_Send := fun _ _ => smtp |}.

Definition reply_of (code : Z) (status body : string) : http.Response + error :=
  inl {| http.StatusCode := code; http.Status := status; http.Body := inl body |}.

Definition sample_request (method : string) (length : Z) (body : string) : http.Request :=
  {| http.Method := method;
     http.Header := {[ "User-Agent" := "Mozilla/5.0" ]};
     http.RemoteAddr := "203.0.113.7:51234";
     http.ContentLength := length;
     http.Path := "/-/cta";
     http.RequestBody := body |}.

(** The body that decodes to [sample_submission]. *)
Definition sample_body : string :=
  cat ["{"; dq; "token"; dq; ":"; dq; "tok"; dq; ","; dq; "payload"; dq; ":{";
       dq; "name"; dq; ":"; dq; "Alice"; dq; "}}"].

(** The answers of the verification endpoint to a challenge that passed and
    to one that did not. *)
Definition success_true : string := cat ["{"; dq; "success"; dq; ":true}"].
Definition success_false : string := cat ["{"; dq; "success"; dq; ":false}"].

(** A world where the challenge passed and the mail goes out. *)
Definition env_accept : Env :=
  sample_env sample_submission (reply_of 200 "200 OK" success_true) (inl true) None.

(** A world where the verification endpoint answers 200 and says that the
    challenge did not pass. *)
Definition env_challenge_failed : Env :=
  sample_env sample_submission (reply_of 200 "200 OK" success_false) (inl false) None.

(** A world where the verification endpoint answers 101 with a body that
    says [success: true]. *)
Definition env_switching : Env :=
  sample_env sample_submission (reply_of 101 "101 Switching Protocols" success_true)
    (inl true) None.

(** A world where the request body is the empty JSON object. *)
Definition env_no_token : Env :=
  sample_env no_submission (reply_of 200 "200 OK" success_true) (inl true) None.

(** The string of the example of the specification. *)
Definition example_text : string := "visit http://evil.example/x now".

(** A table with one timestamp of the sample address, seventy seconds before
    the clock reading 0. *)
Definition stale_table : gmap string rateInfo :=
  {[ "203.0.113.7" := {| timestamps := [-70000000000] |} ]}.

(** ** Notions used to state what a run did *)

(** The number of events of a journal that satisfy [p]. *)
Fixpoint count (p : Event -> bool) (j : list Event) : nat :=
  match j with
  | [] => 0%nat
  | e :: rest => ((if p e then 1 else 0) + count p rest)%nat
  end.

(** Both the secret and the endpoint of the verifier are set. *)
Definition configured (c : config.CFTurnConfig) : bool :=
  negb (String.eqb (config.Secret c) "" || String.eqb (config.Endpoint c) "").

(** What [http.Post] returns for the request that [VerifyTurnstile] sends. *)
Definition verification_reply (env : Env) (c : config.CFTurnConfig) (token ip : string)
    : http.Response + error :=
  http_Post env (config.Endpoint c) "application/json"
    (turnstile.Marshal_TurnstileRequest (config.Secret c) token ip).

(** The verifier is configured, the endpoint answers with a status that is
    not above 299, and the body of the answer decodes to [success]. *)
Definition answered (env : Env) (c : config.CFTurnConfig) (token ip : string)
    (success : bool) : Prop :=
  configured c = true
  /\ exists resp, verification_reply env c token ip = inl resp
       /\ http.StatusCode resp <= 299
       /\ json_Decode_success env (http.Body resp) = inl success.

(** ** More sample data *)

(** The sample configuration with the blocking of bot agents switched off. *)
Definition sample_cfg_lenient : config.Config :=
  {| config.CFTurn := config.CFTurn sample_cfg;
     config.SMTP := config.SMTP sample_cfg;
     config.Options :=
       {| config.EnableRateLimiting := true;
          config.MaxBodySize := 4096;
          config.BlockBotUserAgents := false;
          config.CTAEndpoint := "/-/cta" |} |}.

(** The sample configuration without a secret for the verifier. *)
Definition sample_cfg_no_secret : config.Config :=
  {| config.CFTurn :=
       {| config.Endpoint := config.Endpoint (config.CFTurn sample_cfg);
          config.Secret := "" |};
     config.SMTP := config.SMTP sample_cfg;
     config.Options := sample_options |}.

(** A POST of the sample body that has no User-Agent header. *)
Definition request_without_agent : http.Request :=
  {| http.Method := "POST";
     http.Header := ∅;
     http.RemoteAddr := "203.0.113.7:51234";
     http.ContentLength := 42;
     http.Path := "/-/cta";
     http.RequestBody := sample_body |}.

(** A table where the sample address has five timestamps of the last five
    nanoseconds before the clock reading 0. *)
Definition busy_table : gmap string rateInfo :=
  {[ "203.0.113.7" := {| timestamps := [-5; -4; -3; -2; -1] |} ]}.

(** ** Notions used to state what the sanitizer leaves *)

(** Some [<] of the list has a [>] after it. *)
Fixpoint tag_in (l : list ascii) : bool :=
  match l with
  | [] => false
  | c :: r => (regexp.is_lt c && existsb regexp.is_gt r) || tag_in r
  end.

(** A byte that no replacement of the sanitizer changes or reads as part of a
    tag: neither an angle bracket nor a control byte of the class. *)
Definition inert (c : ascii) : bool :=
  negb (regexp.is_lt c || regexp.is_gt c || regexp.is_ctrl c).

(** A byte of a multi-byte UTF-8 sequence. *)
Definition high (c : ascii) : bool := (128 <=? byte_val c)%N.

(** [formatPayloadAsTable] when the range over the map yields its keys in the
    order [ranged]: Go leaves that order open, and the keys are sorted
    before the rows are written. *)
Definition formatPayloadAsTable_ranged (ranged : list string)
    (payload : gmap string value) : string :=
  let keys := sort.Strings ranged in
  cat [mail.table_head;
       cat (map (fun k => mail.table_row k (default VNil (payload !! k))) keys);
       mail.table_foot].

(** The order of the entries that [sort.by_key] establishes. *)
Definition key_le {A} (e1 e2 : string * A) : Prop := String.leb e1.1 e2.1 = true.

(** ** config/config.go: LoadConfig

    What [LoadConfig] reads from outside: the file, the decoder of the file
    into a [Config], the environment and the URL parser. *)

Record LoadWorld := {
  (** [os.ReadFile] *)
  os_ReadFile : string -> string + error;
  (** [json.Unmarshal(b, &c)] on the zero [Config]: [c] after the call, and
      the error *)
  json_Unmarshal_Config : string -> config.Config * option error;
  (** [os.LookupEnv] *)
  os_LookupEnv : string -> option string;
  (** [url.Parse], its error *)
  url_Parse : string -> option error
}.

Definition zero_Config : config.Config :=
  {| config.CFTurn := {| config.Endpoint := ""; config.Secret := "" |};
     config.SMTP :=
       {| config.Server := ""; config.Port := 0; config.Encryption := "";
          config.Username := ""; config.Password := ""; config.VerifyTLS := false;
          config.From := ""; config.To := "" |};
     config.Options :=
       {| config.EnableRateLimiting := false; config.MaxBodySize := 0;
          config.BlockBotUserAgents := false; config.CTAEndpoint := "" |} |}.

Definition set_MaxBodySize (c : config.Config) (n : Z) : config.Config :=
  {| config.CFTurn := config.CFTurn c;
     config.SMTP := config.SMTP c;
     config.Options :=
       {| config.EnableRateLimiting := config.EnableRateLimiting (config.Options c);
          config.MaxBodySize := n;
          config.BlockBotUserAgents := config.BlockBotUserAgents (config.Options c);
          config.CTAEndpoint := config.CTAEndpoint (config.Options c) |} |}.

Definition set_CTAEndpoint (c : config.Config) (p : string) : config.Config :=
  {| config.CFTurn := config.CFTurn c;
     config.SMTP := config.SMTP c;
     config.Options :=
       {| config.EnableRateLimiting := config.EnableRateLimiting (config.Options c);
          config.MaxBodySize := config.MaxBodySize (config.Options c);
          config.BlockBotUserAgents := config.BlockBotUserAgents (config.Options c);
          config.CTAEndpoint := p |} |}.

Definition set_Secret (c : config.Config) (s : string) : config.Config :=
  {| config.CFTurn :=
       {| config.Endpoint := config.Endpoint (config.CFTurn c); config.Secret := s |};
     config.SMTP := config.SMTP c;
     config.Options := config.Options c |}.

Definition set_Endpoint (c : config.Config) (e : string) : config.Config :=
  {| config.CFTurn :=
       {| config.Endpoint := e; config.Secret := config.Secret (config.CFTurn c) |};
     config.SMTP := config.SMTP c;
     config.Options := config.Options c |}.

(** The slice [s[:n]]: out of range when [s] is shorter than [n] bytes. *)
Definition slice_to (n : nat) (s : string) : option string :=
  if (n <=? String.length s)%nat then Some (String.substring 0 n s) else None.

(** What a call of [LoadConfig] does: it returns a configuration and an
    error, after it has printed some lines, or it panics on a slice out of
    range. *)
Inductive Loaded :=
| LoadReturn (c : config.Config) (err : option error) (printed : list string)
| LoadPanic.

Definition default_endpoint : string :=
  "https://challenges.cloudflare.com/turnstile/v0/siteverify".

Definition LoadConfig (w : LoadWorld) (path : string) : Loaded :=
  let c := zero_Config in
  match os_ReadFile w path with
  | inr err => LoadReturn c (Some err) []
  | inl b =>
      let '(c, err) := json_Unmarshal_Config w b in
      match err with
      | Some err => LoadReturn c (Some err) []
      | None =>
          (* set defaults body size if needed *)
          let c := if config.MaxBodySize (config.Options c) =? 0
                   then set_MaxBodySize c 4096 else c in
          (* override the secret from the environment *)
          let '(cfturn_sec_env_override, c) :=
            match os_LookupEnv w "WB_CF_TURN_SECRET" with
            | Some s => (true, set_Secret c s)
            | None => (false, c)
            end in
          if negb (String.eqb (config.Secret (config.CFTurn c)) "")
             && negb (String.length (config.Secret (config.CFTurn c)) =? 35)%nat
          then LoadReturn c (Some "cfTurnstile.secret must be 35 characters long") []
          else
            let c := if String.eqb (config.Endpoint (config.CFTurn c)) ""
                     then set_Endpoint c default_endpoint else c in
            match url_Parse w (config.Endpoint (config.CFTurn c)) with
            | Some _ =>
                LoadReturn c
                  (Some "cfTurnstile.endpoint must be a valid URL starting with http:// or https://")
                  []
            | None =>
                let printed :=
                  if String.eqb (config.Secret (config.CFTurn c)) "" then
                    Some [cat ["Turnstile secret is not set. Turnstile verification will be disabled.";
                               nl]]
                  else
                    match slice_to 5 (config.Secret (config.CFTurn c)) with
                    | None => None
                    | Some head =>
                        let cfturn_secret := String.append head "*******..." in
                        let cfturn_secret :=
                          if cfturn_sec_env_override
                          then String.append cfturn_secret " (from env)"
                          else cfturn_secret in
                        Some [cat ["Turnstile endpoint "; config.Endpoint (config.CFTurn c);
                                   " with secret "; cfturn_secret; nl]]
                    end in
                match printed with
                | None => LoadPanic
                | Some printed =>
                    let c := if String.eqb (config.CTAEndpoint (config.Options c)) ""
                             then set_CTAEndpoint c "/-/cta" else c in
                    LoadReturn c None printed
                end
            end
      end
  end.

(** A file that sets a secret of four bytes, in a world without the
    environment variable; and the same world with the variable set. *)
Definition sample_file_cfg : config.Config :=
  set_Secret (set_MaxBodySize zero_Config 0) "abcd".

Definition sample_load_world (env_secret : option string) : LoadWorld :=
  {| os_ReadFile := fun _ => inl "{}";
     json_Unmarshal_Config := fun _ => (sample_file_cfg, None);
     os_LookupEnv := fun _ => env_secret;
     url_Parse := fun _ => None |}.

(** The values that [LoadConfig] leaves in the configuration [c0] that the
    decoder produced, in the order of the code. *)
Definition with_defaults (env_secret : option string) (c0 : config.Config) : config.Config :=
  let c1 := if config.MaxBodySize (config.Options c0) =? 0
            then set_MaxBodySize c0 4096 else c0 in
  let c2 := match env_secret with Some s => set_Secret c1 s | None => c1 end in
  let c3 := if String.eqb (config.Endpoint (config.CFTurn c2)) ""
            then set_Endpoint c2 default_endpoint else c2 in
  if String.eqb (config.CTAEndpoint (config.Options c3)) ""
  then set_CTAEndpoint c3 "/-/cta" else c3.

(** The line that [LoadConfig] prints when no secret is set. *)
Definition disabled_line : string :=
  cat ["Turnstile secret is not set. Turnstile verification will be disabled."; nl].

(** The world of a second load: the file decodes to [c], the variable of the
    environment is not set, every URL parses. *)
Definition reload_world (c : config.Config) : LoadWorld :=
  {| os_ReadFile := fun _ => inl "";
     json_Unmarshal_Config := fun _ => (c, None);
     os_LookupEnv := fun _ => None;
     url_Parse := fun _ => None |}.

(** ** mail: the SMTP session of [SendMail]

    The calls of [crypto/tls], [net] and [net/smtp] that [SendMail] makes, in
    the order it makes them; the server and the network decide which of them
    fail. *)

Module smtp.

Inductive Call :=
| tls_Dial (addr : string) (InsecureSkipVerify : bool) (ServerName : string)
| net_Dial (addr : string)
| NewClient (host : string)
| Extension (ext : string)
| StartTLS (InsecureSkipVerify : bool) (ServerName : string)
| Auth (identity username password host : string)   (* [c.Auth(smtp.PlainAuth(...))] *)
| Mail (from : string)
| Rcpt (to : string)
| Data
| Write (msg : string)
| Close
| Quit
| SendMail (addr : string) (auth : option (string * string * string * string))
    (from : string) (to : list string) (msg : string).

(** The other side: the error of a call after the calls made so far, and
    the extensions that the server advertises. *)
Record Server := {
  fails : list Call -> Call -> option error;
  supports : list Call -> string -> bool
}.

(** The calls whose error [SendMail] looks at: the result of the deferred
    [c.Quit()] is dropped, and [c.Extension] has no error that is read. *)
Definition checked (c : Call) : bool :=
  match c with
  | Quit | Extension _ => false
  | _ => true
  end.

(** Calls made one after the other, each with [if err != nil { return err }]. *)
Fixpoint steps (srv : Server) (calls : list Call) (h : list Call)
    : list Call * option error :=
  match calls with
  | [] => (h, None)
  | c :: rest =>
      match fails srv h c with
      | Some err => (h ++ [c], Some err)
      | None => steps srv rest (h ++ [c])
      end
  end.

(** The errors that the checked calls of [todo] return when they are made
    after [h]. *)
Fixpoint failures (srv : Server) (h todo : list Call) : list error :=
  match todo with
  | [] => []
  | c :: rest =>
      (if checked c then option_list (fails srv h c) else [])
      ++ failures srv (h ++ [c]) rest
  end.

Definition is_Auth (c : Call) : bool :=
  match c with
  | Auth _ _ _ _ | SendMail _ (Some _) _ _ _ => true
  | _ => false
  end.

Definition is_TLS (c : Call) : bool :=
  match c with
  | tls_Dial _ _ _ | StartTLS _ _ => true
  | _ => false
  end.

(** The calls of the delivery proper: the credentials, the envelope and
    the message. *)
Definition is_payload (c : Call) : bool :=
  match c with
  | Auth _ _ _ _ | Mail _ | Rcpt _ | Data | Write _ | Close => true
  | _ => false
  end.

End smtp.

(** [fmt.Sprintf("%d", n)] *)
Definition Sprintf_d (n : Z) : string :=
  DecimalString.NilZero.string_of_int (Z.to_int n).

(** The [switch] of [SendMail] for the message [msg]: the calls made, and
    the error returned. *)
Definition SendMail_session (srv : smtp.Server) (cfg : config.SMTPConfig) (msg : string)
    : list smtp.Call * option error :=
  let addr := cat [config.Server cfg; ":"; Sprintf_d (config.Port cfg)] in
  let auth :=
    if negb (String.eqb (config.Username cfg) "")
    then [smtp.Auth "" (config.Username cfg) (config.Password cfg) (config.Server cfg)]
    else [] in
  let deliver :=
    auth ++ [smtp.Mail (config.From cfg); smtp.Rcpt (config.To cfg); smtp.Data;
             smtp.Write msg; smtp.Close] in
  let mode := strings.ToLower (config.Encryption cfg) in
  if String.eqb mode "ssl" then
    match smtp.steps srv
            [smtp.tls_Dial addr (negb (config.VerifyTLS cfg)) (config.Server cfg);
             smtp.NewClient (config.Server cfg)] [] with
    | (h, Some err) => (h, Some err)
    | (h, None) =>
        let '(h, err) := smtp.steps srv deliver h in
        (* defer c.Quit() *)
        (h ++ [smtp.Quit], err)
    end
  else if String.eqb mode "starttls" then
    match smtp.steps srv [smtp.net_Dial addr; smtp.NewClient (config.Server cfg)] [] with
    | (h, Some err) => (h, Some err)
    | (h, None) =>
        let ok := smtp.supports srv h "STARTTLS" in
        let h := h ++ [smtp.Extension "STARTTLS"] in
        let upgrade :=
          if ok then [smtp.StartTLS (negb (config.VerifyTLS cfg)) (config.Server cfg)]
          else [] in
        let '(h, err) := smtp.steps srv (upgrade ++ deliver) h in
        (* defer c.Quit() *)
        (h ++ [smtp.Quit], err)
    end
  else
    (* plain *)
    let auth :=
      if negb (String.eqb (config.Username cfg) "")
      then Some ("", config.Username cfg, config.Password cfg, config.Server cfg)
      else None in
    smtp.steps srv
      [smtp.SendMail addr auth (config.From cfg) [config.To cfg] msg] [].

(** A server on which no call fails and that does not advertise STARTTLS,
    one that advertises it and refuses the recipient, and a configuration of
    the mail for a mode and a user. *)
Definition server_plain : smtp.Server :=
  {| smtp.fails := fun _ _ => None; smtp.supports := fun _ _ => false |}.

Definition server_no_rcpt : smtp.Server :=
  {| smtp.fails := fun _ c => match c with smtp.Rcpt _ => Some "550" | _ => None end;
     smtp.supports := fun _ _ => true |}.

Definition smtp_cfg (mode user : string) : config.SMTPConfig :=
  {| config.Server := "mail.example"; config.Port := 587; config.Encryption := mode;
     config.Username := user; config.Password := "secret"; config.VerifyTLS := true;
     config.From := "site@example"; config.To := "owner@example" |}.

(** The message that [SendMail] hands to the SMTP session. *)
Definition SendMail_message (cfg : config.SMTPConfig) (subject : string)
    (payload : gmap string value) : string :=
  cat ["From: "; config.From cfg; crlf;
       "To: "; config.To cfg; crlf;
       "Subject: "; subject; crlf;
       "MIME-Version: 1.0"; crlf;
       "Content-Type: text/html; charset=UTF-8"; crlf;
       crlf; mail.buildEmailBody payload].

(** What the SMTP session answers for the submission of a request. *)
Definition delivery (cfg : config.Config) (env : Env) (r : http.Request) : option error :=
  smtp_Send env (config.SMTP cfg)
    (SendMail_message (config.SMTP cfg) "New CTA Submission"
       (Payload (decoded cfg env r).1)).


(** ** What the steps of the sanitizer are to do

    A pattern is taken as the set of the byte strings that it matches.
    [replaced matches new l out] says that [out] is [l] with the matches of
    the pattern replaced by [new], as [ReplaceAllString] finds them: from
    left to right, each match starting at the first position, after the
    match before it, at which a match starts, and being the longest match
    that starts there. *)

Section Replaced.

Variable matches : list ascii -> Prop.
Variable new : list ascii.

Inductive replaced : list ascii -> list ascii -> Prop :=
| replaced_none l :
    (forall pre m post, l = pre ++ m ++ post -> ~ matches m) ->
    replaced l l
| replaced_match pre m post out :
    matches m ->
    (forall pre' m' post',
        pre ++ m ++ post = pre' ++ m' ++ post' -> matches m' ->
        (length pre <= length pre')%nat) ->
    (forall m' post',
        m ++ post = m' ++ post' -> matches m' -> (length m' <= length m)%nat) ->
    replaced post out ->
    replaced (pre ++ m ++ post) (pre ++ new ++ out).

End Replaced.

(** The pattern [<[^>]*>]: a [<], bytes other than [>], a [>]. *)
Definition tag_match (m : list ascii) : Prop :=
  exists body, m = "<"%char :: body ++ [">"%char] /\ (">"%char ∉ body).

(** The class [\s] of the patterns. *)
Definition re_space (c : ascii) : Prop := c ∈ [TAB; LF; FF; CR; SP].

(** The pattern [https?://\S+]: one of the two schemes, then one byte or
    more outside [\s]. *)
Definition url_match (m : list ascii) : Prop :=
  exists scheme run,
    m = scheme ++ run
    /\ (scheme = list_ascii_of_string "http://"
        \/ scheme = list_ascii_of_string "https://")
    /\ run <> []
    /\ Forall (fun c => ~ re_space c) run.

(** The pattern [[\x00-\x09\x0B\x0C\x0E-\x1F]]: one byte of the class. *)
Definition ctrl_match (m : list ascii) : Prop :=
  exists c, m = [c]
    /\ (byte_val c <= 9 \/ 11 <= byte_val c <= 12 \/ 14 <= byte_val c <= 31)%N.

(** The UTF-8 encodings of the white space of Unicode: U+0009 to U+000D,
    U+0020, U+0085, U+00A0, U+1680, U+2000 to U+200A, U+2028, U+2029,
    U+202F, U+205F and U+3000. *)
Definition space_runes : list (list N) :=
  [[9]; [10]; [11]; [12]; [13]; [32]; [194; 133]; [194; 160]; [225; 154; 128];
   [226; 128; 128]; [226; 128; 129]; [226; 128; 130]; [226; 128; 131];
   [226; 128; 132]; [226; 128; 133]; [226; 128; 134]; [226; 128; 135];
   [226; 128; 136]; [226; 128; 137]; [226; 128; 138];
   [226; 128; 168]; [226; 128; 169]; [226; 128; 175]; [226; 129; 159];
   [227; 128; 128]]%N.

Definition space_rune (m : list ascii) : Prop := map byte_val m ∈ space_runes.

(** [t] is [l] without its leading and trailing white space: what is cut at
    each end is a sequence of white space runes, and [t] neither starts nor
    ends with one. *)
Definition trimmed (l t : list ascii) : Prop :=
  exists front back,
    l = concat front ++ t ++ concat back
    /\ Forall space_rune front
    /\ Forall space_rune back
    /\ (forall m rest, t = m ++ rest -> ~ space_rune m)
    /\ (forall rest m, t = rest ++ m -> ~ space_rune m).

(** * Properties *)

(** ** The rate limiter *)

Section RateLimiter.

Variable opts : config.OptionsConfig.
Hypothesis enabled : config.EnableRateLimiting opts = true.

Lemma window_val : window = 60000000000.
Proof. reflexivity. Qed.

(** [now.Sub(ts) <= window] is the comparison of the exact difference: the
    saturation of [Sub] is far from [window]. *)
Lemma Sub_le_window (now ts : time.Time) :
  time.Sub now ts <= window <-> now - ts <= window.
Proof.
  unfold time.Sub, time.minDuration, time.maxDuration. rewrite window_val.
  repeat case_match; lia.
Qed.

Lemma elem_of_prune (now ts : time.Time) (t : list time.Time) :
  ts ∈ prune now t <-> now - ts <= window /\ ts ∈ t.
Proof. unfold prune. rewrite list_elem_of_filter, Sub_le_window. tauto. Qed.

Lemma prune_all (now : time.Time) (t : list time.Time) :
  (forall ts, ts ∈ t -> now - ts <= window) -> prune now t = t.
Proof.
  intros H. unfold prune. induction t as [|a t IH]; [done|].
  rewrite filter_cons_True by (apply Sub_le_window, H; left).
  f_equal. apply IH. intros ts Hts. apply H. by right.
Qed.

Lemma prune_none (now : time.Time) (t : list time.Time) :
  (forall ts, ts ∈ t -> window < now - ts) -> prune now t = [].
Proof.
  intros H. unfold prune. induction t as [|a t IH]; [done|].
  rewrite filter_cons_False.
  - apply IH. intros ts Hts. apply H. by right.
  - rewrite Sub_le_window. specialize (H a ltac:(left)). lia.
Qed.

Lemma stamps_insert (m : gmap string rateInfo) (ip : string) (ri : rateInfo) :
  stamps (<[ip := ri]> m) ip = timestamps ri.
Proof. unfold stamps. by rewrite lookup_insert_eq. Qed.

Lemma stamps_insert_ne (m : gmap string rateInfo) (ip ip' : string) (ri : rateInfo) :
  ip <> ip' -> stamps (<[ip := ri]> m) ip' = stamps m ip'.
Proof. intros. unfold stamps. by rewrite lookup_insert_ne. Qed.

(** What one enabled call stores for its identity, whatever the table. *)
Lemma allowRate_stamps (now : time.Time) (ip : string) (m : gmap string rateInfo) :
  stamps (allowRate opts now ip m).2 ip = prune now (stamps m ip) ++ [now].
Proof.
  unfold allowRate, stamps. rewrite enabled. cbn [negb].
  destruct (m !! ip) as [ri|] eqn:E.
  - destruct (limit <? _)%nat; cbn [snd]; by rewrite lookup_insert_eq.
  - cbn [snd]. by rewrite lookup_insert_eq.
Qed.

Lemma allowRate_other (now : time.Time) (ip ip' : string) (m : gmap string rateInfo) :
  ip <> ip' -> stamps (allowRate opts now ip m).2 ip' = stamps m ip'.
Proof.
  intros Hne. unfold allowRate. rewrite enabled. cbn [negb].
  destruct (m !! ip) as [ri|]; [destruct (limit <? _)%nat|]; cbn [snd];
    by rewrite stamps_insert_ne.
Qed.

(** The answer of one enabled call for an identity that has an entry. *)
Lemma allowRate_answer (now : time.Time) (ip : string) (m : gmap string rateInfo)
    (ri : rateInfo) :
  m !! ip = Some ri ->
  (allowRate opts now ip m).1
  = negb (limit <? length (prune now (timestamps ri) ++ [now]))%nat.
Proof.
  intros E. unfold allowRate. rewrite enabled, E. cbn [negb]. by destruct (limit <? _)%nat.
Qed.

Lemma allowRate_answer_fresh (now : time.Time) (ip : string) (m : gmap string rateInfo) :
  m !! ip = None -> (allowRate opts now ip m).1 = true.
Proof. intros E. unfold allowRate. by rewrite enabled, E. Qed.

(** The answer in terms of the stored timestamps alone: an identity without
    an entry and one whose entry is empty after pruning are both admitted. *)
Lemma allowRate_admits (now : time.Time) (ip : string) (m : gmap string rateInfo) :
  (allowRate opts now ip m).1
  = bool_decide (length (prune now (stamps m ip)) < limit)%nat.
Proof.
  unfold stamps. destruct (m !! ip) as [ri|] eqn:E.
  - rewrite (allowRate_answer _ _ _ _ E), length_app. simpl.
    unfold limit. case_bool_decide; destruct (Nat.ltb_spec 5 (length (prune now (timestamps ri)) + 1)); simpl; lia.
  - by rewrite (allowRate_answer_fresh _ _ _ E).
Qed.

End RateLimiter.

Lemma allowRate_seq_cons (opts : config.OptionsConfig) (ip : string)
    (now : time.Time) (rest : list time.Time) (m : gmap string rateInfo) :
  allowRate_seq opts ip (now :: rest) m
  = ((allowRate opts now ip m).1 :: (allowRate_seq opts ip rest (allowRate opts now ip m).2).1,
     (allowRate_seq opts ip rest (allowRate opts now ip m).2).2).
Proof.
  cbn [allowRate_seq]. destruct (allowRate opts now ip m) as [ok m'].
  cbn [fst snd]. by destruct (allowRate_seq opts ip rest m').
Qed.

(** One enabled call on a table whose timestamps for [ip] are the list [t]. *)
Lemma allowRate_step (opts : config.OptionsConfig) (ip : string) (now : time.Time)
    (m : gmap string rateInfo) (t kept : list time.Time) :
  config.EnableRateLimiting opts = true ->
  stamps m ip = t ->
  prune now t = kept ->
  (allowRate opts now ip m).1 = bool_decide (length kept < limit)%nat
  /\ stamps (allowRate opts now ip m).2 ip = kept ++ [now].
Proof.
  intros En <- <-. split.
  - by apply allowRate_admits.
  - by apply allowRate_stamps.
Qed.

(** C1. With rate limiting on and no timestamp of the identity inside the
    trailing minute, five calls within one minute are admitted and the sixth
    is refused; a call more than a minute after all of them is admitted
    again.  Every call, refused or not, stores its own timestamp last: after
    the six calls all six are stored, and a later call that still has the
    second to sixth inside its window is refused on their count. *)
Theorem allowRate_five_per_window (opts : config.OptionsConfig) (ip : string)
    (m : gmap string rateInfo) (t1 t2 t3 t4 t5 t6 t7 : time.Time) :
  config.EnableRateLimiting opts = true ->
  (forall ts, ts ∈ stamps m ip -> window < t1 - ts) ->
  t1 <= t2 -> t2 <= t3 -> t3 <= t4 -> t4 <= t5 -> t5 <= t6 ->
  t6 - t1 <= window ->
  window < t7 - t6 ->
  let r := allowRate_seq opts ip [t1; t2; t3; t4; t5; t6] m in
  r.1 = [true; true; true; true; true; false]
  /\ stamps r.2 ip = [t1; t2; t3; t4; t5; t6]
  /\ (allowRate opts t7 ip r.2).1 = true
  /\ stamps (allowRate opts t7 ip r.2).2 ip = [t7]
  /\ (forall t, t6 <= t -> t - t2 <= window -> (allowRate opts t ip r.2).1 = false)
  /\ (forall now m0, last (stamps (allowRate opts now ip m0).2 ip) = Some now).
Proof.
  intros En Hstale H12 H23 H34 H45 H56 Hin Hout.
  assert (K : forall now (t : list time.Time),
             Forall (fun ts => now - ts <= window) t -> prune now t = t).
  { intros now t Ht. apply prune_all. by apply Forall_forall. }
  assert (P2 : prune t2 [t1] = [t1]) by (apply K; repeat constructor; lia).
  assert (P3 : prune t3 [t1; t2] = [t1; t2]) by (apply K; repeat constructor; lia).
  assert (P4 : prune t4 [t1; t2; t3] = [t1; t2; t3])
    by (apply K; repeat constructor; lia).
  assert (P5 : prune t5 [t1; t2; t3; t4] = [t1; t2; t3; t4])
    by (apply K; repeat constructor; lia).
  assert (P6 : prune t6 [t1; t2; t3; t4; t5] = [t1; t2; t3; t4; t5])
    by (apply K; repeat constructor; lia).
  assert (P7 : prune t7 [t1; t2; t3; t4; t5; t6] = []).
  { apply prune_none. intros ts Hts.
    rewrite !elem_of_cons, elem_of_nil in Hts. lia. }
  assert (P8 : forall t, t6 <= t -> t - t2 <= window ->
               (5 <= length (prune t [t1; t2; t3; t4; t5; t6]))%nat).
  { intros t Ht6 Ht2.
    change [t1; t2; t3; t4; t5; t6] with ([t1] ++ [t2; t3; t4; t5; t6]).
    unfold prune. rewrite filter_app, length_app.
    fold (prune t [t2; t3; t4; t5; t6]).
    rewrite (K t [t2; t3; t4; t5; t6]) by (repeat constructor; lia).
    cbn [length]. lia. }
  intros r.
  destruct (allowRate_step opts ip t1 m _ [] En eq_refl) as [A1 S1].
  { by apply prune_none. }
  destruct (allowRate_step opts ip t2 _ _ _ En S1 P2) as [A2 S2].
  destruct (allowRate_step opts ip t3 _ _ _ En S2 P3) as [A3 S3].
  destruct (allowRate_step opts ip t4 _ _ _ En S3 P4) as [A4 S4].
  destruct (allowRate_step opts ip t5 _ _ _ En S4 P5) as [A5 S5].
  destruct (allowRate_step opts ip t6 _ _ _ En S5 P6) as [A6 S6].
  assert (R1 : r.1 = [true; true; true; true; true; false]).
  { subst r. rewrite !allowRate_seq_cons. cbn [fst snd allowRate_seq].
    by rewrite A1, A2, A3, A4, A5, A6. }
  assert (R2 : stamps r.2 ip = [t1; t2; t3; t4; t5; t6]).
  { subst r. rewrite !allowRate_seq_cons. cbn [fst snd allowRate_seq]. exact S6. }
  split; [exact R1|]. split; [exact R2|].
  destruct (allowRate_step opts ip t7 _ _ _ En R2 P7) as [A7 S7].
  split; [exact A7|]. split; [exact S7|]. split.
  - intros t Ht6 Ht2.
    rewrite (allowRate_admits opts En), R2.
    apply bool_decide_eq_false. specialize (P8 t Ht6 Ht2). unfold limit. lia.
  - intros now m0. rewrite (allowRate_stamps opts En). apply last_snoc.
Qed.

(** A run of [allowRate_five_per_window]: six calls one second apart on a
    table whose only timestamp is seventy seconds old, then a call more than
    a minute later. *)
Lemma allowRate_five_per_window_witness :
  (allowRate_seq sample_options "203.0.113.7"
     [0; 1000000000; 2000000000; 3000000000; 4000000000; 5000000000] stale_table).1
  = [true; true; true; true; true; false]
  /\ (allowRate sample_options 66000000000 "203.0.113.7"
        (allowRate_seq sample_options "203.0.113.7"
           [0; 1000000000; 2000000000; 3000000000; 4000000000; 5000000000]
           stale_table).2).1
     = true.
Proof.
  assert (Hstale : forall ts, ts ∈ stamps stale_table "203.0.113.7" -> window < 0 - ts).
  { intros ts Hts. apply list_elem_of_singleton in Hts. subst ts. reflexivity. }
  pose proof (allowRate_five_per_window sample_options "203.0.113.7" stale_table
                0 1000000000 2000000000 3000000000 4000000000 5000000000 66000000000
                eq_refl Hstale) as H.
  destruct H as (H1 & _ & H3 & _); [rewrite ?window_val; lia .. |].
  split; [exact H1 | exact H3].
Defined.

(** C8. With rate limiting off, the admission check answers true for every
    identity and returns the table it was given. *)
Theorem allowRate_disabled (opts : config.OptionsConfig) (now : time.Time)
    (ip : string) (m : gmap string rateInfo) :
  config.EnableRateLimiting opts = false ->
  allowRate opts now ip m = (true, m).
Proof. intros Off. unfold allowRate. by rewrite Off. Qed.

(** [allowRate_disabled] on the table with a stale timestamp. *)
Lemma allowRate_disabled_witness :
  allowRate sample_options_off 0 "203.0.113.7" stale_table = (true, stale_table).
Proof. apply (allowRate_disabled sample_options_off 0 "203.0.113.7" stale_table). reflexivity. Defined.

(** *** The invariant of the table *)

Lemma prune_sorted (now : time.Time) (t : list time.Time) :
  StronglySorted Z.le t -> StronglySorted Z.le (prune now t).
Proof.
  unfold prune. induction 1 as [|a t Hs IH Ha]; [constructor|].
  rewrite filter_cons. case_decide; [|exact IH].
  constructor; [exact IH|].
  apply Forall_forall. intros ts Hts. apply list_elem_of_filter in Hts as [_ Hts].
  rewrite Forall_forall in Ha. by apply Ha.
Qed.

Lemma prune_bound (now T : time.Time) (t : list time.Time) :
  Forall (fun ts => ts <= T) t -> Forall (fun ts => ts <= T) (prune now t).
Proof.
  rewrite !Forall_forall. intros H ts Hts.
  apply elem_of_prune in Hts as [_ Hts]. by apply H.
Qed.

Lemma table_ok_empty (T : time.Time) : table_ok T ∅.
Proof. intros ip. unfold stamps. rewrite lookup_empty. split; constructor. Qed.

Lemma table_ok_step (opts : config.OptionsConfig) (T now : time.Time) (ip : string)
    (m : gmap string rateInfo) :
  config.EnableRateLimiting opts = true ->
  T <= now -> table_ok T m -> table_ok now (allowRate opts now ip m).2.
Proof.
  intros En HT Hm ip'. destruct (decide (ip = ip')) as [<-|Hne].
  - rewrite (allowRate_stamps opts En). destruct (Hm ip) as [Hs Hb].
    apply (prune_bound now) in Hb. apply (prune_sorted now) in Hs.
    split.
    + apply StronglySorted_app_2; [| exact Hs | repeat constructor].
      intros x y Hx Hy. apply list_elem_of_singleton in Hy as ->.
      rewrite Forall_forall in Hb. specialize (Hb x Hx). lia.
    + apply Forall_app. split; [|repeat constructor; lia].
      eapply Forall_impl; [exact Hb|]. intros x Hx. cbn in Hx. lia.
  - rewrite (allowRate_other opts En) by done. destruct (Hm ip') as [Hs Hb].
    split; [exact Hs|]. eapply Forall_impl; [exact Hb|]. intros x Hx. cbn in Hx. lia.
Qed.

(** The invariant holds after any run whose clock readings do not go back. *)
Lemma table_ok_all (opts : config.OptionsConfig) (calls : list (string * time.Time))
    (T now : time.Time) (m : gmap string rateInfo) :
  config.EnableRateLimiting opts = true ->
  table_ok T m ->
  StronglySorted Z.le (T :: calls.*2 ++ [now]) ->
  table_ok now (allowRate_all opts calls m).
Proof.
  intros En. unfold allowRate_all.
  revert T m. induction calls as [|[ip t] calls IH]; intros T m Hm Hs.
  - cbn in *. apply StronglySorted_inv in Hs as [_ Hs].
    apply Forall_inv in Hs. intros ip. destruct (Hm ip) as [H1 H2].
    split; [exact H1|]. eapply Forall_impl; [exact H2|]. intros x Hx. cbn in Hx. lia.
  - cbn [fold_left fst snd]. apply (IH t).
    + apply (table_ok_step opts T); [exact En | | exact Hm].
      apply StronglySorted_inv in Hs as [_ Hs]. cbn in Hs. by apply Forall_inv in Hs.
    + apply StronglySorted_inv in Hs as [Hs _]. exact Hs.
Qed.

(** C9. In a run that starts with the empty table and whose clock readings do
    not go back, right after an admission check at [now] of an identity with
    rate limiting on, every timestamp stored for that identity is at most one
    minute before [now] and none is after it, and the stored timestamps are
    in nondecreasing order. *)
Theorem allowRate_window_sorted (opts : config.OptionsConfig)
    (calls : list (string * time.Time)) (ip : string) (now : time.Time) :
  config.EnableRateLimiting opts = true ->
  Sorted Z.le (calls.*2 ++ [now]) ->
  let m' := (allowRate opts now ip (allowRate_all opts calls ∅)).2 in
  (forall ts, ts ∈ stamps m' ip -> 0 <= now - ts <= window)
  /\ Sorted Z.le (stamps m' ip).
Proof.
  intros En Hs m'.
  apply (Sorted_StronglySorted Z.le) in Hs.
  assert (Hlast : Forall (fun t => t <= now) (calls.*2 ++ [now])).
  { clear -Hs. induction (calls.*2) as [|a l IH]; cbn in *.
    - repeat constructor. lia.
    - apply StronglySorted_inv in Hs as [Hs Ha]. constructor; [|by apply IH].
      rewrite Forall_forall in Ha. apply Ha. set_solver. }
  set (T := match calls.*2 ++ [now] with t :: _ => t | [] => now end).
  assert (Hm : table_ok now (allowRate_all opts calls ∅)).
  { apply (table_ok_all opts calls T); [exact En | apply table_ok_empty |].
    constructor; [exact Hs|]. subst T.
    destruct (calls.*2 ++ [now]) as [|t l]; [constructor|].
    apply StronglySorted_inv in Hs as [_ Ha]. constructor; [lia | exact Ha]. }
  pose proof (table_ok_step opts now now ip _ En ltac:(lia) Hm ip) as [H1 H2].
  fold m' in H1, H2. split.
  - intros ts Hts. split.
    + rewrite Forall_forall in H2. specialize (H2 ts Hts). lia.
    + subst m'. rewrite (allowRate_stamps opts En) in Hts.
      apply elem_of_app in Hts as [Hts|Hts].
      * by apply elem_of_prune in Hts as [? _].
      * apply list_elem_of_singleton in Hts as ->. rewrite window_val. lia.
  - by apply StronglySorted_Sorted.
Qed.

(** [allowRate_window_sorted] after three calls of two identities. *)
Lemma allowRate_window_sorted_witness :
  Sorted Z.le
    (stamps (allowRate sample_options 20 "a"
               (allowRate_all sample_options [("a", 0); ("b", 5); ("a", 10)] ∅)).2 "a").
Proof.
  apply (allowRate_window_sorted sample_options [("a", 0); ("b", 5); ("a", 10)] "a" 20 eq_refl).
  simpl. repeat first [ lia | constructor ].
Defined.

(** ** The handler: tactics that run it *)

Lemma allowRateM_run (cfg : config.Config) (env : Env) (ip : string) (s : State) :
  allowRateM cfg env ip s
  = Ok (allowRate (config.Options cfg) (time_Now env) ip (rlimap s)).1
       {| rlimap := (allowRate (config.Options cfg) (time_Now env) ip (rlimap s)).2;
          reply := reply s;
          journal := journal s ++
            [EvAllowRate ip (allowRate (config.Options cfg) (time_Now env) ip (rlimap s)).1] |}.
Proof. unfold allowRateM. by destruct (allowRate _ _ _ _). Qed.

Ltac unfold_handler :=
  unfold serve, serve_with, limitMiddleware, ctaHandler, ctaHandler_with,
    mail.SendMail, warnRefuse, decodeBody, WriteHeader, http_Error, Error_of,
    emit, panic, mbind, M_bind, mret, M_ret, start, logged.

Ltac unfold_verifier :=
  unfold turnstile.VerifyTurnstile, turnstile.VerifyTurnstile_form,
    turnstile.http_Post, emit, mbind, M_bind, mret, M_ret, logged.

Ltac unfold_guards :=
  unfold first_refusal, too_large, bad_agent, bad_json, admission, decoded.

Ltac reduce_state :=
  cbn [journal rlimap reply app final_state panicked fst snd negb orb not_nil
       http.Code http.Text Token Payload refusal
       stages existsb is_post is_smtp is_decode is_allowRate
       is_refused_admission is_failed_mail is_sent_mail].

Ltac is_not_pair x :=
  lazymatch x with
  | (_, _) => fail
  | _ => idtac
  end.

(** Case analysis on every guard that the run meets, in the order in which
    the run meets them; what a pair holds is named once. *)
Ltac split_guards :=
  reduce_state;
  repeat (first
    [ rewrite allowRateM_run
    | match goal with
      | H : ?x = (_, _) |- context [?x] => rewrite H
      | |- context [fst ?x] => is_not_pair x; destruct x eqn:?
      | |- context [snd ?x] => is_not_pair x; destruct x eqn:?
      | |- context [match ?x with (_, _) => _ end] => is_not_pair x; destruct x eqn:?
      | |- context [match ?x with Some _ => _ | None => _ end] => is_var x; destruct x
      | |- context [match ?x with io_EOF => _ | decode_failed _ => _ end] =>
          is_var x; destruct x
      | |- context [if ?b then _ else _] => is_var b; destruct b
      | |- context [if negb ?b then _ else _] => is_var b; destruct b
      | |- context [if ?b then _ else _] => destruct b eqn:?
      | |- context [match ?x with inl _ => _ | inr _ => _ end] => destruct x eqn:?
      | |- context [match ?x with Some _ => _ | None => _ end] => destruct x eqn:?
      end ];
    reduce_state).

Ltac not_in :=
  reduce_state; repeat (apply not_elem_of_cons; split; [discriminate|]);
  apply not_elem_of_nil.

(** The two versions of the verifier return, touch neither the table nor the
    reply, and add to the journal at most the one POST they issue. *)
Lemma VerifyTurnstile_effects (env : Env) (c : config.CFTurnConfig)
    (token ip : string) (s : State) :
  exists res j,
    turnstile.VerifyTurnstile env c token ip s = Ok res (logged s j)
    /\ (j = [] \/ exists u ct b, j = [EvPost u ct b]).
Proof.
  unfold_verifier. split_guards;
    first [ by eexists _, []; split; [rewrite app_nil_r; destruct s | left]
          | by eexists _, [_]; split; [reflexivity | right; eauto] ].
Qed.

Lemma VerifyTurnstile_form_effects (env : Env) (c : config.CFTurnConfig)
    (token ip : string) (s : State) :
  exists res j,
    turnstile.VerifyTurnstile_form env c token ip s = Ok res (logged s j)
    /\ (j = [] \/ exists u ct b, j = [EvPost u ct b]).
Proof.
  unfold_verifier. split_guards;
    first [ by eexists _, []; split; [rewrite app_nil_r; destruct s | left]
          | by eexists _, [_]; split; [reflexivity | right; eauto] ].
Qed.

(** ** The handler: methods other than POST *)

(** The handler alone answers every request that is not a POST with 404 and
    does nothing else. *)
Lemma ctaHandler_not_post (cfg : config.Config) (env : Env) (V : Verifier)
    (r : http.Request) (t : gmap string rateInfo) :
  http.Method r <> http.MethodPost ->
  ctaHandler_with cfg env V r (start t)
  = Ok tt {| rlimap := t;
             reply := Some {| http.Code := 404; http.Text := "not found" |};
             journal := [EvCheck MethodGuard] |}.
Proof.
  intros Hm. apply String.eqb_neq in Hm.
  unfold_handler. reduce_state. by rewrite Hm.
Qed.

(** What the middleware does with a request that declares too long a body:
    the method is not looked at. *)
Lemma serve_too_large (cfg : config.Config) (env : Env) (V : Verifier)
    (r : http.Request) (t : gmap string rateInfo) :
  too_large cfg r = true ->
  serve_with cfg env V r (start t)
  = Ok tt {| rlimap := t;
             reply := Some (refusal 400);
             journal := [EvCheck ContentLengthGuard;
                         EvWarn (clientIP env r) (http.Path r) "content-length too large"] |}.
Proof.
  intros Hl. unfold too_large in Hl.
  unfold_handler. reduce_state. by rewrite Hl.
Qed.

(** C10, the counterexample: a GET that declares 5000 bytes, above the limit
    of 4096, is answered 400 with the text of the refusals, not 404. *)
Lemma get_too_large_is_400 :
  reply (final_state
           (serve sample_cfg
              env_accept
              (sample_request "GET" 5000 sample_body) (start ∅)))
  = Some {| http.Code := 400; http.Text := "invalid request" |}.
Proof. reflexivity. Qed.

(** C10, as the code has it.  A request with a method other than POST that
    the Content-Length guard of the middleware lets through is answered 404
    with the text [not found]; one that the guard stops is answered 400.  In
    both cases the table is left as it was and no step of the pipeline runs:
    no User-Agent check, no admission check, no read of the body, no POST to
    the verifier, no mail. *)
Theorem not_post_not_found (cfg : config.Config) (env : Env)
    (r : http.Request) (t : gmap string rateInfo) :
  http.Method r <> http.MethodPost ->
  let s := final_state (serve cfg env r (start t)) in
  (too_large cfg r = false ->
   serve cfg env r (start t)
   = Ok tt {| rlimap := t;
              reply := Some {| http.Code := 404; http.Text := "not found" |};
              journal := [EvCheck ContentLengthGuard; EvCheck MethodGuard] |})
  /\ (too_large cfg r = true -> reply s = Some (refusal 400))
  /\ rlimap s = t
  /\ (UserAgentFilter ∉ stages (journal s))
  /\ existsb (fun e => is_allowRate e || is_decode e || is_post e || is_smtp e)
             (journal s) = false.
Proof.
  intros Hm s. apply String.eqb_neq in Hm.
  destruct (too_large cfg r) eqn:Hl.
  - subst s. unfold serve. rewrite (serve_too_large _ _ _ _ _ Hl). reduce_state.
    split; [done|]. split; [done|]. split; [done|]. split; [not_in | done].
  - subst s. unfold too_large in Hl.
    unfold_handler. reduce_state. rewrite Hl, Hm. reduce_state.
    split; [done|]. split; [done|]. split; [done|]. split; [not_in | done].
Qed.

(** [not_post_not_found] on a GET without a body. *)
Lemma not_post_not_found_witness :
  reply (final_state (serve sample_cfg env_accept (sample_request "GET" 0 "") (start ∅)))
  = Some {| http.Code := 404; http.Text := "not found" |}.
Proof.
  assert (Hm : http.Method (sample_request "GET" 0 "") <> http.MethodPost) by discriminate.
  destruct (not_post_not_found sample_cfg env_accept (sample_request "GET" 0 "") ∅ Hm)
    as (H & _).
  rewrite H; reflexivity.
Defined.

(** ** The handler: the order of the checks *)




(** ** The handler: a submission without a token *)

(** C7. When the body of a request decodes to an empty token, no run of the
    server calls the verifier: the verification stage is not entered and no
    POST is issued.  The request is refused with a client error, and once its
    body has been read the reply is 400 with the text of the refusals. *)
Theorem empty_token_no_verifier (cfg : config.Config) (env : Env)
    (r : http.Request) (t : gmap string rateInfo) :
  Token (decoded cfg env r).1 = "" ->
  let res := serve cfg env r (start t) in
  let s := final_state res in
  panicked res = false
  /\ (Verification ∉ stages (journal s))
  /\ existsb is_post (journal s) = false
  /\ (exists rep, reply s = Some rep
        /\ (http.Code rep = 400 \/ http.Code rep = 404 \/ http.Code rep = 429))
  /\ (existsb is_decode (journal s) = true -> reply s = Some (refusal 400)).
Proof.
  intros Htok res s. subst s.
  assert (Hres : res = serve cfg env r (start t)) by reflexivity.
  clearbody res. revert Hres Htok. unfold_guards. unfold_handler. unfold_verifier.
  split_guards; intros -> Htok; reduce_state;
    try (rewrite Htok in *; discriminate);
    (split; [done|]); (split; [not_in|]); (split; [done|]);
    (split; [eexists; split; [reflexivity | reduce_state; auto] | done]).
Qed.

(** [empty_token_no_verifier] on a POST of the empty JSON object. *)
Lemma empty_token_no_verifier_witness :
  reply (final_state (serve sample_cfg env_no_token (sample_request "POST" 2 "{}") (start ∅)))
  = Some (refusal 400)
  /\ existsb is_post
       (journal (final_state
                   (serve sample_cfg env_no_token (sample_request "POST" 2 "{}") (start ∅))))
     = false.
Proof.
  destruct (empty_token_no_verifier sample_cfg env_no_token (sample_request "POST" 2 "{}") ∅
              eq_refl) as (_ & _ & Hpost & _ & Hrep).
  split; [apply Hrep; vm_compute; reflexivity | exact Hpost].
Defined.

(** ** The handler: the status of the reply *)


(** ** The handler: a failed challenge without an error *)

(** C2.  When the request passes every guard up to the verification and the
    verifier returns [false] with a nil error, the handler panics on
    [err.Error()]: no reply is written, neither the 400 of the refusals nor
    any other. *)
Theorem nil_error_panics (cfg : config.Config) (env : Env) (V : Verifier)
    (r : http.Request) (t : gmap string rateInfo) :
  first_refusal cfg env r t = None ->
  (forall s, exists j, V env (config.CFTurn cfg) (Token (decoded cfg env r).1)
                         (clientIP env r) s = Ok (false, None) (logged s j)) ->
  let res := serve_with cfg env V r (start t) in
  panicked res = true /\ reply (final_state res) = None.
Proof.
  intros Hpass HV res.
  assert (Hres : res = serve_with cfg env V r (start t)) by reflexivity.
  clearbody res. revert Hres Hpass HV.
  unfold_guards. unfold_handler.
  split_guards; intros -> Hpass HV; try discriminate Hpass;
    match goal with
    | |- context [V ?e ?c ?tok ?ip ?s] => destruct (HV s) as [j ->]
    end;
    done.
Qed.

(** [nil_error_panics] on a POST whose challenge did not pass. *)
Lemma nil_error_panics_witness :
  panicked (serve sample_cfg env_challenge_failed
              (sample_request "POST" 42 sample_body) (start ∅)) = true
  /\ reply (final_state
              (serve sample_cfg env_challenge_failed
                 (sample_request "POST" 42 sample_body) (start ∅))) = None.
Proof.
  apply (nil_error_panics sample_cfg env_challenge_failed turnstile.VerifyTurnstile
           (sample_request "POST" 42 sample_body) ∅).
  - vm_compute. reflexivity.
  - intros s. vm_compute. eexists. reflexivity.
Defined.

(** ** The verifier and the status of the reply *)

(** A status above 299 fails closed: the answer is [false] with an error that
    holds the status and, when it can be read, the body. *)
Lemma VerifyTurnstile_above_299 (env : Env) (c : config.CFTurnConfig)
    (token ip : string) (resp : http.Response) (s : State) :
  http_Post env (config.Endpoint c) "application/json"
    (turnstile.Marshal_TurnstileRequest (config.Secret c) token ip) = inl resp ->
  299 < http.StatusCode resp ->
  exists e j, turnstile.VerifyTurnstile env c token ip s = Ok (false, Some e) (logged s j).
Proof.
  intros Hpost Hst. apply Z.ltb_lt in Hst.
  unfold_verifier. reduce_state.
  destruct (_ || _); [by eexists _, []; rewrite app_nil_r; destruct s|].
  rewrite Hpost, Hst. destruct (http.Body resp); by eexists _, [_].
Qed.

(** The version that posts a form decodes the reply whatever its status. *)
Lemma VerifyTurnstile_form_any_status (env : Env) (c : config.CFTurnConfig)
    (token ip : string) (resp : http.Response) (success : bool) (s : State) :
  config.Secret c <> "" -> config.Endpoint c <> "" ->
  (forall data, http_Post env (config.Endpoint c) "application/x-www-form-urlencoded" data
                = inl resp) ->
  json_Decode_success env (http.Body resp) = inl success ->
  exists j, turnstile.VerifyTurnstile_form env c token ip s = Ok (success, None) (logged s j).
Proof.
  intros Hs He Hpost Hdec.
  apply String.eqb_neq in Hs, He.
  unfold_verifier. reduce_state. rewrite Hs, He, Hpost, Hdec. by eexists [_].
Qed.

(** C4.  What the code does with a status below 200: the guard of
    [VerifyTurnstile] only looks for a status above 299, so the reply is
    decoded like a 2xx one, and when its body says [success: true] the
    verification succeeds with a nil error. *)
Theorem VerifyTurnstile_below_200 (env : Env) (c : config.CFTurnConfig)
    (token ip : string) (resp : http.Response) (success : bool) (s : State) :
  config.Secret c <> "" -> config.Endpoint c <> "" ->
  http_Post env (config.Endpoint c) "application/json"
    (turnstile.Marshal_TurnstileRequest (config.Secret c) token ip) = inl resp ->
  http.StatusCode resp < 200 ->
  json_Decode_success env (http.Body resp) = inl success ->
  turnstile.VerifyTurnstile env c token ip s
  = Ok (success, None)
       (logged s [EvPost (config.Endpoint c) "application/json"
                    (turnstile.Marshal_TurnstileRequest (config.Secret c) token ip)]).
Proof.
  intros Hs He Hpost Hst Hdec.
  apply String.eqb_neq in Hs, He.
  assert (H299 : (299 <? http.StatusCode resp) = false) by (apply Z.ltb_ge; lia).
  unfold_verifier. reduce_state. by rewrite Hs, He, Hpost, H299, Hdec.
Qed.

(** [VerifyTurnstile_below_200] on a reply with status 101. *)
Lemma VerifyTurnstile_below_200_witness :
  exists s,
    turnstile.VerifyTurnstile env_switching (config.CFTurn sample_cfg) "tok" "203.0.113.7"
      (start ∅)
    = Ok (true, None) s.
Proof.
  eexists.
  apply (VerifyTurnstile_below_200 env_switching (config.CFTurn sample_cfg) "tok"
           "203.0.113.7"
           {| http.StatusCode := 101; http.Status := "101 Switching Protocols";
              http.Body := inl success_true |} true (start ∅)).
  - discriminate.
  - discriminate.
  - reflexivity.
  - reflexivity.
  - reflexivity.
Defined.

(** ** The sanitizer *)

(** What passes through a scan for tags was in the text before. *)
Lemma has_gt_reHTML_scan (inside : bool) (s : string) :
  regexp.has_gt (regexp.reHTML_scan inside s) = true -> regexp.has_gt s = true.
Proof.
  revert inside. induction s as [|c r IH]; intros inside; cbn; [done|].
  destruct inside.
  - destruct (regexp.is_gt c); cbn; [done|]. apply IH.
  - destruct (regexp.is_lt c && regexp.has_gt r) eqn:E.
    + intros H. apply IH in H. rewrite H. by destruct (regexp.is_gt c).
    + cbn. destruct (regexp.is_gt c); cbn; [done|]. apply IH.
Qed.

Lemma reHTML_scan_clean (s : string) (inside : bool) :
  (inside = true -> regexp.has_gt s = true) ->
  regexp.reHTML_MatchString (regexp.reHTML_scan inside s) = false.
Proof.
  revert inside. induction s as [|c r IH]; intros inside Hin; cbn; [done|].
  destruct inside.
  - specialize (Hin eq_refl). cbn in Hin.
    destruct (regexp.is_gt c); cbn in *; by apply IH.
  - destruct (regexp.is_lt c && regexp.has_gt r) eqn:E.
    + apply IH. intros _. by apply andb_true_iff in E as [_ ?].
    + cbn. rewrite (IH false) by done. rewrite orb_false_r.
      destruct (regexp.is_lt c); cbn in *; [|done].
      destruct (regexp.has_gt (regexp.reHTML_scan false r)) eqn:G; [|done].
      apply has_gt_reHTML_scan in G. congruence.
Qed.

(** After the first replacement the tag pattern matches nowhere. *)
Lemma reHTML_ReplaceAllString_clean (s : string) :
  regexp.reHTML_MatchString (regexp.reHTML_ReplaceAllString s) = false.
Proof. by apply reHTML_scan_clean. Qed.

(** After the third replacement no control byte of the class is left. *)
Lemma reCtrl_ReplaceAllString_clean (s : string) :
  regexp.reCtrl_MatchString (regexp.reCtrl_ReplaceAllString s) = false.
Proof.
  induction s as [|c r IH]; cbn; [done|]. rewrite IH, orb_false_r.
  by destruct (regexp.is_ctrl c) eqn:E.
Qed.

(** The JSON rendering escapes the angle brackets of a string, so that the
    tag pattern has nothing to match in a rendered string. *)
Lemma sanitize_escapes_tags :
  mail.sanitize (VString "<b>bold</b>")
  = cat [dq; "\u003cb\u003ebold\u003c/b\u003e"; dq]
  /\ sanitize_as_specified (VString "<b>bold</b>") = "bold".
Proof. split; reflexivity. Qed.

(** C5, the counterexample: the sanitized text of the string of the example
    is not [visit  now]: it keeps the quotes that the JSON rendering put
    around it.  The composition that takes a string as it is does give
    [visit  now]. *)
Lemma sanitize_keeps_json_quotes :
  mail.sanitize (VString example_text) <> "visit  now"
  /\ sanitize_as_specified (VString example_text) = "visit  now".
Proof. split; [vm_compute; discriminate | reflexivity]. Qed.

Lemma render_string (s : string) :
  mail.render (VString s) = json.quote s.
Proof. reflexivity. Qed.

(** * Further properties *)

(** ** The rate limiter: admission, frame and growth *)

Lemma prune_exact (now : time.Time) (t : list time.Time) :
  prune now t = filter (fun ts => now - ts <= 60000000000) t.
Proof.
  unfold prune. apply list_filter_iff. intros ts.
  rewrite Sub_le_window, window_val. done.
Qed.

(** X1.  With rate limiting on, a call is admitted exactly when fewer than
    five of the timestamps stored for the identity are at most sixty seconds
    before the call; a timestamp exactly sixty seconds old still counts. *)
Theorem allowRate_admits_iff (opts : config.OptionsConfig) (now : time.Time)
    (ip : string) (m : gmap string rateInfo) :
  config.EnableRateLimiting opts = true ->
  (allowRate opts now ip m).1 = true
  <-> (length (filter (fun ts => (now - ts <= 60000000000)%Z) (stamps m ip)) < 5)%nat.
Proof.
  intros En. rewrite (allowRate_admits opts En), prune_exact.
  unfold limit. by rewrite bool_decide_eq_true.
Qed.

(** [allowRate_admits_iff] on a table that holds five timestamps, the oldest
    exactly sixty seconds before the call: the call is refused. *)
Lemma allowRate_admits_iff_witness :
  (allowRate sample_options 60000000000 "a"
     {[ "a" := {| timestamps := [0; 1; 2; 3; 4] |} ]}).1 = false.
Proof.
  destruct (allowRate sample_options 60000000000 "a"
              {[ "a" := {| timestamps := [0; 1; 2; 3; 4] |} ]}).1 eqn:E; [|reflexivity].
  apply (allowRate_admits_iff sample_options 60000000000 "a" _ eq_refl) in E.
  vm_compute in E. lia.
Defined.

(** X2.  A call never removes an entry of the table and never touches the
    entry of another identity; with rate limiting on, the identity of the
    call has an entry afterwards. *)
Theorem allowRate_frame (opts : config.OptionsConfig) (now : time.Time)
    (ip : string) (m : gmap string rateInfo) :
  dom m ⊆ dom (allowRate opts now ip m).2
  /\ (forall ip', ip' <> ip -> (allowRate opts now ip m).2 !! ip' = m !! ip')
  /\ (config.EnableRateLimiting opts = true -> ip ∈ dom (allowRate opts now ip m).2).
Proof.
  unfold allowRate. destruct (config.EnableRateLimiting opts); cbn [negb].
  - destruct (m !! ip) as [ri|] eqn:E; [destruct (limit <? _)%nat|]; cbn [snd];
      (split; [rewrite dom_insert; set_solver|]);
      (split; [intros ip' Hne; by rewrite lookup_insert_ne|]);
      intros _; rewrite dom_insert; set_solver.
  - cbn [snd]. split; [done|]. split; [done|]. intros [=].
Qed.

Lemma allowRate_frame_witness :
  "b" ∈ dom (allowRate sample_options 5 "b" stale_table).2
  /\ (allowRate sample_options 5 "b" stale_table).2 !! "203.0.113.7"
     = stale_table !! "203.0.113.7".
Proof.
  destruct (allowRate_frame sample_options 5 "b" stale_table) as (_ & Hother & Hin).
  split; [by apply Hin | apply Hother; discriminate].
Defined.

(** Calls of one identity whose clock readings all lie in one window of a
    minute that starts at [lo], on a table whose timestamps for the identity
    are all more than a minute before [lo]. *)
Lemma allowRate_seq_window (opts : config.OptionsConfig) (ip : string) (lo : time.Time)
    (nows acc : list time.Time) (m : gmap string rateInfo) :
  config.EnableRateLimiting opts = true ->
  stamps m ip = acc ->
  Forall (fun t => lo <= t) acc ->
  Forall (fun t => lo <= t <= lo + window) nows ->
  (allowRate_seq opts ip nows m).1
  = map (fun k => bool_decide (k < limit)%nat) (seq (length acc) (length nows))
  /\ stamps (allowRate_seq opts ip nows m).2 ip = acc ++ nows.
Proof.
  intros En. revert acc m. induction nows as [|t nows IH]; intros acc m Hm Hacc Hnows.
  - cbn. by rewrite app_nil_r.
  - apply Forall_cons in Hnows as [Ht Hnows].
    assert (Hkeep : prune t acc = acc).
    { apply prune_all. intros ts Hts. rewrite Forall_forall in Hacc.
      specialize (Hacc ts Hts). lia. }
    destruct (allowRate_step opts ip t m acc acc En Hm Hkeep) as [A S].
    rewrite allowRate_seq_cons. cbn [fst snd].
    destruct (IH (acc ++ [t]) (allowRate opts t ip m).2 S) as [R1 R2]; [|done|].
    { apply Forall_app. split; [done|]. repeat constructor. lia. }
    rewrite R1, R2, A, length_app, <- app_assoc. cbn [length seq map app].
    by rewrite Nat.add_1_r.
Qed.

(** X3.  A burst: when a table holds nothing recent for an identity and the
    identity calls any number of times within one minute, the first five
    calls are admitted and every later one is refused, and every call of the
    burst, refused or not, leaves its timestamp in the table: the list grows
    with the burst, beyond the limit. *)
Theorem allowRate_burst (opts : config.OptionsConfig) (ip : string)
    (t : time.Time) (rest : list time.Time) (m : gmap string rateInfo) :
  config.EnableRateLimiting opts = true ->
  (forall ts, ts ∈ stamps m ip -> window < t - ts) ->
  Forall (fun t' => t <= t' <= t + window) rest ->
  (allowRate_seq opts ip (t :: rest) m).1
  = map (fun k => bool_decide (k < 5)%nat) (seq 0 (S (length rest)))
  /\ stamps (allowRate_seq opts ip (t :: rest) m).2 ip = t :: rest.
Proof.
  intros En Hstale Hrest.
  destruct (allowRate_step opts ip t m _ [] En eq_refl (prune_none t _ Hstale)) as [A S].
  rewrite allowRate_seq_cons. cbn [fst snd].
  destruct (allowRate_seq_window opts ip t rest [t] _ En S) as [R1 R2]; [|done|].
  { repeat constructor. lia. }
  rewrite R1, R2, A. done.
Qed.

(** [allowRate_burst] on eight calls one second apart. *)
Lemma allowRate_burst_witness :
  (allowRate_seq sample_options "203.0.113.7"
     [0; 1000000000; 2000000000; 3000000000; 4000000000; 5000000000; 6000000000;
      7000000000] stale_table).1
  = [true; true; true; true; true; false; false; false]
  /\ length (stamps (allowRate_seq sample_options "203.0.113.7"
               [0; 1000000000; 2000000000; 3000000000; 4000000000; 5000000000;
                6000000000; 7000000000] stale_table).2 "203.0.113.7") = 8%nat.
Proof.
  assert (Hstale : forall ts, ts ∈ stamps stale_table "203.0.113.7" -> window < 0 - ts).
  { intros ts Hts. apply list_elem_of_singleton in Hts. subst ts. reflexivity. }
  destruct (allowRate_burst sample_options "203.0.113.7" 0
              [1000000000; 2000000000; 3000000000; 4000000000; 5000000000; 6000000000;
               7000000000] stale_table eq_refl Hstale) as [R1 R2].
  { rewrite window_val. repeat constructor; lia. }
  split; [exact R1 | by rewrite R2].
Defined.
Lemma VerifyTurnstile_verdict (env : Env) (c : config.CFTurnConfig)
    (token ip : string) (s : State) :
  exists ok err j,
    turnstile.VerifyTurnstile env c token ip s = Ok (ok, err) (logged s j)
    /\ (ok = true <-> answered env c token ip true)
    /\ (ok = true -> err = None)
    /\ (ok = false /\ err = None <-> answered env c token ip false)
    /\ (j = [] <-> configured c = false)
    /\ (configured c = true ->
        j = [EvPost (config.Endpoint c) "application/json"
               (turnstile.Marshal_TurnstileRequest (config.Secret c) token ip)]).
Proof.
  unfold answered, verification_reply, configured. unfold_verifier. reduce_state.
  destruct (_ || _) eqn:Hc; cbn [negb].
  { exists false, (Some "turnstile not configured"), [].
    split; [by rewrite app_nil_r; destruct s|].
    split; [split; [done | by intros [[=] _]]|]. split; [done|].
    split; [split; [by intros [_ [=]] | by intros [[=] _]]|].
    split; [done|]. intros [=]. }
  destruct (http_Post env _ _ _) as [resp|e] eqn:Hp.
  2:{ eexists false, (Some e), _. split; [reflexivity|].
      split; [split; [done | by intros [_ (? & [=] & _)]]|]. split; [done|].
      split; [split; [by intros [_ [=]] | by intros [_ (? & [=] & _)]]|].
      split; [done|]. done. }
  destruct (299 <? http.StatusCode resp) eqn:Hs.
  { apply Z.ltb_lt in Hs.
    destruct (http.Body resp) eqn:Hb; eexists false, (Some _), _;
      (split; [reflexivity|]);
      (split; [split; [done | intros [_ (resp' & [= <-] & Hle & _)]; lia]|]);
      (split; [done|]);
      (split; [split; [by intros [_ [=]] | intros [_ (resp' & [= <-] & Hle & _)]; lia]|]);
      (split; [done|]); done. }
  apply Z.ltb_ge in Hs.
  destruct (json_Decode_success env (http.Body resp)) as [b|e] eqn:Hd.
  2:{ eexists false, (Some e), _. split; [reflexivity|].
      split; [split; [done | intros [_ (resp' & [= <-] & _ & Hd')]; congruence]|].
      split; [done|].
      split; [split; [by intros [_ [=]] | intros [_ (resp' & [= <-] & _ & Hd')]; congruence]|].
      split; [done|]. done. }
  eexists b, None, _. split; [reflexivity|].
  split; [split; [intros ->; eauto | intros [_ (resp' & [= <-] & _ & Hd')]; congruence]|].
  split; [done|].
  split; [split; [intros [-> _]; eauto | intros [_ (resp' & [= <-] & _ & Hd')]; split; congruence]|].
  split; [done|]. done.
Qed.

(** ** The handler: what a run does, guard by guard *)

(** The run of the server up to the call of the verifier, then the verdict. *)
Ltac run_server :=
  unfold_guards; unfold_handler; split_guards;
  try match goal with
    | |- context [turnstile.VerifyTurnstile ?e ?c ?tok ?ip ?s] =>
        let ok := fresh "ok" in
        let err := fresh "err" in
        let j := fresh "j" in
        let Hrun := fresh "Hrun" in
        let Htrue := fresh "Htrue" in
        let Hfalse := fresh "Hfalse" in
        let Hnoerr := fresh "Hnoerr" in
        let Hnil := fresh "Hnil" in
        let Hpost := fresh "Hpost" in
        destruct (VerifyTurnstile_verdict e c tok ip s)
          as (ok & err & j & Hrun & Htrue & Hnoerr & Hfalse & Hnil & Hpost);
        rewrite Hrun; unfold logged; split_guards
    end.



(** X4.  A POST without a User-Agent header is refused with 400 whether or
    not the blocking of bot agents is switched on, before the admission
    check: the table is left as it was. *)
Theorem empty_agent_refused (cfg : config.Config) (env : Env)
    (r : http.Request) (t : gmap string rateInfo) :
  http.Method r = http.MethodPost ->
  too_large cfg r = false ->
  http.Header r !! "User-Agent" = None ->
  serve cfg env r (start t)
  = Ok tt {| rlimap := t;
             reply := Some (refusal 400);
             journal := [EvCheck ContentLengthGuard; EvCheck MethodGuard;
                         EvCheck UserAgentFilter;
                         EvWarn (clientIP env r) (http.Path r) "fake user agent"] |}.
Proof.
  intros Hm Hl Hua. unfold too_large in Hl.
  unfold_handler. unfold http.Header_Get at 1 2. rewrite Hua.
  reduce_state. rewrite Hl, Hm. reduce_state. reflexivity.
Qed.

(** [empty_agent_refused] on sample data. *)
Lemma empty_agent_refused_witness :
  reply (final_state (serve sample_cfg_lenient env_accept request_without_agent (start ∅)))
  = Some (refusal 400).
Proof.
  rewrite (empty_agent_refused sample_cfg_lenient env_accept request_without_agent ∅
             eq_refl eq_refl eq_refl).
  reflexivity.
Defined.

(** X5.  A run panics exactly when no guard refuses the request and the
    endpoint answers, with a status that is not above 299, that the
    challenge did not pass; every other run writes a reply. *)
Theorem run_panics_iff (cfg : config.Config) (env : Env)
    (r : http.Request) (t : gmap string rateInfo) :
  let res := serve cfg env r (start t) in
  (panicked res = true
   <-> first_refusal cfg env r t = None
       /\ answered env (config.CFTurn cfg) (Token (decoded cfg env r).1)
            (clientIP env r) false)
  /\ (reply (final_state res) = None <-> panicked res = true).
Proof.
  intros res.
  assert (Hres : res = serve cfg env r (start t)) by reflexivity.
  clearbody res. revert Hres.
  run_server; intros ->; reduce_state.
  all: split; [|done].
  all: split; [done || (intros _; split; [done|]; by apply Hfalse) | ].
  all: try (by intros [[=] _]).
  all: intros [_ Ha]; apply Hfalse in Ha as [? ?]; done.
Qed.

(** [run_panics_iff] on sample data. *)
Lemma run_panics_iff_witness :
  panicked (serve sample_cfg env_challenge_failed
              (sample_request "POST" 42 sample_body) (start ∅)) = true.
Proof.
  apply (proj2 (proj1 (run_panics_iff sample_cfg env_challenge_failed
                         (sample_request "POST" 42 sample_body) ∅))).
  split; [vm_compute; reflexivity|].
  split; [reflexivity|].
  eexists. split; [vm_compute; reflexivity|].
  split; [vm_compute; discriminate | reflexivity].
Defined.

(** X6.  [SendMail] is called exactly when no guard refuses the request and
    the endpoint answers, with a status that is not above 299, that the
    challenge passed; it is called at most once, and the run ends in 204
    exactly when that one SMTP session takes the message. *)
Theorem mail_only_when_verified (cfg : config.Config) (env : Env)
    (r : http.Request) (t : gmap string rateInfo) :
  let s := final_state (serve cfg env r (start t)) in
  (count is_smtp (journal s) = 1%nat
   <-> first_refusal cfg env r t = None
       /\ answered env (config.CFTurn cfg) (Token (decoded cfg env r).1)
            (clientIP env r) true)
  /\ (count is_smtp (journal s) <= 1)%nat
  /\ (reply s = Some {| http.Code := 204; http.Text := "" |}
      <-> count is_sent_mail (journal s) = 1%nat).
Proof.
  intros s.
  assert (Hs : s = final_state (serve cfg env r (start t))) by reflexivity.
  clearbody s. revert Hs.
  run_server; intros ->; reduce_state;
    repeat match goal with
      | H : configured _ = true -> ?j = _ |- context [?j] =>
          destruct (configured (config.CFTurn cfg)) eqn:?;
          [rewrite (H eq_refl) | rewrite (proj2 Hnil eq_refl)]
      end;
    cbn [count is_smtp is_sent_mail app Nat.add].
  all: split;
    [|split; [lia | split; intros H; first [done | by vm_compute in H]]].
  all: split; [done || (intros _; split; [done|]; by apply Htrue) | ].
  all: try (by intros [[=] _]).
  all: intros [_ Ha]; apply Htrue in Ha; first [done | by apply Hnoerr in Ha].
Qed.

(** [mail_only_when_verified] on sample data. *)
Lemma mail_only_when_verified_witness :
  count is_smtp
    (journal (final_state
                (serve sample_cfg env_accept (sample_request "POST" 42 sample_body)
                   (start ∅)))) = 1%nat.
Proof.
  apply (proj2 (proj1 (mail_only_when_verified sample_cfg env_accept
                         (sample_request "POST" 42 sample_body) ∅))).
  split; [vm_compute; reflexivity|].
  split; [reflexivity|].
  eexists. split; [vm_compute; reflexivity|].
  split; [vm_compute; discriminate | reflexivity].
Defined.

(** X7.  With an empty secret the verifier is never called over the network
    and no mail is sent: a request that passes every guard is refused with
    400 like the others, and no request is answered 204. *)
Theorem unconfigured_refuses_all (cfg : config.Config) (env : Env)
    (r : http.Request) (t : gmap string rateInfo) :
  config.Secret (config.CFTurn cfg) = "" ->
  let res := serve cfg env r (start t) in
  let s := final_state res in
  panicked res = false
  /\ count is_post (journal s) = 0%nat
  /\ count is_smtp (journal s) = 0%nat
  /\ (first_refusal cfg env r t = None -> reply s = Some (refusal 400))
  /\ reply s <> Some {| http.Code := 204; http.Text := "" |}.
Proof.
  intros Hsec res s. subst s.
  assert (Hc : configured (config.CFTurn cfg) = false)
    by (unfold configured; by rewrite Hsec).
  assert (Hres : res = serve cfg env r (start t)) by reflexivity.
  clearbody res. revert Hres.
  run_server; intros ->; reduce_state;
    try (rewrite (proj2 Hnil Hc));
    try (destruct (proj1 Hfalse (conj eq_refl eq_refl)) as [? _]; congruence);
    try (destruct (proj1 Htrue eq_refl) as [? _]; congruence);
    cbn [count is_post is_smtp app Nat.add];
    (split; [done|]); (split; [done|]); (split; [done|]);
    (split; [done|]); intros H; by vm_compute in H.
Qed.

(** [unconfigured_refuses_all] on sample data. *)
Lemma unconfigured_refuses_all_witness :
  reply (final_state
           (serve sample_cfg_no_secret env_accept (sample_request "POST" 42 sample_body)
              (start ∅)))
  = Some (refusal 400).
Proof.
  destruct (unconfigured_refuses_all sample_cfg_no_secret env_accept
              (sample_request "POST" 42 sample_body) ∅ eq_refl) as (_ & _ & _ & H & _).
  apply H. vm_compute. reflexivity.
Defined.

(** X8.  A run asks the rate limiter at most once, reads the body at most
    once and posts to the verification endpoint at most once; it posts
    exactly once when no guard refuses the request and the verifier is
    configured, whatever the endpoint answers. *)
Theorem one_attempt_each (cfg : config.Config) (env : Env)
    (r : http.Request) (t : gmap string rateInfo) :
  let s := final_state (serve cfg env r (start t)) in
  (count is_allowRate (journal s) <= 1)%nat
  /\ (count is_decode (journal s) <= 1)%nat
  /\ (count is_post (journal s) <= 1)%nat
  /\ (count is_post (journal s) = 1%nat
      <-> first_refusal cfg env r t = None /\ configured (config.CFTurn cfg) = true).
Proof.
  intros s.
  assert (Hs : s = final_state (serve cfg env r (start t))) by reflexivity.
  clearbody s. revert Hs.
  run_server; intros ->; reduce_state;
    repeat match goal with
      | H : configured _ = true -> ?j = _ |- context [?j] =>
          destruct (configured (config.CFTurn cfg)) eqn:?;
          [rewrite (H eq_refl) | rewrite (proj2 Hnil eq_refl)]
      end;
    cbn [count is_allowRate is_decode is_post app Nat.add];
    (split; [lia|]); (split; [lia|]); (split; [lia|]);
    split; first [done | by intros [[=] _] | by intros [_ [=]]].
Qed.

(** [one_attempt_each] on sample data. *)
Lemma one_attempt_each_witness :
  count is_post
    (journal (final_state
                (serve sample_cfg env_accept (sample_request "POST" 42 sample_body)
                   (start ∅)))) = 1%nat.
Proof.
  destruct (one_attempt_each sample_cfg env_accept (sample_request "POST" 42 sample_body) ∅)
    as (_ & _ & _ & H).
  apply H. split; [vm_compute; reflexivity | reflexivity].
Defined.

(** X9.  The table after a run: the one the run started with when the
    Content-Length guard, the method guard or the User-Agent filter refused
    the request, and otherwise the one that the admission check left.  In
    both cases no entry is removed and the entries of the other identities
    are as before. *)
Theorem table_after_run (cfg : config.Config) (env : Env)
    (r : http.Request) (t : gmap string rateInfo) :
  let s := final_state (serve cfg env r (start t)) in
  match first_refusal cfg env r t with
  | Some ContentLengthGuard | Some MethodGuard | Some UserAgentFilter => rlimap s = t
  | _ => rlimap s = (admission cfg env r t).2
  end
  /\ dom t ⊆ dom (rlimap s)
  /\ (forall ip', ip' <> clientIP env r -> rlimap s !! ip' = t !! ip').
Proof.
  intros s.
  destruct (allowRate_frame (config.Options cfg) (time_Now env) (clientIP env r) t)
    as (Hdom & Hother & _).
  assert (Hs : s = final_state (serve cfg env r (start t))) by reflexivity.
  clearbody s. revert Hs Hdom Hother.
  run_server; intros -> Hdom Hother; reduce_state; done.
Qed.

(** [table_after_run] on sample data. *)
Lemma table_after_run_witness :
  rlimap (final_state
            (serve sample_cfg env_accept (sample_request "POST" 42 sample_body)
               (start stale_table))) !! "198.51.100.1"
  = stale_table !! "198.51.100.1".
Proof.
  destruct (table_after_run sample_cfg env_accept (sample_request "POST" 42 sample_body)
              stale_table) as (_ & _ & H).
  apply H. discriminate.
Defined.

(** X10.  A request that the admission check refuses is answered 429, and its
    own timestamp is stored all the same: afterwards the list of its identity
    ends with the clock reading of the request and holds more than five
    timestamps. *)
Theorem refused_request_is_counted (cfg : config.Config) (env : Env)
    (r : http.Request) (t : gmap string rateInfo) :
  first_refusal cfg env r t = Some RateLimit ->
  let s := final_state (serve cfg env r (start t)) in
  reply s = Some (refusal 429)
  /\ last (stamps (rlimap s) (clientIP env r)) = Some (time_Now env)
  /\ (5 < length (stamps (rlimap s) (clientIP env r)))%nat.
Proof.
  intros Href s.
  assert (Hadm : (admission cfg env r t).1 = false).
  { destruct (admission cfg env r t).1 eqn:E; [|done].
    exfalso. revert Href. unfold first_refusal. rewrite E. cbn [negb].
    repeat match goal with
      | |- context [if ?b then _ else _] => destruct b
      end; discriminate. }
  assert (En : config.EnableRateLimiting (config.Options cfg) = true).
  { destruct (config.EnableRateLimiting (config.Options cfg)) eqn:E; [done|].
    unfold admission in Hadm. by rewrite (allowRate_disabled _ _ _ _ E) in Hadm. }
  assert (Hlen : ~ (length (prune (time_Now env) (stamps t (clientIP env r))) < limit)%nat).
  { unfold admission in Hadm. rewrite (allowRate_admits _ En) in Hadm.
    by apply bool_decide_eq_false in Hadm. }
  assert (Hst : stamps (admission cfg env r t).2 (clientIP env r)
                = prune (time_Now env) (stamps t (clientIP env r)) ++ [time_Now env])
    by apply (allowRate_stamps _ En).
  assert (Hs : s = final_state (serve cfg env r (start t))) by reflexivity.
  clearbody s. revert Hs Href Hst.
  run_server; intros -> Href Hst; try discriminate Href; reduce_state.
  all: split; [done|]; rewrite Hst, last_snoc, length_app; cbn [length];
    unfold limit in Hlen; split; [done | lia].
Qed.

(** [refused_request_is_counted] on sample data. *)
Lemma refused_request_is_counted_witness :
  reply (final_state
           (serve sample_cfg env_accept (sample_request "POST" 42 sample_body)
              (start busy_table)))
  = Some (refusal 429)
  /\ (5 < length (stamps (rlimap (final_state
                    (serve sample_cfg env_accept (sample_request "POST" 42 sample_body)
                       (start busy_table)))) "203.0.113.7"))%nat.
Proof.
  assert (H : first_refusal sample_cfg env_accept (sample_request "POST" 42 sample_body)
                busy_table = Some RateLimit) by (vm_compute; reflexivity).
  destruct (refused_request_is_counted sample_cfg env_accept
              (sample_request "POST" 42 sample_body) busy_table H) as (H1 & _ & H3).
  split; [exact H1 | exact H3].
Defined.

(** ** The verifier: failing closed *)

(** X11.  The three answers of [VerifyTurnstile].  It returns [true] with a
    nil error when the endpoint answered, with a status not above 299, a body
    that decodes to success; [false] with a nil error when that body decodes
    to failure; and in every other case (verifier not configured, transport
    error, status above 299, body that does not decode) [false] with an
    error.  It never returns [true] together with an error. *)
Theorem verifier_fails_closed (env : Env) (c : config.CFTurnConfig)
    (token ip : string) (s : State) :
  (answered env c token ip true ->
   exists j, turnstile.VerifyTurnstile env c token ip s = Ok (true, None) (logged s j))
  /\ (answered env c token ip false ->
      exists j, turnstile.VerifyTurnstile env c token ip s = Ok (false, None) (logged s j))
  /\ (~ answered env c token ip true -> ~ answered env c token ip false ->
      exists e j,
        turnstile.VerifyTurnstile env c token ip s = Ok (false, Some e) (logged s j))
  /\ (forall e s', turnstile.VerifyTurnstile env c token ip s <> Ok (true, Some e) s').
Proof.
  destruct (VerifyTurnstile_verdict env c token ip s)
    as (ok & err & j & Hrun & Htrue & Hnoerr & Hfalse & _ & _).
  rewrite Hrun. split; [|split; [|split]].
  - intros Ha. apply Htrue in Ha. rewrite (Hnoerr Ha), Ha. by exists j.
  - intros Ha. apply Hfalse in Ha as [-> ->]. by exists j.
  - intros Hnt Hnf. destruct ok.
    + by destruct Hnt; apply Htrue.
    + destruct err as [e|]; [by exists e, j|].
      by destruct Hnf; apply Hfalse.
  - intros e s' [= -> He _]. by specialize (Hnoerr eq_refl); subst err.
Qed.

(** [verifier_fails_closed] on sample data. *)
Lemma verifier_fails_closed_witness :
  exists j,
    turnstile.VerifyTurnstile env_accept (config.CFTurn sample_cfg) "tok" "203.0.113.7"
      (start ∅)
    = Ok (true, None) (logged (start ∅) j).
Proof.
  apply (proj1 (verifier_fails_closed env_accept (config.CFTurn sample_cfg) "tok"
                  "203.0.113.7" (start ∅))).
  split; [reflexivity|].
  eexists. split; [reflexivity|]. split; [vm_compute; discriminate | reflexivity].
Defined.

(** X12.  Without a secret or without an endpoint neither version of the
    verifier touches the network: it returns [false] with the error
    [turnstile not configured] and leaves the state as it was. *)
Theorem verifier_not_configured (env : Env) (c : config.CFTurnConfig)
    (token ip : string) (s : State) :
  config.Secret c = "" \/ config.Endpoint c = "" ->
  turnstile.VerifyTurnstile env c token ip s
  = Ok (false, Some "turnstile not configured") s
  /\ turnstile.VerifyTurnstile_form env c token ip s
     = Ok (false, Some "turnstile not configured") s.
Proof.
  intros H.
  assert (Hc : String.eqb (config.Secret c) "" || String.eqb (config.Endpoint c) "" = true).
  { destruct H as [-> | ->]; [done|]. by rewrite orb_true_r. }
  unfold_verifier. by rewrite Hc.
Qed.

(** [verifier_not_configured] on sample data. *)
Lemma verifier_not_configured_witness :
  turnstile.VerifyTurnstile env_accept (config.CFTurn sample_cfg_no_secret) "tok"
    "203.0.113.7" (start ∅)
  = Ok (false, Some "turnstile not configured") (start ∅).
Proof.
  apply (proj1 (verifier_not_configured env_accept (config.CFTurn sample_cfg_no_secret)
                  "tok" "203.0.113.7" (start ∅) (or_introl eq_refl))).
Defined.

(** Every byte of an escaped string is unreserved, or a plus sign, or belongs
    to a percent escape: a percent sign or an upper-case hexadecimal digit. *)
Lemma QueryEscape_bytes (s : string) :
  Forall (fun ch => url.unreserved ch = true \/ ch = "+"%char \/ ch = "%"%char)
    (list_ascii_of_string (url.QueryEscape s)).
Proof.
  assert (Hhex : forall n, (n < 16)%N -> url.unreserved (url.upper_hex n) = true).
  { intros n Hn. rewrite <- (N2Nat.id n).
    assert (Hm : (N.to_nat n < 16)%nat) by lia.
    revert Hm. generalize (N.to_nat n). intros m Hm.
    do 16 (destruct m as [|m]; [reflexivity|]). lia. }
  induction s as [|ch r IH]; cbn [url.QueryEscape]; [constructor|].
  destruct (url.unreserved ch) eqn:Hu; [|destruct (Ascii.eqb ch SP)];
    cbn [list_ascii_of_string].
  - constructor; [by left | exact IH].
  - constructor; [by right; left | exact IH].
  - assert (Hb : (byte_val ch < 256)%N) by apply N_ascii_bounded.
    constructor; [by right; right|].
    constructor; [left; apply Hhex; apply N.Div0.div_lt_upper_bound; lia|].
    constructor; [left; apply Hhex; apply N.mod_lt; lia | exact IH].
Qed.

(** X13.  The version of the verifier that posts a form escapes the whole
    body at once, separators included: the body that it posts holds no [=]
    and no [&], so it is one field name without a value, whatever the
    secret, the token and the address are. *)
Theorem form_body_has_no_separators (env : Env) (c : config.CFTurnConfig)
    (token ip : string) (s : State) :
  configured c = true ->
  exists res body,
    turnstile.VerifyTurnstile_form env c token ip s
    = Ok res (logged s [EvPost (config.Endpoint c) "application/x-www-form-urlencoded" body])
    /\ Forall (fun ch => ch <> "="%char /\ ch <> "&"%char) (list_ascii_of_string body).
Proof.
  intros Hc. unfold configured in Hc. apply negb_true_iff in Hc.
  unfold_verifier. rewrite Hc. reduce_state.
  match goal with
  | |- context [http_Post env ?u ?ct ?b] =>
      assert (Hb : Forall (fun ch => ch <> "="%char /\ ch <> "&"%char) (list_ascii_of_string b))
  end.
  { eapply Forall_impl; [apply QueryEscape_bytes|].
    intros ch [Hu | [-> | ->]]; [|done..].
    split; intros ->; discriminate Hu. }
  destruct (http_Post env _ _ _) as [resp|e]; [destruct (json_Decode_success env _)|];
    eexists _, _; (split; [reflexivity | exact Hb]).
Qed.

(** [form_body_has_no_separators] on sample data. *)
Lemma form_body_has_no_separators_witness :
  exists res body,
    turnstile.VerifyTurnstile_form env_accept (config.CFTurn sample_cfg) "tok"
      "203.0.113.7" (start ∅)
    = Ok res (logged (start ∅)
                [EvPost (config.Endpoint (config.CFTurn sample_cfg))
                   "application/x-www-form-urlencoded" body])
    /\ Forall (fun ch => ch <> "="%char /\ ch <> "&"%char) (list_ascii_of_string body).
Proof.
  apply (form_body_has_no_separators env_accept (config.CFTurn sample_cfg) "tok"
           "203.0.113.7" (start ∅)).
  reflexivity.
Defined.

(** ** The User-Agent filter *)

Lemma ToLower_append (a b : string) :
  strings.ToLower (a +:+ b) = strings.ToLower a +:+ strings.ToLower b.
Proof.
  induction a as [|c a IH]; simpl; [done|].
  by rewrite IH.
Qed.

Lemma ToLower_append_inv (s a b : string) :
  strings.ToLower s = a +:+ b ->
  exists s1 s2, s = s1 +:+ s2 /\ strings.ToLower s1 = a /\ strings.ToLower s2 = b.
Proof.
  revert s. induction a as [|c a IH]; intros s H.
  - by exists "", s.
  - destruct s as [|d s]; [discriminate H|]. cbn in H. injection H as Hc H.
    destruct (IH s H) as (s1 & s2 & -> & H1 & H2).
    exists (String d s1), s2. cbn. by rewrite Hc, H1.
Qed.

Lemma prefix_append (a b : string) : String.prefix a (a +:+ b) = true.
Proof.
  induction a as [|c a IH]; simpl; [by destruct b|].
  by destruct (ascii_dec c c).
Qed.

Lemma prefix_inv (a s : string) :
  String.prefix a s = true -> exists q, s = a +:+ q.
Proof.
  revert s. induction a as [|c a IH]; intros s H.
  - by exists s.
  - destruct s as [|d s]; [discriminate H|]. simpl in H.
    destruct (ascii_dec c d) as [->|]; [|discriminate H].
    destruct (IH s H) as [q ->]. by exists q.
Qed.

Lemma Contains_unfold (s sub : string) :
  strings.Contains s sub
  = String.prefix sub s
    || match s with
       | EmptyString => false
       | String _ r => strings.Contains r sub
       end.
Proof. by destruct s. Qed.

(** [strings.Contains] holds exactly of the strings that have the substring
    somewhere. *)
Lemma Contains_iff (s sub : string) :
  strings.Contains s sub = true <-> exists p q, s = p +:+ sub +:+ q.
Proof.
  split.
  - induction s as [|c s IH]; rewrite Contains_unfold; intros H;
      apply orb_true_iff in H as [H|H]; try discriminate H.
    + apply prefix_inv in H as [q ->]. by exists "", q.
    + apply prefix_inv in H as [q ->]. by exists "", q.
    + destruct (IH H) as (p & q & ->). by exists (String c p), q.
  - intros (p & q & ->). induction p as [|c p IH]; rewrite Contains_unfold.
    + change ("" +:+ sub +:+ q) with (sub +:+ q). by rewrite prefix_append.
    + change (String c p +:+ sub +:+ q) with (String c (p +:+ sub +:+ q)).
      cbv beta iota. by rewrite IH, orb_true_r.
Qed.

(** X14.  The filter of bot agents.  When the blocking is on, an agent is
    refused exactly when it holds, somewhere and in any mix of upper and
    lower case, one of [curl/], [python-requests] and [bot]; when the
    blocking is off no agent is refused. *)
Theorem isFakeUA_iff (cfg : config.Config) (ua : string) :
  isFakeUA cfg ua = true
  <-> config.BlockBotUserAgents (config.Options cfg) = true
      /\ exists p w q,
           ua = p +:+ w +:+ q
           /\ (strings.ToLower w = "curl/" \/ strings.ToLower w = "python-requests"
               \/ strings.ToLower w = "bot").
Proof.
  unfold isFakeUA. destruct (config.BlockBotUserAgents _); cbn [negb].
  2:{ split; [done | by intros [[=] _]]. }
  assert (Hword : forall d, strings.Contains (strings.ToLower ua) d = true
                    <-> exists p w q, ua = p +:+ w +:+ q /\ strings.ToLower w = d).
  { intros d. rewrite Contains_iff. split.
    - intros (p' & q' & H).
      apply ToLower_append_inv in H as (p & s2 & -> & _ & H).
      apply ToLower_append_inv in H as (w & q & -> & Hw & _).
      by exists p, w, q.
    - intros (p & w & q & -> & Hw).
      exists (strings.ToLower p), (strings.ToLower q).
      by rewrite !ToLower_append, Hw. }
  split.
  - intros H. split; [done|].
    destruct (strings.Contains _ "curl/") eqn:H1.
    { apply Hword in H1 as (p & w & q & ? & ?). exists p, w, q. auto. }
    destruct (strings.Contains _ "python-requests") eqn:H2.
    { apply Hword in H2 as (p & w & q & ? & ?). exists p, w, q. auto. }
    destruct (strings.Contains _ "bot") eqn:H3; [|done].
    apply Hword in H3 as (p & w & q & ? & ?). exists p, w, q. auto.
  - intros [_ (p & w & q & Hua & [Hw | [Hw | Hw]])].
    + assert (H : strings.Contains (strings.ToLower ua) "curl/" = true)
        by (apply Hword; eauto).
      by rewrite H.
    + assert (H : strings.Contains (strings.ToLower ua) "python-requests" = true)
        by (apply Hword; eauto).
      rewrite H. by rewrite orb_true_r.
    + assert (H : strings.Contains (strings.ToLower ua) "bot" = true)
        by (apply Hword; eauto).
      rewrite H. by rewrite orb_true_r.
Qed.

(** [isFakeUA_iff] on sample data. *)
Lemma isFakeUA_iff_witness :
  isFakeUA sample_cfg "Mozilla/5.0 (compatible; Googlebot/2.1)" = true.
Proof.
  apply (proj2 (isFakeUA_iff sample_cfg "Mozilla/5.0 (compatible; Googlebot/2.1)")).
  split; [reflexivity|].
  exists "Mozilla/5.0 (compatible; Google", "bot", "/2.1)".
  split; [reflexivity|]. right. right. reflexivity.
Defined.

(** ** The Content-Length guard *)

(** X15.  The middleware stops a request, so that the run evaluates no other
    guard, exactly when the limit is not negative and the declared length is
    above it.  A request that declares no length (the length is then -1) and
    a server with a negative limit are never stopped by it. *)
Theorem length_guard_iff (cfg : config.Config) (env : Env)
    (r : http.Request) (t : gmap string rateInfo) :
  let s := final_state (serve cfg env r (start t)) in
  let max := config.MaxBodySize (config.Options cfg) in
  (stages (journal s) = [ContentLengthGuard] <-> 0 <= max < http.ContentLength r)
  /\ (http.ContentLength r = -1 \/ max < 0 -> MethodGuard ∈ stages (journal s)).
Proof.
  intros s max.
  assert (Hs : s = final_state (serve cfg env r (start t))) by reflexivity.
  clearbody s. revert Hs. subst max.
  run_server; intros ->; reduce_state;
    match goal with
    | H : _ && _ && _ = _ |- _ =>
        first [ apply andb_true_iff in H as [H ?]; apply andb_true_iff in H as [? ?]
              | apply andb_false_iff in H as [H|H];
                [apply andb_false_iff in H as [H|H]|] ]
    end;
    repeat match goal with
      | H : negb _ = true |- _ => apply negb_true_iff in H
      | H : negb _ = false |- _ => apply negb_false_iff in H
      | H : (_ <=? _) = true |- _ => apply Z.leb_le in H
      | H : (_ <=? _) = false |- _ => apply Z.leb_gt in H
      | H : (_ <? _) = true |- _ => apply Z.ltb_lt in H
      | H : (_ <? _) = false |- _ => apply Z.ltb_ge in H
      | H : (_ =? _) = true |- _ => apply Z.eqb_eq in H
      | H : (_ =? _) = false |- _ => apply Z.eqb_neq in H
      end;
    (split; [split; [first [done | intros [=] | lia] | first [done | lia]]|]);
    first [ intros _; apply elem_of_cons; right; apply elem_of_cons; by left | lia ].
Qed.

(** [length_guard_iff] on sample data. *)
Lemma length_guard_iff_witness :
  MethodGuard ∈ stages (journal (final_state
       (serve sample_cfg env_accept (sample_request "POST" (-1) sample_body) (start ∅)))).
Proof.
  apply (proj2 (length_guard_iff sample_cfg env_accept
                  (sample_request "POST" (-1) sample_body) ∅)).
  left. reflexivity.
Defined.

(** ** The sanitizer: what its result never holds *)

Lemma rev_is_reverse {A} (l : list A) : rev l = reverse l.
Proof. unfold reverse. apply rev_alt. Qed.

Lemma bytes_append (a b : string) :
  list_ascii_of_string (a +:+ b) = list_ascii_of_string a ++ list_ascii_of_string b.
Proof.
  induction a as [|c a IH]; [done|].
  change (String c a +:+ b) with (String c (a +:+ b)).
  cbn [list_ascii_of_string]. by rewrite IH.
Qed.

Lemma trim_front_drop (space : list ascii -> nat) (fuel : nat) (l : list ascii) :
  exists k, strings.trim_front space fuel l = drop k l.
Proof.
  revert l. induction fuel as [|fuel IH]; intros l; cbn [strings.trim_front].
  - by exists 0%nat.
  - destruct (space l) as [|n]; [by exists 0%nat|].
    destruct (IH (drop (S n) l)) as [k ->]. exists (S n + k)%nat.
    by rewrite drop_drop.
Qed.

(** What [TrimSpace] returns is a segment of its argument. *)
Lemma TrimSpace_segment (s : string) :
  exists k m,
    list_ascii_of_string (strings.TrimSpace s) = take m (drop k (list_ascii_of_string s)).
Proof.
  unfold strings.TrimSpace. rewrite list_ascii_of_string_of_list_ascii.
  destruct (trim_front_drop strings.space_len
              (length (list_ascii_of_string s)) (list_ascii_of_string s)) as [k ->].
  set (l1 := drop k (list_ascii_of_string s)).
  destruct (trim_front_drop strings.space_len_rev (length l1) (rev l1)) as [k2 ->].
  exists k, (length l1 - k2)%nat.
  by rewrite !rev_is_reverse, drop_reverse, reverse_involutive.
Qed.

Lemma existsb_sublist {A} (p : A -> bool) (l1 l2 : list A) :
  l1 `sublist_of` l2 -> existsb p l1 = true -> existsb p l2 = true.
Proof.
  induction 1 as [|x l1 l2 _ IH|x l1 l2 _ IH]; cbn; [done| |].
  - intros H. apply orb_true_iff in H as [->|H]; [done|]. by rewrite IH, orb_true_r.
  - intros H. by rewrite IH, orb_true_r.
Qed.

Lemma tag_in_sublist (l1 l2 : list ascii) :
  l1 `sublist_of` l2 -> tag_in l1 = true -> tag_in l2 = true.
Proof.
  induction 1 as [|x l1 l2 Hsub IH|x l1 l2 _ IH]; cbn; [done| |].
  - intros H. apply orb_true_iff in H as [H|H].
    + apply andb_true_iff in H as [-> H]. by rewrite (existsb_sublist _ _ _ Hsub H).
    + by rewrite IH, orb_true_r.
  - intros H. by rewrite IH, orb_true_r.
Qed.

Lemma has_gt_bytes (s : string) :
  regexp.has_gt s = existsb regexp.is_gt (list_ascii_of_string s).
Proof. induction s as [|c s IH]; cbn; [done|]. by rewrite IH. Qed.

Lemma reHTML_MatchString_bytes (s : string) :
  regexp.reHTML_MatchString s = tag_in (list_ascii_of_string s).
Proof. induction s as [|c s IH]; cbn; [done|]. by rewrite IH, has_gt_bytes. Qed.

Lemma reCtrl_MatchString_bytes (s : string) :
  regexp.reCtrl_MatchString s = existsb regexp.is_ctrl (list_ascii_of_string s).
Proof. induction s as [|c s IH]; cbn; [done|]. by rewrite IH. Qed.

Lemma reURL_scan_sublist (inside : bool) (s : string) :
  list_ascii_of_string (regexp.reURL_scan inside s) `sublist_of` list_ascii_of_string s.
Proof.
  revert inside. induction s as [|c s IH]; intros inside; [constructor|].
  cbn [regexp.reURL_scan].
  destruct inside.
  - destruct (regexp.nonspace c); cbn [list_ascii_of_string].
    + by apply sublist_cons.
    + by apply sublist_skip.
  - destruct (regexp.url_here (String c s)); cbn [list_ascii_of_string].
    + by apply sublist_cons.
    + by apply sublist_skip.
Qed.

Lemma ctrl_is_no_bracket (c : ascii) :
  regexp.is_ctrl c = true -> regexp.is_lt c = false /\ regexp.is_gt c = false.
Proof.
  intros H. unfold regexp.is_lt, regexp.is_gt. split.
  - destruct (Ascii.eqb_spec c "<") as [->|]; [discriminate H | done].
  - destruct (Ascii.eqb_spec c ">") as [->|]; [discriminate H | done].
Qed.

Lemma reCtrl_bytes (s : string) :
  list_ascii_of_string (regexp.reCtrl_ReplaceAllString s)
  = map (fun c => if regexp.is_ctrl c then SP else c) (list_ascii_of_string s).
Proof. induction s as [|c s IH]; cbn; [done|]. by rewrite IH. Qed.

Lemma tag_in_reCtrl (l : list ascii) :
  tag_in (map (fun c => if regexp.is_ctrl c then SP else c) l) = tag_in l.
Proof.
  assert (Hgt : forall l, existsb regexp.is_gt
                            (map (fun c => if regexp.is_ctrl c then SP else c) l)
                          = existsb regexp.is_gt l).
  { clear l. induction l as [|c l IH]; cbn; [done|]. rewrite IH. f_equal.
    destruct (regexp.is_ctrl c) eqn:E; [|done].
    by destruct (ctrl_is_no_bracket c E) as [_ ->]. }
  induction l as [|c l IH]; cbn; [done|]. rewrite IH, Hgt. f_equal. f_equal.
  destruct (regexp.is_ctrl c) eqn:E; [|done].
  by destruct (ctrl_is_no_bracket c E) as [-> _].
Qed.

(** X16.  Whatever the value of a field is, the text that the table shows for
    it has no match of the tag pattern left: no [<] of the text has a [>]
    after it. *)
Theorem sanitize_has_no_tag (v : value) :
  regexp.reHTML_MatchString (mail.sanitize v) = false.
Proof.
  destruct (regexp.reHTML_MatchString (mail.sanitize v)) eqn:H; [|done].
  exfalso. rewrite reHTML_MatchString_bytes in H. unfold mail.sanitize in H.
  destruct (TrimSpace_segment
              (regexp.reCtrl_ReplaceAllString
                 (regexp.reURL_ReplaceAllString
                    (regexp.reHTML_ReplaceAllString (mail.render v))))) as (k & m & E).
  rewrite E in H.
  apply (tag_in_sublist _ _ (sublist_take _ _)) in H.
  apply (tag_in_sublist _ _ (sublist_drop _ _)) in H.
  rewrite reCtrl_bytes, tag_in_reCtrl in H.
  apply (tag_in_sublist _ _ (reURL_scan_sublist false _)) in H.
  rewrite <- reHTML_MatchString_bytes, reHTML_ReplaceAllString_clean in H.
  discriminate H.
Qed.

(** X17.  Whatever the value of a field is, the text that the table shows for
    it holds no control byte of the class 0x00-0x09, 0x0B, 0x0C,
    0x0E-0x1F. *)
Theorem sanitize_has_no_control_byte (v : value) :
  regexp.reCtrl_MatchString (mail.sanitize v) = false.
Proof.
  rewrite reCtrl_MatchString_bytes. unfold mail.sanitize.
  destruct (TrimSpace_segment
              (regexp.reCtrl_ReplaceAllString
                 (regexp.reURL_ReplaceAllString
                    (regexp.reHTML_ReplaceAllString (mail.render v))))) as (k & m & ->).
  pose proof (reCtrl_ReplaceAllString_clean
                (regexp.reURL_ReplaceAllString
                   (regexp.reHTML_ReplaceAllString (mail.render v)))) as H.
  rewrite reCtrl_MatchString_bytes in H.
  destruct (existsb regexp.is_ctrl (take m (drop k _))) eqn:E; [|done].
  apply (existsb_sublist _ _ _ (sublist_take _ _)) in E.
  apply (existsb_sublist _ _ _ (sublist_drop _ _)) in E.
  congruence.
Qed.

(** ** The sanitizer on strings *)

Lemma between_spec (lo hi : N) (c : ascii) :
  between lo hi c = true <-> (lo <= byte_val c <= hi)%N.
Proof. unfold between. rewrite andb_true_iff, !N.leb_le. done. Qed.

Lemma byte_val_inj (c d : ascii) : byte_val c = byte_val d -> c = d.
Proof.
  unfold byte_val. intros H.
  by rewrite <- (ascii_N_embedding c), <- (ascii_N_embedding d), H.
Qed.

Lemma high_inert (c : ascii) : high c = true -> inert c = true.
Proof.
  unfold high, inert. rewrite N.leb_le. intros H.
  assert (Hlt : regexp.is_lt c = false).
  { unfold regexp.is_lt. destruct (Ascii.eqb_spec c "<") as [->|]; [|done].
    vm_compute in H. by destruct H. }
  assert (Hgt : regexp.is_gt c = false).
  { unfold regexp.is_gt. destruct (Ascii.eqb_spec c ">") as [->|]; [|done].
    vm_compute in H. by destruct H. }
  assert (Hc : regexp.is_ctrl c = false).
  { unfold regexp.is_ctrl.
    destruct (between 0 9 c) eqn:E1; [apply between_spec in E1; lia|].
    destruct (between 11 12 c) eqn:E2; [apply between_spec in E2; lia|].
    destruct (between 14 31 c) eqn:E3; [apply between_spec in E3; lia|]. done. }
  by rewrite Hlt, Hgt, Hc.
Qed.

(** The bytes after the first one of a rune of several bytes, and that first
    byte, are all at or above 0x80. *)
Lemma DecodeRune_size_high (c : ascii) (r : list ascii) (n : nat) :
  utf8.DecodeRune_size (c :: r) = Some n ->
  n = 1%nat \/ (high c = true /\ Forall (fun d => high d = true) (take (n - 1) r)).
Proof.
  unfold utf8.DecodeRune_size, utf8.cont, high.
  destruct (between 0 127 c) eqn:E0; [intros [= <-]; by left|].
  assert (Hc : (128 <=? byte_val c)%N = true).
  { apply N.leb_le. destruct (N.le_gt_cases 128 (byte_val c)) as [|Hlt]; [done|].
    assert (between 0 127 c = true) by (apply between_spec; lia). congruence. }
  assert (Hb : forall lo hi d, (128 <= lo)%N -> between lo hi d = true ->
                 (128 <=? byte_val d)%N = true).
  { intros lo hi d Hlo Hd. apply between_spec in Hd. apply N.leb_le. lia. }
  destruct (between 194 223 c).
  { destruct r as [|c1 r]; [done|]. destruct (between 128 191 c1) eqn:E1; [|done].
    intros [= <-]. right. split; [done|]. cbn. repeat constructor. by eapply Hb. }
  destruct (between 224 239 c).
  { destruct r as [|c1 [|c2 r]]; [done..|].
    destruct (between _ _ c1) eqn:E1; [|done].
    destruct (between 128 191 c2) eqn:E2; [|done].
    intros [= <-]. right. split; [done|]. cbn. repeat constructor.
    - eapply (Hb _ _ c1); [|exact E1]. by destruct (_ =? _)%N.
    - by eapply Hb. }
  destruct (between 240 244 c); [|done].
  destruct r as [|c1 [|c2 [|c3 r]]]; [done..|].
  destruct (between _ _ c1) eqn:E1; [|done].
  destruct (between 128 191 c2) eqn:E2; [|done].
  destruct (between 128 191 c3) eqn:E3; [|done].
  intros [= <-]. right. split; [done|]. cbn. repeat constructor.
  - eapply (Hb _ _ c1); [|exact E1]. by destruct (_ =? _)%N.
  - by eapply Hb.
  - by eapply Hb.
Qed.

Lemma hex_digit_inert (n : N) : (n < 16)%N -> inert (json.hex_digit n) = true.
Proof.
  intros Hn. rewrite <- (N2Nat.id n).
  assert (Hm : (N.to_nat n < 16)%nat) by lia.
  revert Hm. generalize (N.to_nat n). intros m Hm.
  do 16 (destruct m as [|m]; [reflexivity|]). lia.
Qed.

Lemma escape_ascii_inert (c : ascii) :
  Forall (fun d => inert d = true) (list_ascii_of_string (json.escape_ascii c)).
Proof.
  assert (Hb : (byte_val c < 256)%N) by apply N_ascii_bounded.
  unfold json.escape_ascii.
  destruct (Ascii.eqb c backslash || Ascii.eqb c dquote) eqn:E1.
  { apply orb_true_iff in E1 as [E|E]; apply Ascii.eqb_eq in E; subst c;
      by repeat constructor. }
  repeat match goal with
    | |- context [if Ascii.eqb c ?x then _ else _] =>
        destruct (Ascii.eqb c x); [by repeat constructor|]
    end.
  destruct (between 0 31 c || _ || _ || _) eqn:E2.
  - unfold json.u00. cbn [list_ascii_of_string str1].
    repeat (constructor; [first [reflexivity | apply hex_digit_inert]|]);
      [apply N.Div0.div_lt_upper_bound; lia | apply N.mod_lt; lia | constructor].
  - repeat (apply orb_false_iff in E2 as [E2 ?]).
    cbn. repeat constructor. unfold inert, regexp.is_lt, regexp.is_gt.
    replace (Ascii.eqb c "<") with false by done.
    replace (Ascii.eqb c ">") with false by done.
    unfold regexp.is_ctrl.
    destruct (between 0 9 c) eqn:F1.
    { apply between_spec in F1. assert (between 0 31 c = true) by (apply between_spec; lia).
      congruence. }
    destruct (between 11 12 c) eqn:F2.
    { apply between_spec in F2. assert (between 0 31 c = true) by (apply between_spec; lia).
      congruence. }
    destruct (between 14 31 c) eqn:F3; [|done].
    apply between_spec in F3. assert (between 0 31 c = true) by (apply between_spec; lia).
    congruence.
Qed.

Lemma escape_bytes_inert (l : list ascii) (copy skip : nat) :
  Forall (fun d => high d = true) (take copy l) ->
  Forall (fun d => inert d = true) (list_ascii_of_string (json.escape_bytes copy skip l)).
Proof.
  revert copy skip. induction l as [|c r IH]; intros copy skip Hcopy; [constructor|].
  cbn [json.escape_bytes]. destruct copy as [|n].
  2:{ cbn [take] in Hcopy. apply Forall_cons in Hcopy as [Hc Hr].
      cbn [list_ascii_of_string]. constructor; [by apply high_inert | by apply IH]. }
  destruct skip as [|n]; [|apply IH; constructor].
  destruct (utf8.DecodeRune_size (c :: r)) as [n|] eqn:Hd.
  2:{ rewrite bytes_append. apply Forall_app. split; [by repeat constructor|].
      apply IH. constructor. }
  destruct (DecodeRune_size_high c r n Hd) as [-> | [Hc Hr]].
  { rewrite bytes_append. apply Forall_app. split; [apply escape_ascii_inert|].
    apply IH. constructor. }
  assert (Hplain : Forall (fun d => inert d = true)
                     (list_ascii_of_string (String c (json.escape_bytes (n - 1) 0 r)))).
  { cbn [list_ascii_of_string]. constructor; [by apply high_inert | by apply IH]. }
  assert (Hrune :
    Forall (fun d => inert d = true)
      (list_ascii_of_string
         match c :: r with
         | c0 :: c1 :: c2 :: _ =>
             if (byte_val c0 =? 226)%N && (byte_val c1 =? 128)%N && between 168 169 c2
             then String backslash (String "u" (String "2" (String "0" (String "2"
                    (str1 (json.hex_digit (byte_val c2 mod 16)))))))
                  +:+ json.escape_bytes 0 2 r
             else String c (json.escape_bytes (n - 1) 0 r)
         | _ => String c (json.escape_bytes (n - 1) 0 r)
         end)).
  { destruct r as [|c1 [|c2 r']]; [exact Hplain..|].
    destruct (_ && _ && _); [|exact Hplain].
    rewrite bytes_append. apply Forall_app. split; [|apply IH; constructor].
    cbn [list_ascii_of_string str1].
    repeat (constructor; [first [reflexivity | apply hex_digit_inert]|]);
      [apply N.mod_lt; lia | constructor]. }
  destruct n as [|[|n]]; [exact Hrune| |exact Hrune].
  rewrite bytes_append. apply Forall_app. split; [apply escape_ascii_inert|].
  apply IH. constructor.
Qed.

Lemma quote_inert (s : string) :
  Forall (fun d => inert d = true) (list_ascii_of_string (json.quote s)).
Proof.
  unfold json.quote. cbn [list_ascii_of_string]. constructor; [reflexivity|].
  rewrite bytes_append. apply Forall_app. split; [|by repeat constructor].
  apply escape_bytes_inert. constructor.
Qed.

Lemma inert_parts (c : ascii) :
  inert c = true ->
  regexp.is_lt c = false /\ regexp.is_gt c = false /\ regexp.is_ctrl c = false.
Proof.
  unfold inert. intros H. apply negb_true_iff in H.
  apply orb_false_iff in H as [H ?]. by apply orb_false_iff in H as [? ?].
Qed.

Lemma reHTML_inert (s : string) :
  Forall (fun d => inert d = true) (list_ascii_of_string s) ->
  regexp.reHTML_ReplaceAllString s = s.
Proof.
  unfold regexp.reHTML_ReplaceAllString.
  induction s as [|c s IH]; intros H; [done|].
  cbn [list_ascii_of_string] in H. apply Forall_cons in H as [Hc Hs].
  destruct (inert_parts c Hc) as (Hlt & _ & _).
  cbn [regexp.reHTML_scan]. rewrite Hlt. cbn [andb]. by rewrite IH.
Qed.

Lemma reCtrl_inert (s : string) :
  Forall (fun d => inert d = true) (list_ascii_of_string s) ->
  regexp.reCtrl_ReplaceAllString s = s.
Proof.
  induction s as [|c s IH]; intros H; [done|].
  cbn [list_ascii_of_string] in H. apply Forall_cons in H as [Hc Hs].
  destruct (inert_parts c Hc) as (_ & _ & Hctrl).
  cbn [regexp.reCtrl_ReplaceAllString]. by rewrite Hctrl, IH.
Qed.

(** X18.  On a string the replacement of tags and the replacement of control
    bytes change nothing: the JSON literal of a string has its angle brackets
    and its control bytes escaped already, so the text shown for a string is
    its JSON literal with the URLs deleted, trimmed.  A tag in a string is
    not deleted: it stays in the text in its escaped form. *)
Theorem sanitize_string (s : string) :
  mail.sanitize (VString s)
  = strings.TrimSpace (regexp.reURL_ReplaceAllString (json.quote s)).
Proof.
  unfold mail.sanitize. rewrite render_string.
  rewrite (reHTML_inert _ (quote_inert s)).
  rewrite reCtrl_inert; [done|].
  apply Forall_forall. intros c Hc.
  pose proof (quote_inert s) as H. rewrite Forall_forall in H. apply H.
  eapply sublist_subseteq; [apply (reURL_scan_sublist false)|exact Hc].
Qed.

(** ** Field names *)

(** X19.  The name of a field as the table shows it holds no angle bracket,
    and a name without angle brackets is shown as it is. *)
Theorem escapeKey_has_no_bracket (k : string) :
  Forall (fun c => c <> "<"%char /\ c <> ">"%char)
    (list_ascii_of_string (mail.escapeKey k))
  /\ (Forall (fun c => c <> "<"%char /\ c <> ">"%char) (list_ascii_of_string k) ->
      mail.escapeKey k = k).
Proof.
  unfold mail.escapeKey. split.
  - induction k as [|c k IH]; [constructor|].
    cbn [strings.ReplaceAll].
    destruct (Ascii.eqb_spec c "<") as [->|Hlt].
    { change ("&lt;" +:+ ?x) with (String "&" (String "l" (String "t" (String ";" x)))).
      cbn [strings.ReplaceAll list_ascii_of_string Ascii.eqb Bool.eqb].
      repeat (constructor; [by split|]). exact IH. }
    cbn [strings.ReplaceAll].
    destruct (Ascii.eqb_spec c ">") as [->|Hgt].
    { change ("&gt;" +:+ ?x) with (String "&" (String "g" (String "t" (String ";" x)))).
      cbn [list_ascii_of_string]. repeat (constructor; [by split|]). exact IH. }
    cbn [list_ascii_of_string]. constructor; [by split | exact IH].
  - induction k as [|c k IH]; intros H; [done|].
    cbn [list_ascii_of_string] in H. apply Forall_cons in H as [[Hlt Hgt] Hk].
    cbn [strings.ReplaceAll].
    destruct (Ascii.eqb_spec c "<"); [done|]. cbn [strings.ReplaceAll].
    destruct (Ascii.eqb_spec c ">"); [done|]. by rewrite IH.
Qed.

(** [escapeKey_has_no_bracket] on sample data. *)
Lemma escapeKey_has_no_bracket_witness : mail.escapeKey "name" = "name".
Proof.
  apply (proj2 (escapeKey_has_no_bracket "name")).
  repeat constructor; discriminate.
Defined.

(** ** The rows of the table *)

Lemma ascii_compare_le_trans (a b c : ascii) :
  Ascii.compare a b <> Gt -> Ascii.compare b c <> Gt -> Ascii.compare a c <> Gt.
Proof.
  unfold Ascii.compare. rewrite !N.compare_le_iff. lia.
Qed.

Lemma string_compare_le_trans (a b c : string) :
  String.compare a b <> Gt -> String.compare b c <> Gt -> String.compare a c <> Gt.
Proof.
  revert b c. induction a as [|x a IH]; intros [|y b] [|z c]; cbn; try done.
  destruct (Ascii.compare x y) eqn:Exy; [| |done];
    destruct (Ascii.compare y z) eqn:Eyz; try done.
  - apply Ascii.compare_eq_iff in Exy, Eyz. subst.
    assert (E : Ascii.compare z z = Eq) by apply N.compare_refl.
    rewrite E. apply IH.
  - apply Ascii.compare_eq_iff in Exy. subst. by rewrite Eyz.
  - apply Ascii.compare_eq_iff in Eyz. subst. by rewrite Exy.
  - intros _ _. unfold Ascii.compare in *.
    rewrite N.compare_lt_iff in Exy, Eyz.
    assert (E : (N_of_ascii x ?= N_of_ascii z)%N = Lt) by (apply N.compare_lt_iff; lia).
    by rewrite E.
Qed.

Lemma leb_not_gt (a b : string) : String.leb a b = true <-> String.compare a b <> Gt.
Proof. unfold String.leb. by destruct (String.compare a b). Qed.

Lemma key_le_trans {A} : Transitive (@key_le A).
Proof.
  intros x y z. unfold key_le. rewrite !leb_not_gt. apply string_compare_le_trans.
Qed.

Lemma key_le_antisym : AntiSymm eq (@key_le unit).
Proof.
  intros [k1 []] [k2 []]. unfold key_le. cbn. intros H1 H2.
  by rewrite (String.leb_antisym _ _ H1 H2).
Qed.

Lemma ltb_false_leb (a b : string) : String.ltb a b = false -> String.leb b a = true.
Proof.
  unfold String.ltb, String.leb. rewrite (String.compare_antisym b a).
  by destruct (String.compare a b).
Qed.

Lemma ltb_true_leb (a b : string) : String.ltb a b = true -> String.leb a b = true.
Proof. unfold String.ltb, String.leb. by destruct (String.compare a b). Qed.

Lemma insert_key_perm {A} (k : string) (a : A) (l : list (string * A)) :
  sort.insert_key k a l ≡ₚ (k, a) :: l.
Proof.
  induction l as [|[k' a'] l IH]; cbn; [done|].
  destruct (String.ltb k k'); [done|]. rewrite IH. apply Permutation_swap.
Qed.

Lemma insert_key_sorted {A} (k : string) (a : A) (l : list (string * A)) :
  Sorted key_le l -> Sorted key_le (sort.insert_key k a l).
Proof.
  induction 1 as [|[k' a'] l Hs IH Hd]; cbn; [by repeat constructor|].
  destruct (String.ltb k k') eqn:E.
  - constructor; [by constructor|]. constructor. by apply ltb_true_leb.
  - constructor; [exact IH|].
    destruct l as [|[k'' a''] l]; cbn.
    + constructor. by apply ltb_false_leb.
    + destruct (String.ltb k k''); constructor.
      * by apply ltb_false_leb.
      * by inversion Hd.
Qed.

Lemma by_key_perm {A} (l : list (string * A)) : sort.by_key l ≡ₚ l.
Proof.
  unfold sort.by_key. induction l as [|[k a] l IH]; cbn; [done|].
  by rewrite insert_key_perm, IH.
Qed.

Lemma by_key_sorted {A} (l : list (string * A)) : Sorted key_le (sort.by_key l).
Proof.
  unfold sort.by_key. induction l as [|[k a] l IH]; cbn; [constructor|].
  by apply insert_key_sorted.
Qed.

(** [sort.Strings] gives the same list for every order of its argument. *)
Lemma Strings_perm (l1 l2 : list string) :
  l1 ≡ₚ l2 -> sort.Strings l1 = sort.Strings l2.
Proof.
  intros H. unfold sort.Strings. f_equal.
  apply (@Sorted_unique _ key_le key_le_trans key_le_antisym); [apply by_key_sorted..|].
  by rewrite !by_key_perm, H.
Qed.

(** X20.  The table does not depend on the order in which the range over the
    payload yields the keys: the rows are those of the keys in increasing
    byte order, one row for each key of the payload. *)
Theorem table_rows_sorted (ranged : list string) (payload : gmap string value) :
  ranged ≡ₚ (map_to_list payload).*1 ->
  formatPayloadAsTable_ranged ranged payload = mail.formatPayloadAsTable payload
  /\ Sorted (fun a b => String.leb a b = true) (sort.Strings ranged)
  /\ sort.Strings ranged ≡ₚ ranged.
Proof.
  intros H. split; [|split].
  - unfold formatPayloadAsTable_ranged, mail.formatPayloadAsTable.
    by rewrite (Strings_perm _ _ H).
  - unfold sort.Strings.
    pose proof (by_key_sorted (map (fun k => (k, tt)) ranged)) as Hs.
    induction Hs as [|e l Hs IH Hd]; cbn; [constructor|].
    constructor; [exact IH|]. destruct Hd as [|e' l' Hd]; cbn; by constructor.
  - unfold sort.Strings. rewrite by_key_perm.
    rewrite <- list_fmap_compose. by rewrite list_fmap_id.
Qed.

Lemma table_rows_sorted_witness :
  formatPayloadAsTable_ranged ["name"; "email"]
    {[ "name" := VString "Alice"; "email" := VString "a@example.com" ]}
  = formatPayloadAsTable_ranged ["email"; "name"]
      {[ "name" := VString "Alice"; "email" := VString "a@example.com" ]}.
Proof.
  assert (H1 : ["name"; "email"]
               ≡ₚ (map_to_list
                     ({[ "name" := VString "Alice"; "email" := VString "a@example.com" ]}
                      : gmap string value)).*1).
  { vm_compute. first [reflexivity | apply Permutation_swap]. }
  assert (H2 : ["email"; "name"]
               ≡ₚ (map_to_list
                     ({[ "name" := VString "Alice"; "email" := VString "a@example.com" ]}
                      : gmap string value)).*1).
  { vm_compute. first [reflexivity | apply Permutation_swap]. }
  rewrite (proj1 (table_rows_sorted _ _ H1)), (proj1 (table_rows_sorted _ _ H2)).
  reflexivity.
Defined.

(** ** LoadConfig *)

(** The secret is settled before the endpoint is defaulted. *)
Lemma Secret_endpoint_default (c : config.Config) :
  config.Secret (config.CFTurn
    (if String.eqb (config.Endpoint (config.CFTurn c)) ""
     then set_Endpoint c default_endpoint else c))
  = config.Secret (config.CFTurn c).
Proof. by destruct (String.eqb _ _). Qed.

Lemma slice_to_35 (s : string) :
  String.length s = 35%nat -> slice_to 5 s = Some (String.substring 0 5 s).
Proof. intros H. unfold slice_to. by rewrite H. Qed.

(** X21.  [LoadConfig] never panics: the slice of the first five bytes of the
    secret is only taken after the check that a secret which is not empty has
    35 bytes. *)
Theorem LoadConfig_never_panics (w : LoadWorld) (path : string) :
  LoadConfig w path <> LoadPanic.
Proof.
  unfold LoadConfig.
  destruct (os_ReadFile w path) as [b|e0]; [|done].
  destruct (json_Unmarshal_Config w b) as [c [e|]]; [done|].
  set (c1 := if config.MaxBodySize _ =? 0 then _ else _).
  set (p := match os_LookupEnv w _ with Some s => _ | None => _ end).
  destruct p as [ov c2]. clearbody c1.
  destruct (String.eqb (config.Secret (config.CFTurn c2)) "") eqn:Hs; cbn [negb andb].
  - destruct (url_Parse w _); [done|].
    rewrite Secret_endpoint_default, Hs. done.
  - destruct (String.length _ =? 35)%nat eqn:Hlen; cbn [negb]; [|done].
    destruct (url_Parse w _); [done|].
    rewrite Secret_endpoint_default, Hs.
    apply Nat.eqb_eq in Hlen. rewrite (slice_to_35 _ Hlen). done.
Qed.

(** A load that succeeds: what was read, and what was done to it. *)
Lemma LoadConfig_inv (w : LoadWorld) (path : string) (c : config.Config)
    (printed : list string) :
  LoadConfig w path = LoadReturn c None printed ->
  exists b c0,
    os_ReadFile w path = inl b
    /\ json_Unmarshal_Config w b = (c0, None)
    /\ c = with_defaults (os_LookupEnv w "WB_CF_TURN_SECRET") c0
    /\ (config.Secret (config.CFTurn c) = ""
        \/ String.length (config.Secret (config.CFTurn c)) = 35%nat)
    /\ url_Parse w (config.Endpoint (config.CFTurn c)) = None
    /\ (config.Secret (config.CFTurn c) = "" <-> printed = [disabled_line]).
Proof.
  unfold LoadConfig, with_defaults.
  destruct (os_ReadFile w path) as [b|e0] eqn:Hread; [|done].
  destruct (json_Unmarshal_Config w b) as [c0 [e|]] eqn:Hjson; [done|].
  intros H. exists b, c0. split; [done|]. split; [done|]. revert H.
  destruct (os_LookupEnv w _) as [s|]; cbv beta iota zeta.
  all: repeat (match goal with
         | |- context [if ?b then _ else _] =>
             lazymatch b with
             | context [if _ then _ else _] => fail
             | _ => destruct b eqn:?
             end
         end;
         cbn [config.Secret config.Endpoint config.CFTurn config.Options
              config.MaxBodySize config.CTAEndpoint
              set_Secret set_Endpoint set_MaxBodySize set_CTAEndpoint negb andb] in *).
  all: try done.
  all: repeat match goal with
         | |- context [match url_Parse ?w ?u with Some _ => _ | None => _ end] =>
             destruct (url_Parse w u) eqn:?
         end; try done.
  all: repeat match goal with
         | H : negb (String.eqb ?x "") && _ = false, H' : String.eqb ?x "" = false |- _ =>
             rewrite H' in H; cbn [negb andb] in H
         | H : negb (_ =? _)%nat = false |- _ => apply negb_false_iff, Nat.eqb_eq in H
         | H : (String.length ?x = 35)%nat |- context [slice_to 5 ?x] =>
             rewrite (slice_to_35 x H)
         end.
  all: intros [= <- <-].
  all: cbn [config.Secret config.Endpoint config.CFTurn config.Options
            set_Secret set_Endpoint set_MaxBodySize set_CTAEndpoint].
  all: split; [done|].
  all: repeat match goal with
         | H : String.eqb _ "" = true |- _ => apply String.eqb_eq in H
         | H : String.eqb _ "" = false |- _ => apply String.eqb_neq in H
         end.
  all: split; [first [by left | by right]|]; split; [done|].
  all: split; try done.
  all: intros H; exfalso; vm_compute in H; discriminate H.
Qed.

(** X22.  A configuration that [LoadConfig] returns without an error has a
    limit of the body that is not 0, a secret that is empty or has 35 bytes,
    an endpoint of the verifier that is not empty and that parsed, and a path
    of the submission endpoint that is not empty: the verifier is configured
    exactly when the secret is not empty. *)
Theorem LoadConfig_success (w : LoadWorld) (path : string) (c : config.Config)
    (printed : list string) :
  LoadConfig w path = LoadReturn c None printed ->
  config.MaxBodySize (config.Options c) <> 0
  /\ (config.Secret (config.CFTurn c) = ""
      \/ String.length (config.Secret (config.CFTurn c)) = 35%nat)
  /\ config.Endpoint (config.CFTurn c) <> ""
  /\ url_Parse w (config.Endpoint (config.CFTurn c)) = None
  /\ config.CTAEndpoint (config.Options c) <> ""
  /\ configured (config.CFTurn c) = negb (String.eqb (config.Secret (config.CFTurn c)) "").
Proof.
  intros H. destruct (LoadConfig_inv _ _ _ _ H) as (b & c0 & _ & _ & Hc & Hsec & Hurl & _).
  assert (Hend : config.Endpoint (config.CFTurn c) <> "").
  { rewrite Hc. unfold with_defaults.
    repeat match goal with
      | |- context [if ?b then _ else _] => destruct b eqn:?
      | |- context [match ?x with Some _ => _ | None => _ end] => destruct x
      end; cbn [config.Endpoint config.CFTurn set_Endpoint set_CTAEndpoint
                set_Secret set_MaxBodySize] in *;
      first [ done | by apply String.eqb_neq ]. }
  split.
  { rewrite Hc. unfold with_defaults.
    repeat match goal with
      | |- context [if ?b then _ else _] => destruct b eqn:?
      | |- context [match ?x with Some _ => _ | None => _ end] => destruct x
      end; cbn [config.MaxBodySize config.Options set_Endpoint set_CTAEndpoint
                set_Secret set_MaxBodySize] in *;
      first [ done | by apply Z.eqb_neq ]. }
  split; [done|]. split; [done|]. split; [done|]. split.
  { rewrite Hc. unfold with_defaults.
    repeat match goal with
      | |- context [if ?b then _ else _] => destruct b eqn:?
      | |- context [match ?x with Some _ => _ | None => _ end] => destruct x
      end; cbn [config.CTAEndpoint config.Options set_Endpoint set_CTAEndpoint
                set_Secret set_MaxBodySize] in *;
      first [ done | by apply String.eqb_neq ]. }
  unfold configured. apply String.eqb_neq in Hend. by rewrite Hend, orb_false_r.
Qed.

(** [LoadConfig_success] on sample data. *)
Lemma LoadConfig_success_witness :
  config.MaxBodySize (config.Options (with_defaults (Some "") sample_file_cfg)) <> 0.
Proof.
  apply (LoadConfig_success (sample_load_world (Some "")) "config.json"
           (with_defaults (Some "") sample_file_cfg) [disabled_line]).
  vm_compute. reflexivity.
Defined.

(** X23.  The variable [WB_CF_TURN_SECRET] of the environment replaces the
    secret of the file whenever it is set, also with an empty value; a value
    that is not empty and has not 35 bytes makes the load fail, whatever the
    secret of the file was. *)
Theorem env_secret_overrides (w : LoadWorld) (path b : string) (c0 : config.Config)
    (s : string) :
  os_ReadFile w path = inl b ->
  json_Unmarshal_Config w b = (c0, None) ->
  os_LookupEnv w "WB_CF_TURN_SECRET" = Some s ->
  exists c err printed,
    LoadConfig w path = LoadReturn c err printed
    /\ config.Secret (config.CFTurn c) = s
    /\ (s <> "" -> String.length s <> 35%nat ->
        err = Some "cfTurnstile.secret must be 35 characters long" /\ printed = [])
    /\ (s = "" -> err = None -> printed = [disabled_line]).
Proof.
  intros Hread Hjson Henv. unfold LoadConfig. rewrite Hread, Hjson, Henv.
  cbv beta iota zeta.
  repeat (match goal with
          | |- context [if ?b then _ else _] =>
              lazymatch b with
              | context [if _ then _ else _] => fail
              | _ => destruct b eqn:?
              end
          | |- context [match url_Parse ?w ?u with Some _ => _ | None => _ end] =>
              destruct (url_Parse w u) eqn:?
          end;
          cbn [config.Secret config.Endpoint config.CFTurn config.Options
               config.MaxBodySize config.CTAEndpoint
               set_Secret set_Endpoint set_MaxBodySize set_CTAEndpoint negb andb] in * ).
  all: repeat match goal with
         | H : negb (String.eqb ?x "") && _ = false, H' : String.eqb ?x "" = false |- _ =>
             rewrite H' in H; cbn [negb andb] in H
         | H : negb (String.eqb ?x "") && _ = true |- _ =>
             apply andb_true_iff in H as [? ?]
         | H : negb (_ =? _)%nat = false |- _ => apply negb_false_iff, Nat.eqb_eq in H
         | H : negb (_ =? _)%nat = true |- _ => apply negb_true_iff, Nat.eqb_neq in H
         | H : negb (String.eqb _ _) = true |- _ => apply negb_true_iff in H
         | H : (String.length ?x = 35)%nat |- context [slice_to 5 ?x] =>
             rewrite (slice_to_35 x H)
         | H : String.eqb _ "" = true |- _ => apply String.eqb_eq in H
         | H : String.eqb _ "" = false |- _ => apply String.eqb_neq in H
         end.
  all: eexists _, _, _; split; [reflexivity|];
    cbn [config.Secret config.Endpoint config.CFTurn config.Options
         set_Secret set_Endpoint set_MaxBodySize set_CTAEndpoint];
    split; [reflexivity|]; split; [intros ? ?; try done|intros ? ?; try done].
  all: exfalso;
    match goal with
    | H : negb (String.eqb _ _) && negb (_ =? _)%nat = false |- _ =>
        apply andb_false_iff in H as [H|H]; apply negb_false_iff in H;
        [apply String.eqb_eq in H | apply Nat.eqb_eq in H]; done
    end.
Qed.

(** [env_secret_overrides] on sample data. *)
Lemma env_secret_overrides_witness :
  exists c err printed,
    LoadConfig (sample_load_world (Some "abcde")) "config.json" = LoadReturn c err printed
    /\ config.Secret (config.CFTurn c) = "abcde"
    /\ err = Some "cfTurnstile.secret must be 35 characters long".
Proof.
  destruct (env_secret_overrides (sample_load_world (Some "abcde")) "config.json" "{}"
              sample_file_cfg "abcde" eq_refl eq_refl eq_refl)
    as (c & err & printed & Hload & Hsec & Herr & _).
  exists c, err, printed. split; [exact Hload|]. split; [exact Hsec|].
  apply Herr; [discriminate | vm_compute; discriminate].
Defined.

(** X24.  When [LoadConfig] has printed that the verification will be
    disabled, the server that runs with the loaded configuration accepts no
    submission: no request reaches the verification endpoint, no mail is
    sent and no request is answered 204. *)
Theorem announced_disabled_refuses_all (w : LoadWorld) (path : string)
    (c : config.Config) (env : Env) (r : http.Request) (t : gmap string rateInfo) :
  LoadConfig w path = LoadReturn c None [disabled_line] ->
  let res := serve c env r (start t) in
  let s := final_state res in
  panicked res = false
  /\ count is_post (journal s) = 0%nat
  /\ count is_smtp (journal s) = 0%nat
  /\ reply s <> Some {| http.Code := 204; http.Text := "" |}.
Proof.
  intros Hload res s. subst s.
  destruct (LoadConfig_inv _ _ _ _ Hload) as (_ & _ & _ & _ & _ & _ & _ & Hline).
  assert (Hsec : config.Secret (config.CFTurn c) = "") by by apply Hline.
  clear Hload Hline.
  assert (Hc : configured (config.CFTurn c) = false)
    by (unfold configured; by rewrite Hsec).
  assert (Hres : res = serve c env r (start t)) by reflexivity.
  clearbody res. revert Hres.
  run_server; intros ->; reduce_state;
    try (rewrite (proj2 Hnil Hc));
    try (destruct (proj1 Hfalse (conj eq_refl eq_refl)) as [? _]; congruence);
    try (destruct (proj1 Htrue eq_refl) as [? _]; congruence);
    cbn [count is_post is_smtp app Nat.add];
    (split; [done|]); (split; [done|]); (split; [done|]);
    intros H; by vm_compute in H.
Qed.

(** [announced_disabled_refuses_all] on sample data. *)
Lemma announced_disabled_refuses_all_witness :
  count is_smtp (journal (final_state
    (serve (with_defaults (Some "") sample_file_cfg) env_accept
       (sample_request "POST" 42 sample_body) (start ∅)))) = 0%nat.
Proof.
  apply (announced_disabled_refuses_all (sample_load_world (Some "")) "config.json"
           (with_defaults (Some "") sample_file_cfg) env_accept
           (sample_request "POST" 42 sample_body) ∅).
  vm_compute. reflexivity.
Defined.

(** X25.  The limit of the body after a load: a file that leaves it out, or
    sets it to 0, gets 4096, so that a declared length of 4097 bytes or more
    is refused and nothing below; a negative limit in the file is kept, and
    switches the guard of the declared length off. *)
Theorem loaded_limit (w : LoadWorld) (path b : string) (c0 c : config.Config)
    (printed : list string) (r : http.Request) :
  os_ReadFile w path = inl b ->
  json_Unmarshal_Config w b = (c0, None) ->
  LoadConfig w path = LoadReturn c None printed ->
  let max := config.MaxBodySize (config.Options c0) in
  (max = 0 -> (too_large c r = true <-> 4096 < http.ContentLength r))
  /\ (max < 0 -> too_large c r = false)
  /\ (0 < max -> (too_large c r = true <-> max < http.ContentLength r)).
Proof.
  intros Hread Hjson Hload max. subst max.
  destruct (LoadConfig_inv _ _ _ _ Hload) as (b' & c0' & Hread' & Hjson' & Hc & _).
  rewrite Hread in Hread'. injection Hread' as <-.
  rewrite Hjson in Hjson'. injection Hjson' as <-.
  assert (Hmax : config.MaxBodySize (config.Options c)
                 = if config.MaxBodySize (config.Options c0) =? 0 then 4096
                   else config.MaxBodySize (config.Options c0)).
  { rewrite Hc. unfold with_defaults.
    repeat match goal with
      | |- context [match ?x with Some _ => _ | None => _ end] => destruct x
      | |- context [if String.eqb ?x ?y then _ else _] => destruct (String.eqb x y)
      end; cbn [config.MaxBodySize config.Options set_Endpoint set_CTAEndpoint
                set_Secret set_MaxBodySize];
      by destruct (_ =? 0). }
  unfold too_large. rewrite Hmax. clear Hc Hmax Hload.
  destruct (config.MaxBodySize (config.Options c0) =? 0) eqn:Hz;
    [apply Z.eqb_eq in Hz | apply Z.eqb_neq in Hz].
  - rewrite Hz. split; [intros _|split; intros; lia].
    rewrite !andb_true_iff, negb_true_iff, Z.leb_le, Z.ltb_lt, Z.eqb_neq. lia.
  - split; [done|]. split.
    + intros Hneg. apply andb_false_iff. left. apply andb_false_iff. left.
      apply Z.leb_gt. lia.
    + intros Hpos.
      rewrite !andb_true_iff, negb_true_iff, Z.leb_le, Z.ltb_lt, Z.eqb_neq. lia.
Qed.

(** [loaded_limit] on sample data. *)
Lemma loaded_limit_witness :
  too_large (with_defaults (Some "") sample_file_cfg)
    (sample_request "POST" 4097 sample_body) = true.
Proof.
  apply (proj1 (loaded_limit (sample_load_world (Some "")) "config.json" "{}"
                  sample_file_cfg (with_defaults (Some "") sample_file_cfg)
                  [disabled_line] (sample_request "POST" 4097 sample_body)
                  eq_refl eq_refl ltac:(vm_compute; reflexivity))).
  - reflexivity.
  - cbn. lia.
Defined.

(** X26.  Loading is idempotent: when a load has returned a configuration
    without an error, a load of a file that decodes to this configuration
    returns it unchanged, provided the variable of the environment is not
    set and the endpoint still parses. *)
Theorem LoadConfig_reload (w w' : LoadWorld) (path path' b' : string)
    (c : config.Config) (printed : list string) :
  LoadConfig w path = LoadReturn c None printed ->
  os_ReadFile w' path' = inl b' ->
  json_Unmarshal_Config w' b' = (c, None) ->
  os_LookupEnv w' "WB_CF_TURN_SECRET" = None ->
  url_Parse w' (config.Endpoint (config.CFTurn c)) = None ->
  exists printed', LoadConfig w' path' = LoadReturn c None printed'.
Proof.
  intros Hload Hread Hjson Henv Hurl.
  destruct (LoadConfig_success _ _ _ _ Hload) as (Hmax & Hsec & Hend & _ & Hcta & _).
  unfold LoadConfig. rewrite Hread, Hjson, Henv. cbv beta iota zeta.
  apply Z.eqb_neq in Hmax. rewrite Hmax.
  apply String.eqb_neq in Hend, Hcta. rewrite Hend, Hurl, Hcta.
  destruct Hsec as [Hsec|Hsec].
  - rewrite Hsec. cbn [String.eqb negb andb]. eexists. reflexivity.
  - rewrite Hsec. cbn [Nat.eqb negb andb]. rewrite andb_false_r.
    rewrite (slice_to_35 _ Hsec).
    destruct (String.eqb (config.Secret (config.CFTurn c)) ""); eexists; reflexivity.
Qed.

(** [LoadConfig_reload] on sample data. *)
Lemma LoadConfig_reload_witness :
  exists printed',
    LoadConfig (reload_world (with_defaults (Some "") sample_file_cfg)) "other.json"
    = LoadReturn (with_defaults (Some "") sample_file_cfg) None printed'.
Proof.
  apply (LoadConfig_reload (sample_load_world (Some ""))
           (reload_world (with_defaults (Some "") sample_file_cfg))
           "config.json" "other.json" "" (with_defaults (Some "") sample_file_cfg)
           [disabled_line]).
  - vm_compute. reflexivity.
  - reflexivity.
  - reflexivity.
  - reflexivity.
  - reflexivity.
Defined.

(** ** The SMTP session *)

Lemma failures_app (srv : smtp.Server) (a b h : list smtp.Call) :
  smtp.failures srv h (a ++ b)
  = smtp.failures srv h a ++ smtp.failures srv (h ++ a) b.
Proof.
  revert h. induction a as [|c a IH]; intros h; cbn [smtp.failures app].
  - by rewrite app_nil_r.
  - rewrite IH, <- !app_assoc. reflexivity.
Qed.

(** What a run of checked calls leaves: the calls made extend the history
    by a prefix of the calls to make, and the only failure among them is
    that of the last call made, which is the error of the run. *)
Lemma steps_spec (srv : smtp.Server) (cs h : list smtp.Call) :
  Forall (fun c => smtp.checked c = true) cs ->
  exists done,
    (smtp.steps srv cs h).1 = h ++ done
    /\ smtp.failures srv h done = option_list (smtp.steps srv cs h).2
    /\ done `prefix_of` cs
    /\ match (smtp.steps srv cs h).2 with
       | None => done = cs
       | Some e => exists d c, done = d ++ [c] /\ smtp.checked c = true
                               /\ smtp.fails srv (h ++ d) c = Some e
       end.
Proof.
  revert h. induction cs as [|c cs IH]; intros h Hc; cbn [smtp.steps].
  - exists []. by rewrite app_nil_r.
  - apply Forall_cons in Hc as [Hc Hcs].
    destruct (smtp.fails srv h c) as [e|] eqn:Hf; cbn [fst snd].
    + exists [c]. split; [done|].
      split; [cbn [smtp.failures]; by rewrite Hc, Hf|].
      split; [by exists cs|].
      exists [], c. by rewrite app_nil_r.
    + destruct (IH (h ++ [c]) Hcs) as (done & Hh & Hfail & Hp & Hr).
      exists (c :: done). split; [by rewrite Hh, <- app_assoc|].
      split; [cbn [smtp.failures]; by rewrite Hc, Hf, Hfail|].
      split; [by apply prefix_cons|].
      destruct (smtp.steps srv cs (h ++ [c])).2 as [e|].
      * destruct Hr as (d & c' & -> & Hc' & Hf').
        exists (c :: d), c'. split; [done|]. split; [done|].
        by rewrite <- app_assoc in Hf'.
      * by rewrite Hr.
Qed.

Lemma steps_ok (srv : smtp.Server) (cs h : list smtp.Call) :
  (forall h c, smtp.fails srv h c = None) ->
  smtp.steps srv cs h = (h ++ cs, None).
Proof.
  intros Hok. revert h. induction cs as [|c cs IH]; intros h; cbn [smtp.steps].
  - by rewrite app_nil_r.
  - by rewrite Hok, IH, <- app_assoc.
Qed.

Lemma deliver_checked (b : bool) (u p s from to msg : string) :
  Forall (fun c => smtp.checked c = true)
    ((if b then [smtp.Auth "" u p s] else [])
     ++ [smtp.Mail from; smtp.Rcpt to; smtp.Data; smtp.Write msg; smtp.Close]).
Proof. destruct b; by repeat constructor. Qed.

Lemma upgrade_checked (ok b : bool) (skip : bool) (u p s from to msg : string) :
  Forall (fun c => smtp.checked c = true)
    ((if ok then [smtp.StartTLS skip s] else [])
     ++ (if b then [smtp.Auth "" u p s] else [])
     ++ [smtp.Mail from; smtp.Rcpt to; smtp.Data; smtp.Write msg; smtp.Close]).
Proof. destruct ok, b; by repeat constructor. Qed.

(** The run of the session up to the calls after [smtp.NewClient]. *)
Ltac run_session :=
  unfold SendMail_session;
  repeat match goal with
    | |- context [if String.eqb ?m ?k then _ else _] => destruct (String.eqb m k) eqn:?
    end;
  cbn [smtp.steps app];
  repeat match goal with
    | |- context [match smtp.fails ?srv ?h ?c with Some _ => _ | None => _ end] =>
        destruct (smtp.fails srv h c) eqn:?
    end;
  cbn [fst snd];
  try match goal with
    | |- context [smtp.steps ?srv
                    ((if ?b then [smtp.Auth "" ?u ?p ?s] else [])
                     ++ [smtp.Mail ?f; smtp.Rcpt ?t; smtp.Data; smtp.Write ?m; smtp.Close]) ?h] =>
        let done := fresh "done" in
        let Hh := fresh "Hh" in
        let Hfail := fresh "Hfail" in
        let Hp := fresh "Hp" in
        let Hr := fresh "Hr" in
        destruct (steps_spec srv _ h (deliver_checked b u p s f t m))
          as (done & Hh & Hfail & Hp & Hr);
        revert Hh Hfail Hp Hr;
        destruct (smtp.steps srv _ h) as [hh [ee|]]; cbn [fst snd];
        intros Hh Hfail Hp Hr
    | |- context [smtp.steps ?srv
                    ((if ?ok then [smtp.StartTLS ?skip ?s] else [])
                     ++ (if ?b then [smtp.Auth "" ?u ?p ?s] else [])
                     ++ [smtp.Mail ?f; smtp.Rcpt ?t; smtp.Data; smtp.Write ?m; smtp.Close]) ?h] =>
        let done := fresh "done" in
        let Hh := fresh "Hh" in
        let Hfail := fresh "Hfail" in
        let Hp := fresh "Hp" in
        let Hr := fresh "Hr" in
        destruct (steps_spec srv _ h (upgrade_checked ok b skip u p s f t m))
          as (done & Hh & Hfail & Hp & Hr);
        revert Hh Hfail Hp Hr;
        destruct (smtp.steps srv _ h) as [hh [ee|]]; cbn [fst snd];
        intros Hh Hfail Hp Hr
    end.

(** X27.  The error that [SendMail] returns is the error of the one call
    of the session that failed, and that call is the last one made, the
    deferred [Quit] apart: no failure is dropped, and no call that reports
    an error is followed by another call of the delivery. *)
Theorem session_reports_the_failure (srv : smtp.Server) (cfg : config.SMTPConfig)
    (msg : string) :
  let res := SendMail_session srv cfg msg in
  smtp.failures srv [] res.1 = option_list res.2
  /\ forall e, res.2 = Some e ->
       exists h c, (res.1 = h ++ [c] \/ res.1 = h ++ [c; smtp.Quit])
                   /\ smtp.checked c = true
                   /\ smtp.fails srv h c = Some e.
Proof.
  intros res. subst res. run_session.
  all: cbn [smtp.failures smtp.checked app option_list] in *.
  all: repeat match goal with
         | H : smtp.fails _ _ _ = _ |- _ => rewrite H
         end; cbn [option_list app].
  all: try (split; [reflexivity|]; intros e' [= <-]).
  all: try (split; [reflexivity|]; intros e' [=]).
  (* the dial failed, or the client could not be created *)
  all: try (by eexists [], _; split; [left; reflexivity|]).
  all: try (by eexists [_], _; split; [left; reflexivity|]).
  (* after the client was created *)
  all: subst hh.
  all: rewrite ?failures_app; cbn [smtp.failures smtp.checked app option_list].
  all: repeat match goal with
         | H : smtp.fails _ _ _ = _ |- _ => rewrite H
         end; cbn [option_list app].
  all: rewrite ?Hfail, ?app_nil_r; cbn [option_list app].
  all: split; [reflexivity|].
  all: intros e' [=]; subst.
  all: destruct Hr as (d & c & -> & Hc & Hf).
  all: match type of Hf with
       | smtp.fails _ ?h _ = _ => exists h, c
       end.
  all: split; [right; by rewrite <- !app_assoc | by split].
Qed.

(** [session_reports_the_failure] on sample data. *)
Lemma session_reports_the_failure_witness :
  exists h c,
    ((SendMail_session server_no_rcpt (smtp_cfg "STARTTLS" "") example_text).1 = h ++ [c]
     \/ (SendMail_session server_no_rcpt (smtp_cfg "STARTTLS" "") example_text).1
        = h ++ [c; smtp.Quit])
    /\ smtp.checked c = true
    /\ smtp.fails server_no_rcpt h c = Some "550".
Proof.
  apply (proj2 (session_reports_the_failure server_no_rcpt (smtp_cfg "STARTTLS" "")
                  example_text) "550").
  vm_compute. reflexivity.
Defined.

Lemma Forall_prefix {A} (P : A -> Prop) (l k : list A) :
  l `prefix_of` k -> Forall P k -> Forall P l.
Proof. intros [r ->] H. by apply Forall_app in H as [H _]. Qed.

Lemma deliver_no_TLS (b : bool) (u p s from to msg : string) :
  Forall (fun c => smtp.is_TLS c = false)
    ((if b then [smtp.Auth "" u p s] else [])
     ++ [smtp.Mail from; smtp.Rcpt to; smtp.Data; smtp.Write msg; smtp.Close]).
Proof. destruct b; by repeat constructor. Qed.

(** X28.  A session that returns no error has handed the whole message
    over, and the mode decides how.  In the mode ssl the calls are
    [tls.Dial] and [smtp.NewClient], then the delivery; in the mode starttls
    they are [net.Dial], [smtp.NewClient] and the question for the extension,
    then [StartTLS] when the server advertises it, then the delivery.  The
    delivery is the envelope, the message, the close of the data and
    [Quit], in this order, preceded by the authentication exactly when a
    user name is configured.  In every other mode the session is the one
    call of [smtp.SendMail] with this message, with credentials exactly when
    a user name is configured. *)
Theorem delivered_message (srv : smtp.Server) (cfg : config.SMTPConfig) (msg : string) :
  let res := SendMail_session srv cfg msg in
  let mode := strings.ToLower (config.Encryption cfg) in
  let addr := cat [config.Server cfg; ":"; Sprintf_d (config.Port cfg)] in
  let named := negb (String.eqb (config.Username cfg) "") in
  let delivery :=
    (if named
     then [smtp.Auth "" (config.Username cfg) (config.Password cfg) (config.Server cfg)]
     else [])
    ++ [smtp.Mail (config.From cfg); smtp.Rcpt (config.To cfg); smtp.Data;
        smtp.Write msg; smtp.Close; smtp.Quit] in
  res.2 = None ->
  (mode = "ssl" ->
   res.1 = [smtp.tls_Dial addr (negb (config.VerifyTLS cfg)) (config.Server cfg);
            smtp.NewClient (config.Server cfg)] ++ delivery)
  /\ (mode = "starttls" ->
      res.1 = [smtp.net_Dial addr; smtp.NewClient (config.Server cfg);
               smtp.Extension "STARTTLS"]
              ++ (if smtp.supports srv
                       [smtp.net_Dial addr; smtp.NewClient (config.Server cfg)] "STARTTLS"
                  then [smtp.StartTLS (negb (config.VerifyTLS cfg)) (config.Server cfg)]
                  else [])
              ++ delivery)
  /\ (mode <> "ssl" -> mode <> "starttls" ->
      res.1 = [smtp.SendMail addr
                 (if named
                  then Some ("", config.Username cfg, config.Password cfg,
                             config.Server cfg)
                  else None)
                 (config.From cfg) [config.To cfg] msg]).
Proof.
  intros res mode addr named delivery. subst res mode addr named delivery.
  run_session.
  all: cbn [app] in *; intros Herr; try discriminate Herr; clear Herr.
  all: repeat match goal with
         | H : String.eqb _ _ = true |- _ => apply String.eqb_eq in H
         | H : String.eqb _ _ = false |- _ => apply String.eqb_neq in H
         end.
  all: try subst hh; try subst done.
  - split; [intros _|split; [intros Hs|intros Hn; done]].
    + cbn [app]. do 2 f_equal. rewrite <- app_assoc. reflexivity.
    + congruence.
  - split; [intros Hs; done|split; [intros _|intros _ Hn; done]].
    cbn [app]. do 3 f_equal. rewrite <- !app_assoc. reflexivity.
  - split; [intros Hs; done|split; [intros Hs; done|intros _ _; reflexivity]].
Qed.

(** [delivered_message] on sample data. *)
Lemma delivered_message_witness :
  (SendMail_session server_plain (smtp_cfg "SSL" "user") example_text).1
  = [smtp.tls_Dial "mail.example:587" false "mail.example"; smtp.NewClient "mail.example";
     smtp.Auth "" "user" "secret" "mail.example";
     smtp.Mail "site@example"; smtp.Rcpt "owner@example"; smtp.Data;
     smtp.Write example_text; smtp.Close; smtp.Quit].
Proof.
  apply (proj1 (delivered_message server_plain (smtp_cfg "SSL" "user") example_text
                  ltac:(vm_compute; reflexivity))).
  vm_compute. reflexivity.
Defined.

(** X29.  The mode starttls upgrades the connection only when the server
    advertises the extension.  When it does, no call of the delivery is
    made unless [StartTLS] has succeeded before it: a failed upgrade ends the
    session.  When it does not, the session holds no TLS call at all, and if
    then no call fails the message is delivered over the connection as it
    is. *)
Theorem starttls_upgrade (srv : smtp.Server) (cfg : config.SMTPConfig) (msg : string) :
  strings.ToLower (config.Encryption cfg) = "starttls" ->
  let res := SendMail_session srv cfg msg in
  ((forall h, smtp.supports srv h "STARTTLS" = true) ->
   forall c, c ∈ res.1 -> smtp.is_payload c = true ->
     exists h1 h2 skip name,
       res.1 = h1 ++ smtp.StartTLS skip name :: h2
       /\ smtp.fails srv h1 (smtp.StartTLS skip name) = None
       /\ c ∈ h2)
  /\ ((forall h, smtp.supports srv h "STARTTLS" = false) ->
      Forall (fun c => smtp.is_TLS c = false) res.1
      /\ ((forall h c, smtp.fails srv h c = None) ->
          res.2 = None /\ smtp.Write msg ∈ res.1)).
Proof.
  intros Hmode res. subst res. unfold SendMail_session. rewrite Hmode.
  change (String.eqb "starttls" "ssl") with false.
  change (String.eqb "starttls" "starttls") with true.
  cbv beta iota. split.
  - intros Hsup c. cbn [smtp.steps app].
    repeat match goal with
      | |- context [match smtp.fails srv ?h ?c with Some _ => _ | None => _ end] =>
          destruct (smtp.fails srv h c) eqn:?
      end; cbn [fst snd].
    1,2: intros Hin Hpay; exfalso; revert Hin;
      rewrite ?elem_of_cons, elem_of_nil; intros Hin;
      repeat destruct Hin as [Hin|Hin]; try done; by subst c.
    rewrite Hsup. cbn [smtp.steps app].
    match goal with
    | |- context [match smtp.fails srv ?h ?c with Some _ => _ | None => _ end] =>
        destruct (smtp.fails srv h c) eqn:Htls
    end; cbn [fst snd app].
    { intros Hin Hpay; exfalso; revert Hin;
        rewrite ?elem_of_cons, elem_of_nil; intros Hin;
        repeat destruct Hin as [Hin|Hin]; try done; by subst c. }
    match goal with
    | |- context [smtp.steps srv
                    ((if ?b then [smtp.Auth "" ?u ?p ?s] else [])
                     ++ [smtp.Mail ?f; smtp.Rcpt ?t; smtp.Data; smtp.Write ?m; smtp.Close]) ?h] =>
        destruct (steps_spec srv _ h (deliver_checked b u p s f t m))
          as (done & Hh & _ & _ & _);
        revert Hh; destruct (smtp.steps srv _ h) as [hh ee]; cbn [fst snd];
        intros ->
    end.
    cbn [app]. intros Hin Hpay.
    eexists [_; _; _], _, _, _. split; [reflexivity|]. split; [exact Htls|].
    revert Hin. rewrite !elem_of_cons. intros Hin.
    repeat (destruct Hin as [Hin|Hin]; [by subst c|]). exact Hin.
  - intros Hsup. cbn [smtp.steps app].
    split.
    + repeat match goal with
        | |- context [match smtp.fails srv ?h ?c with Some _ => _ | None => _ end] =>
            destruct (smtp.fails srv h c) eqn:?
        end; cbn [fst snd]; try (by repeat constructor).
      rewrite Hsup. cbn [app].
      match goal with
      | |- context [smtp.steps srv
                      ((if ?b then [smtp.Auth "" ?u ?p ?s] else [])
                       ++ [smtp.Mail ?f; smtp.Rcpt ?t; smtp.Data; smtp.Write ?m; smtp.Close]) ?h] =>
          destruct (steps_spec srv _ h (deliver_checked b u p s f t m))
            as (done & Hh & _ & Hp & _);
          pose proof (Forall_prefix _ _ _ Hp (deliver_no_TLS b u p s f t m)) as Hno;
          revert Hh; destruct (smtp.steps srv _ h) as [hh ee]; cbn [fst snd];
          intros ->
      end.
      cbn [app]. do 3 (constructor; [done|]).
      apply Forall_app. split; [done|]. by repeat constructor.
    + intros Hok. rewrite !Hok, Hsup. cbn [app].
      rewrite (steps_ok _ _ _ Hok). cbn [fst snd]. split; [done|].
      repeat (rewrite ?elem_of_app, ?elem_of_cons). naive_solver.
Qed.

(** [starttls_upgrade] on sample data. *)
Lemma starttls_upgrade_witness :
  Forall (fun c => smtp.is_TLS c = false)
    (SendMail_session server_plain (smtp_cfg "StartTLS" "") example_text).1.
Proof.
  apply (proj2 (starttls_upgrade server_plain (smtp_cfg "StartTLS" "") example_text
                  ltac:(vm_compute; reflexivity))).
  intros h. reflexivity.
Defined.

(** X30.  [Quit] is deferred from the moment the client exists: the session
    holds a [Quit] exactly when [smtp.NewClient] was called and succeeded,
    whether or not a later call fails, and it is then the last call and the
    only [Quit] of the session. *)
Theorem quit_is_deferred (srv : smtp.Server) (cfg : config.SMTPConfig) (msg : string) :
  let res := SendMail_session srv cfg msg in
  (smtp.Quit ∈ res.1
   <-> exists h1 h2 host, res.1 = h1 ++ smtp.NewClient host :: h2
                          /\ smtp.fails srv h1 (smtp.NewClient host) = None)
  /\ (smtp.Quit ∈ res.1 -> exists h, res.1 = h ++ [smtp.Quit] /\ smtp.Quit ∉ h).
Proof.
  intros res. subst res. run_session.
  all: cbn [app] in *.
  all: try subst hh.
  (* the sessions in which the client was created *)
  all: try (
    assert (Hnq : smtp.Quit ∉ done)
      by (intros Hq;
          pose proof (Forall_prefix _ _ _ Hp ltac:(first [apply deliver_checked
                                                         | apply upgrade_checked])) as Hck;
          rewrite Forall_forall in Hck; by specialize (Hck _ Hq));
    match goal with
    | |- (_ ∈ ?l ++ [smtp.Quit] <-> _) /\ _ =>
        split;
        [ split;
          [ intros _; eexists [_], _, _; split; [reflexivity | eassumption]
          | intros _; apply elem_of_app; right; apply list_elem_of_here ]
        | intros _; exists l; split; [reflexivity|];
          rewrite !elem_of_cons; intros Hq;
          repeat (destruct Hq as [Hq|Hq]; [discriminate Hq|]); done ]
    end).
  (* the sessions without a client *)
  all: split;
    [ split;
      [ rewrite ?elem_of_cons, elem_of_nil; intros Hq;
        repeat destruct Hq as [Hq|Hq]; done
      | intros (h1 & h2 & host & Heq & Hf);
        destruct h1 as [|a [|b [|? ?]]]; cbn [app] in Heq; simplify_eq;
        try (destruct h2; simplify_eq); congruence ]
    | rewrite ?elem_of_cons, elem_of_nil; intros Hq;
      repeat destruct Hq as [Hq|Hq]; done ].
Qed.

(** [quit_is_deferred] on sample data. *)
Lemma quit_is_deferred_witness :
  smtp.Quit ∈ (SendMail_session server_no_rcpt (smtp_cfg "ssl" "") example_text).1.
Proof.
  apply (proj2 (proj1 (quit_is_deferred server_no_rcpt (smtp_cfg "ssl" "") example_text))).
  eexists [_], _, _. split; [vm_compute; reflexivity | reflexivity].
Defined.

(** ** The sanitizer, step by step *)

Section ReplacedFacts.

Variable matches : list ascii -> Prop.
Variable new : list ascii.

(** A byte at which no match starts is kept, and the replacement goes on
    behind it. *)
Lemma replaced_cons (c : ascii) (l out : list ascii) :
  (forall m post, c :: l = m ++ post -> ~ matches m) ->
  ~ matches [] ->
  replaced matches new l out ->
  replaced matches new (c :: l) (c :: out).
Proof.
  intros Hhere Hnil Hrep. destruct Hrep as [l Hno|pre m post out Hm Hleft Hlong Hrest].
  - apply replaced_none. intros pre m post E Hm.
    destruct pre as [|d pre]; cbn [app] in E.
    + by apply (Hhere m post).
    + injection E as _ E. by apply (Hno pre m post).
  - change (c :: pre ++ m ++ post) with ((c :: pre) ++ m ++ post).
    change (c :: pre ++ new ++ out) with ((c :: pre) ++ new ++ out).
    apply replaced_match; [done| |done|done].
    intros pre' m' post' E Hm'.
    destruct pre' as [|d pre']; cbn [app] in E.
    + exfalso. by apply (Hhere m' post').
    + injection E as _ E. cbn [length]. apply le_n_S. by apply (Hleft pre' m' post').
Qed.

(** A match at the start is replaced, and the replacement goes on behind
    it. *)
Lemma replaced_here (m post out : list ascii) :
  matches m ->
  (forall m' post', m ++ post = m' ++ post' -> matches m' ->
     (length m' <= length m)%nat) ->
  replaced matches new post out ->
  replaced matches new (m ++ post) (new ++ out).
Proof.
  intros Hm Hlong Hrest.
  apply (replaced_match matches new [] m post out); [done| |done|done].
  intros pre' m' post' _ _. cbn. lia.
Qed.

End ReplacedFacts.

(** *** The control bytes *)

Lemma is_ctrl_spec (c : ascii) :
  regexp.is_ctrl c = true
  <-> (byte_val c <= 9 \/ 11 <= byte_val c <= 12 \/ 14 <= byte_val c <= 31)%N.
Proof.
  unfold regexp.is_ctrl. rewrite !orb_true_iff, !between_spec. lia.
Qed.

Lemma reCtrl_replaced (s : string) :
  replaced ctrl_match [SP] (list_ascii_of_string s)
    (list_ascii_of_string (regexp.reCtrl_ReplaceAllString s)).
Proof.
  induction s as [|c s IH]; cbn [regexp.reCtrl_ReplaceAllString list_ascii_of_string].
  - apply replaced_none. intros pre m post E (c & -> & _).
    by destruct pre.
  - destruct (regexp.is_ctrl c) eqn:Hc.
    + apply (replaced_here ctrl_match [SP] [c]); [| |exact IH].
      * exists c. split; [done|]. by apply is_ctrl_spec.
      * intros m' post' _ (d & -> & _). done.
    + apply replaced_cons; [| |exact IH].
      * intros m post E (d & -> & Hd). injection E as <- _.
        apply is_ctrl_spec in Hd. congruence.
      * intros (d & [=] & _).
Qed.

(** *** The tags *)

Lemma first_occurrence {A} (x : A) (a a' b b' : list A) :
  a ++ x :: b = a' ++ x :: b' -> x ∉ a -> x ∉ a' -> a = a'.
Proof.
  revert a'. induction a as [|y a IH]; intros a' E Ha Ha'.
  - destruct a' as [|y' a']; [done|]. cbn in E. injection E as <- _.
    exfalso. apply Ha'. by left.
  - destruct a' as [|y' a']; cbn in E.
    + injection E as -> _. exfalso. apply Ha. by left.
    + injection E as <- E. f_equal. apply IH; [done| |].
      * intros H. apply Ha. by right.
      * intros H. apply Ha'. by right.
Qed.

Lemma is_gt_spec (c : ascii) : regexp.is_gt c = true <-> c = ">"%char.
Proof. unfold regexp.is_gt. apply Ascii.eqb_eq. Qed.

Lemma is_lt_spec (c : ascii) : regexp.is_lt c = true <-> c = "<"%char.
Proof. unfold regexp.is_lt. apply Ascii.eqb_eq. Qed.

Lemma has_gt_elem (s : string) :
  regexp.has_gt s = true <-> ">"%char ∈ list_ascii_of_string s.
Proof.
  induction s as [|c s IH]; cbn [regexp.has_gt list_ascii_of_string].
  - split; [done | by intros H%elem_of_nil].
  - rewrite orb_true_iff, is_gt_spec, IH, elem_of_cons.
    split; (intros [H|H]; [left; by symmetry | by right]).
Qed.

Lemma no_empty_tag : ~ tag_match [].
Proof. intros (body & [=] & _). Qed.

Lemma reHTML_scan_replaced (s : string) :
  replaced tag_match [] (list_ascii_of_string s)
    (list_ascii_of_string (regexp.reHTML_scan false s))
  /\ (regexp.has_gt s = true ->
      exists body post,
        list_ascii_of_string s = body ++ ">"%char :: list_ascii_of_string post
        /\ (">"%char ∉ body)
        /\ regexp.reHTML_scan true s = regexp.reHTML_scan false post
        /\ replaced tag_match [] (list_ascii_of_string post)
             (list_ascii_of_string (regexp.reHTML_scan false post))).
Proof.
  induction s as [|c s [IH1 IH2]].
  - split; [|done]. apply replaced_none. intros pre m post E Hm.
    destruct pre; [|done]. destruct m; [|done]. by apply no_empty_tag.
  - assert (Hin : regexp.has_gt (String c s) = true ->
      exists body post,
        list_ascii_of_string (String c s) = body ++ ">"%char :: list_ascii_of_string post
        /\ (">"%char ∉ body)
        /\ regexp.reHTML_scan true (String c s) = regexp.reHTML_scan false post
        /\ replaced tag_match [] (list_ascii_of_string post)
             (list_ascii_of_string (regexp.reHTML_scan false post))).
    { cbn [regexp.has_gt regexp.reHTML_scan list_ascii_of_string].
      destruct (regexp.is_gt c) eqn:Hc; cbn [orb].
      - intros _. apply is_gt_spec in Hc as ->. exists [], s.
        split; [done|]. split; [apply not_elem_of_nil|]. by split.
      - intros Hs. destruct (IH2 Hs) as (body & post & E & Hb & Hscan & Hrep).
        exists (c :: body), post. split; [by rewrite E|].
        split; [|by split].
        apply not_elem_of_cons. split; [|done].
        intros Hgt. symmetry in Hgt. apply is_gt_spec in Hgt. congruence. }
    split; [|exact Hin].
    cbn [regexp.reHTML_scan list_ascii_of_string].
    destruct (regexp.is_lt c && regexp.has_gt s) eqn:Hc.
    + apply andb_true_iff in Hc as [Hlt Hs]. apply is_lt_spec in Hlt as ->.
      destruct (IH2 Hs) as (body & post & E & Hb & Hscan & Hrep).
      rewrite Hscan, E.
      replace ("<"%char :: body ++ ">"%char :: list_ascii_of_string post)
        with (("<"%char :: body ++ [">"%char]) ++ list_ascii_of_string post)
        by (cbn [app]; by rewrite <- app_assoc).
      apply (replaced_here tag_match [] _ _ _); [by exists body| |exact Hrep].
      intros m' post' E' (body' & -> & Hb').
      cbn [app] in E'. injection E' as E'. rewrite <- !app_assoc in E'. cbn [app] in E'.
      rewrite (first_occurrence _ _ _ _ _ E' Hb Hb'). done.
    + apply replaced_cons; [|apply no_empty_tag|exact IH1].
      intros m post E (body & -> & Hb).
      cbn [app] in E. injection E as -> E.
      rewrite (proj2 (is_lt_spec _) eq_refl) in Hc. cbn [andb] in Hc.
      assert (regexp.has_gt s = true); [|congruence].
      apply has_gt_elem. rewrite E, <- app_assoc. apply elem_of_app. right. by left.
Qed.

Lemma reHTML_replaced (s : string) :
  replaced tag_match [] (list_ascii_of_string s)
    (list_ascii_of_string (regexp.reHTML_ReplaceAllString s)).
Proof. apply reHTML_scan_replaced. Qed.

(** *** The URLs *)

Lemma nonspace_spec (c : ascii) : regexp.nonspace c = true <-> ~ re_space c.
Proof.
  unfold regexp.nonspace, re_space.
  rewrite negb_true_iff, !orb_false_iff, !elem_of_cons, elem_of_nil.
  split.
  - intros ((((H1 & H2) & H3) & H4) & H5) [->|[->|[->|[->|[->|[]]]]]];
      by rewrite Ascii.eqb_refl in *.
  - intros H. repeat split; apply Ascii.eqb_neq; intros ->; apply H; auto 10.
Qed.

Lemma substring_all (s : string) : String.substring 0 (String.length s) s = s.
Proof. induction s as [|c s IH]; cbn; [done|]. by rewrite IH. Qed.

Lemma after_prefix (p q : string) :
  String.substring (String.length p) (String.length (p +:+ q) - String.length p) (p +:+ q)
  = q.
Proof.
  induction p as [|c p IH].
  - change ("" +:+ q) with q. cbn [String.length]. rewrite Nat.sub_0_r. apply substring_all.
  - change (String c p +:+ q) with (String c (p +:+ q)).
    cbn [String.length String.substring Nat.sub]. exact IH.
Qed.

Lemma string_of_bytes (s : string) (l : list ascii) :
  list_ascii_of_string s = l -> s = string_of_list_ascii l.
Proof. intros <-. by rewrite string_of_list_ascii_of_string. Qed.

(** The pattern matches at the start of [s] exactly when [s] starts with
    one of the two schemes and a byte outside [\s] follows it. *)
Lemma url_here_spec (s : string) :
  regexp.url_here s = true
  <-> exists scheme x rest,
        list_ascii_of_string s = scheme ++ x :: rest
        /\ (scheme = list_ascii_of_string "http://"
            \/ scheme = list_ascii_of_string "https://")
        /\ regexp.nonspace x = true.
Proof.
  unfold regexp.url_here, regexp.after_scheme, strings.HasPrefix. split.
  - destruct (String.prefix "http://" s) eqn:H1.
    { apply prefix_inv in H1 as [q ->].
      change 7%nat with (String.length "http://").
      rewrite after_prefix. destruct q as [|x q]; [done|]. intros Hx.
      exists (list_ascii_of_string "http://"), x, (list_ascii_of_string q).
      split; [by rewrite bytes_append|]. split; [by left | done]. }
    destruct (String.prefix "https://" s) eqn:H2; [|done].
    apply prefix_inv in H2 as [q ->].
    change 8%nat with (String.length "https://").
    rewrite after_prefix. destruct q as [|x q]; [done|]. intros Hx.
    exists (list_ascii_of_string "https://"), x, (list_ascii_of_string q).
    split; [by rewrite bytes_append|]. split; [by right | done].
  - intros (scheme & x & rest & E & [->| ->] & Hx);
      apply string_of_bytes in E; subst s.
    + change (string_of_list_ascii (list_ascii_of_string "http://" ++ x :: rest))
        with ("http://" +:+ String x (string_of_list_ascii rest)).
      rewrite prefix_append. change 7%nat with (String.length "http://").
      by rewrite after_prefix.
    + change (string_of_list_ascii (list_ascii_of_string "https://" ++ x :: rest))
        with ("https://" +:+ String x (string_of_list_ascii rest)).
      change (String.prefix "http://" ("https://" +:+ String x (string_of_list_ascii rest)))
        with false.
      rewrite prefix_append. change 8%nat with (String.length "https://").
      by rewrite after_prefix.
Qed.

(** A run of bytes with a property that ends where the property fails holds
    every other run with the property that starts where it starts. *)
Lemma run_prefix {A} (P : A -> Prop) (a b a' b' : list A) :
  a ++ b = a' ++ b' ->
  Forall P a' ->
  (b = [] \/ exists x b0, b = x :: b0 /\ ~ P x) ->
  exists k, a = a' ++ k.
Proof.
  revert a. induction a' as [|y a' IH]; intros a E Ha' Hb.
  - by exists a.
  - apply Forall_cons in Ha' as [Hy Ha']. destruct a as [|z a]; cbn [app] in E.
    + destruct Hb as [->|(x & b0 & -> & Hx)]; [done|].
      injection E as -> _. done.
    + injection E as -> E. destruct (IH a E Ha' Hb) as [k ->]. by exists k.
Qed.

Lemma scheme_nonspace (scheme : list ascii) :
  scheme = list_ascii_of_string "http://" \/ scheme = list_ascii_of_string "https://" ->
  Forall (fun c => regexp.nonspace c = true) scheme
  /\ exists r, scheme = "h"%char :: r.
Proof. intros [->| ->]; (split; [by repeat constructor | by eexists]). Qed.

Lemma no_empty_url : ~ url_match [].
Proof.
  intros (scheme & run & E & Hs & _). symmetry in E. apply app_eq_nil in E as [-> _].
  by destruct Hs.
Qed.

Lemma url_match_nonspace (m : list ascii) :
  url_match m -> Forall (fun c => regexp.nonspace c = true) m.
Proof.
  intros (scheme & run & -> & Hs & _ & Hrun). apply Forall_app. split.
  - by apply scheme_nonspace.
  - eapply Forall_impl; [exact Hrun|]. intros c Hc. by apply nonspace_spec.
Qed.

(** A match at the start of [s] witnesses [url_here]. *)
Lemma url_match_here (s : string) (m post : list ascii) :
  list_ascii_of_string s = m ++ post -> url_match m -> regexp.url_here s = true.
Proof.
  intros E (scheme & run & -> & Hs & Hne & Hrun).
  destruct run as [|x run]; [done|]. apply Forall_cons in Hrun as [Hx _].
  apply url_here_spec. exists scheme, x, (run ++ post).
  split; [by rewrite E, <- app_assoc|]. split; [done|]. by apply nonspace_spec.
Qed.

Lemma reURL_scan_replaced (s : string) :
  replaced url_match [] (list_ascii_of_string s)
    (list_ascii_of_string (regexp.reURL_scan false s))
  /\ exists run post,
       list_ascii_of_string s = run ++ list_ascii_of_string post
       /\ Forall (fun c => regexp.nonspace c = true) run
       /\ (post = EmptyString \/ exists c p, post = String c p /\ regexp.nonspace c = false)
       /\ regexp.reURL_scan true s = regexp.reURL_scan false post
       /\ replaced url_match [] (list_ascii_of_string post)
            (list_ascii_of_string (regexp.reURL_scan false post)).
Proof.
  induction s as [|c s [IH1 IH2]].
  - assert (H : replaced url_match [] [] []).
    { apply replaced_none. intros pre m post E Hm.
      destruct pre; [|done]. destruct m; [|done]. by apply no_empty_url. }
    split; [exact H|]. exists [], EmptyString. repeat split; try done. by left.
  - assert (H1 : replaced url_match [] (list_ascii_of_string (String c s))
                   (list_ascii_of_string (regexp.reURL_scan false (String c s)))).
    { cbn [regexp.reURL_scan].
      destruct (regexp.url_here (String c s)) eqn:Hu.
      - destruct IH2 as (run & post & E & Hrun & Hend & Hscan & Hrep).
        rewrite Hscan. cbn [list_ascii_of_string]. rewrite E.
        change (c :: run ++ list_ascii_of_string post)
          with ((c :: run) ++ list_ascii_of_string post).
        pose proof Hu as Hu'. apply url_here_spec in Hu' as (scheme & x & rest & Es & Hs & Hx).
        cbn [list_ascii_of_string] in Es. rewrite E in Es.
        destruct (scheme_nonspace scheme Hs) as [Hsn [r0 Er0]].
        assert (Hc : regexp.nonspace c = true).
        { rewrite Er0 in Es. cbn [app] in Es. injection Es as -> _. reflexivity. }
        assert (Hend' : list_ascii_of_string post = []
                        \/ exists y b0, list_ascii_of_string post = y :: b0
                                        /\ ~ regexp.nonspace y = true).
        { destruct Hend as [->|(y & p & -> & Hy)]; [by left|].
          right. exists y, (list_ascii_of_string p). split; [done|]. by rewrite Hy. }
        apply (replaced_here url_match [] (c :: run)); [| |exact Hrep].
        + destruct (run_prefix (fun c => regexp.nonspace c = true)
                      (c :: run) (list_ascii_of_string post) (scheme ++ [x]) rest) as [k Ek].
          * change (c :: run ++ list_ascii_of_string post)
              with ((c :: run) ++ list_ascii_of_string post) in Es.
            by rewrite Es, <- app_assoc.
          * apply Forall_app. split; [done|]. by constructor.
          * exact Hend'.
          * exists scheme, (x :: k). split; [by rewrite Ek, <- app_assoc|].
            split; [done|]. split; [done|].
            assert (Hall : Forall (fun c => regexp.nonspace c = true) (c :: run))
              by (by constructor).
            rewrite Ek, <- app_assoc in Hall. apply Forall_app in Hall as [_ Hall].
            eapply Forall_impl; [exact Hall|]. intros d Hd. by apply nonspace_spec.
        + intros m' post' E' Hm'.
          destruct (run_prefix (fun c => regexp.nonspace c = true)
                      (c :: run) (list_ascii_of_string post) m' post' E'
                      (url_match_nonspace m' Hm') Hend') as [k ->].
          rewrite length_app. lia.
      - cbn [list_ascii_of_string]. apply replaced_cons; [|apply no_empty_url|exact IH1].
        intros m post E Hm.
        assert (regexp.url_here (String c s) = true); [|congruence].
        by apply (url_match_here _ m post). }
    split; [exact H1|].
    cbn [regexp.reURL_scan]. destruct (regexp.nonspace c) eqn:Hc.
    + destruct IH2 as (run & post & E & Hrun & Hend & Hscan & Hrep).
      exists (c :: run), post. cbn [list_ascii_of_string]. rewrite E.
      split; [done|]. split; [by constructor|]. by repeat split.
    + exists [], (String c s). split; [done|]. split; [constructor|].
      split; [right; by exists c, s|]. split; [|exact H1].
      cbn [regexp.reURL_scan].
      destruct (regexp.url_here (String c s)) eqn:Hu; [|done].
      exfalso. apply url_here_spec in Hu as (scheme & x & rest & Es & Hs & _).
      destruct (scheme_nonspace scheme Hs) as [_ [r0 ->]].
      cbn [list_ascii_of_string app] in Es. injection Es as -> _. discriminate Hc.
Qed.

Lemma reURL_replaced (s : string) :
  replaced url_match [] (list_ascii_of_string s)
    (list_ascii_of_string (regexp.reURL_ReplaceAllString s)).
Proof. apply reURL_scan_replaced. Qed.

(** *** The white space at both ends *)

(** [space_len] as a chain of tests on the value of the first byte. *)
Lemma space_len_cases (c : ascii) (r : list ascii) :
  strings.space_len (c :: r)
  = if between 9 13 c || Ascii.eqb c SP then 1%nat
    else if (byte_val c =? 194)%N then
      match r with
      | c1 :: _ =>
          if (byte_val c1 =? 133)%N || (byte_val c1 =? 160)%N then 2%nat else 0%nat
      | [] => 0%nat
      end
    else if (byte_val c =? 225)%N then
      match r with
      | c1 :: c2 :: _ =>
          if (byte_val c1 =? 154)%N && (byte_val c2 =? 128)%N then 3%nat else 0%nat
      | _ => 0%nat
      end
    else if (byte_val c =? 226)%N then
      match r with
      | c1 :: c2 :: _ =>
          if (byte_val c1 =? 128)%N
             && (between 128 138 c2 || between 168 169 c2 || (byte_val c2 =? 175)%N)
          then 3%nat
          else if (byte_val c1 =? 129)%N && (byte_val c2 =? 159)%N then 3%nat
          else 0%nat
      | _ => 0%nat
      end
    else if (byte_val c =? 227)%N then
      match r with
      | c1 :: c2 :: _ =>
          if (byte_val c1 =? 128)%N && (byte_val c2 =? 128)%N then 3%nat else 0%nat
      | _ => 0%nat
      end
    else 0%nat.
Proof.
  destruct c as [b0 b1 b2 b3 b4 b5 b6 b7].
  destruct b0, b1, b2, b3, b4, b5, b6, b7; reflexivity.
Qed.

Lemma byte_of_val (c : ascii) (v : N) : byte_val c = v -> c = ascii_of_N v.
Proof. intros <-. unfold byte_val. by rewrite ascii_N_embedding. Qed.

(** A list of byte values belongs to a list of such lists. *)
Ltac in_space_runes :=
  unfold space_rune, space_runes; cbn [map];
  repeat match goal with
    | H : byte_val _ = _ |- _ => rewrite H
    end;
  apply list_elem_of_In; cbn [In];
  repeat (first [left; reflexivity | right]).

(** A length that is not zero cannot be zero. *)
Ltac impossible :=
  let H := fresh in intros H; vm_compute in H; discriminate H.

Lemma space_len_sound (l : list ascii) (n : nat) :
  strings.space_len l = S n ->
  (S n <= length l)%nat /\ space_rune (take (S n) l).
Proof.
  destruct l as [|c r]; [impossible|]. rewrite space_len_cases.
  destruct (between 9 13 c || Ascii.eqb c SP) eqn:H1.
  { intros [= <-]. split; [cbn; lia|]. cbn [take].
    apply orb_true_iff in H1 as [H1|H1].
    - apply between_spec in H1.
      assert (Hv : In (byte_val c) [9; 10; 11; 12; 13]%N) by (cbn; lia).
      cbn in Hv. destruct Hv as [Hv|[Hv|[Hv|[Hv|[Hv|[]]]]]]; symmetry in Hv; in_space_runes.
    - apply Ascii.eqb_eq in H1 as ->. in_space_runes. }
  clear H1.
  destruct (N.eqb_spec (byte_val c) 194) as [E|_].
  { destruct r as [|c1 r]; [impossible|].
    destruct ((byte_val c1 =? 133)%N || (byte_val c1 =? 160)%N) eqn:H2; [|impossible]. intros [= <-]. split; [cbn; lia|]. cbn [take].
    apply orb_true_iff in H2 as [H2|H2]; apply N.eqb_eq in H2; in_space_runes. }
  destruct (N.eqb_spec (byte_val c) 225) as [E|_].
  { destruct r as [|c1 [|c2 r]]; [impossible..|].
    destruct ((byte_val c1 =? 154)%N && (byte_val c2 =? 128)%N) eqn:H2; [|impossible].
    intros [= <-]. split; [cbn; lia|]. cbn [take].
    apply andb_true_iff in H2 as [H2 H3]. apply N.eqb_eq in H2, H3. in_space_runes. }
  destruct (N.eqb_spec (byte_val c) 226) as [E|_].
  { destruct r as [|c1 [|c2 r]]; [impossible..|].
    destruct ((byte_val c1 =? 128)%N
              && (between 128 138 c2 || between 168 169 c2 || (byte_val c2 =? 175)%N))
      eqn:H2.
    - intros [= <-]. split; [cbn; lia|]. cbn [take].
      apply andb_true_iff in H2 as [H2 H3]. apply N.eqb_eq in H2.
      apply orb_true_iff in H3 as [H3|H3]; [apply orb_true_iff in H3 as [H3|H3]|].
      + apply between_spec in H3.
        assert (Hv : In (byte_val c2)
                       [128; 129; 130; 131; 132; 133; 134; 135; 136; 137; 138]%N)
          by (cbn; lia).
        cbn in Hv.
        repeat (destruct Hv as [Hv|Hv]; [symmetry in Hv; in_space_runes|]). done.
      + apply between_spec in H3.
        assert (Hv : In (byte_val c2) [168; 169]%N) by (cbn; lia).
        cbn in Hv.
        repeat (destruct Hv as [Hv|Hv]; [symmetry in Hv; in_space_runes|]). done.
      + apply N.eqb_eq in H3. in_space_runes.
    - clear H2.
      destruct ((byte_val c1 =? 129)%N && (byte_val c2 =? 159)%N) eqn:H3; [|impossible].
      intros [= <-]. split; [cbn; lia|]. cbn [take].
      apply andb_true_iff in H3 as [H3 H4]. apply N.eqb_eq in H3, H4. in_space_runes. }
  destruct (N.eqb_spec (byte_val c) 227) as [E|_]; [|impossible].
  destruct r as [|c1 [|c2 r]]; [impossible..|].
  destruct ((byte_val c1 =? 128)%N && (byte_val c2 =? 128)%N) eqn:H2; [|impossible].
  intros [= <-]. split; [cbn; lia|]. cbn [take].
  apply andb_true_iff in H2 as [H2 H3]. apply N.eqb_eq in H2, H3. in_space_runes.
Qed.

(** The bytes of a white space rune, from their values. *)
Ltac rune_cases H :=
  unfold space_rune, space_runes in H; apply list_elem_of_In in H; cbn [In] in H;
  repeat (destruct H as [H|H];
          [ symmetry in H;
            repeat match type of H with
              | map byte_val ?m = _ :: _ =>
                  let c := fresh "c" in
                  destruct m as [|c m]; [discriminate H|];
                  cbn [map] in H;
                  let E := fresh "E" in
                  injection H as E H; apply byte_of_val in E; subst c
              | map byte_val ?m = [] => destruct m; [clear H | discriminate H]
              end
          | ]);
  try contradiction.

Lemma space_len_complete (m rest : list ascii) :
  space_rune m -> strings.space_len (m ++ rest) = length m.
Proof. intros H. rune_cases H; reflexivity. Qed.

Lemma space_len_rev_complete (m rest : list ascii) :
  space_rune m -> strings.space_len_rev (rev m ++ rest) = length m.
Proof. intros H. rune_cases H; reflexivity. Qed.

Lemma no_empty_rune : ~ space_rune [].
Proof.
  intros H. unfold space_rune, space_runes in H. apply list_elem_of_In in H.
  cbn [In map] in H. repeat (destruct H as [H|H]; [discriminate H|]). exact H.
Qed.

Lemma space_len_rev_sound (l : list ascii) (n : nat) :
  strings.space_len_rev l = S n ->
  (S n <= length l)%nat /\ space_rune (rev (take (S n) l)).
Proof.
  destruct l as [|c r]; [impossible|]. unfold strings.space_len_rev.
  destruct (between 9 13 c || Ascii.eqb c SP) eqn:H1.
  { intros [= <-]. split; [cbn; lia|].
    change (rev (take 1 (c :: r))) with (take 1 (c :: r)).
    apply (space_len_sound (c :: r) 0). rewrite space_len_cases. by rewrite H1. }
  destruct r as [|c1 r1]; [impossible|].
  destruct (strings.space_len [c1; c] =? 2)%nat eqn:H2.
  { intros [= <-]. split; [cbn; lia|]. apply Nat.eqb_eq in H2.
    change (rev (take 2 (c :: c1 :: r1))) with (take 2 [c1; c]).
    by apply space_len_sound. }
  destruct r1 as [|c2 r2]; [impossible|].
  destruct (strings.space_len [c2; c1; c] =? 3)%nat eqn:H3; [|impossible].
  intros [= <-]. split; [cbn; lia|]. apply Nat.eqb_eq in H3.
  change (rev (take 3 (c :: c1 :: c2 :: r2))) with (take 3 [c2; c1; c]).
  by apply space_len_sound.
Qed.

(** What [trim_front] cuts is a sequence of runes, and with enough fuel
    nothing that it would cut is left. *)
Lemma trim_front_spec (space : list ascii -> nat) (R : list ascii -> Prop) :
  (forall l n, space l = S n -> (S n <= length l)%nat /\ R (take (S n) l)) ->
  forall fuel l,
    exists runes,
      l = concat runes ++ strings.trim_front space fuel l
      /\ Forall R runes
      /\ ((length l <= fuel)%nat -> space (strings.trim_front space fuel l) = 0%nat).
Proof.
  intros Hspace. induction fuel as [|fuel IH]; intros l; cbn [strings.trim_front].
  - exists []. split; [done|]. split; [constructor|].
    intros Hl. destruct l; [|cbn in Hl; lia].
    destruct (space []) as [|n] eqn:E; [done|].
    destruct (Hspace _ _ E) as [Hn _]. cbn in Hn. lia.
  - destruct (space l) as [|n] eqn:E.
    + exists []. split; [done|]. split; [constructor|done].
    + destruct (Hspace _ _ E) as [Hn HR].
      destruct (IH (drop (S n) l)) as (runes & El & Hrunes & Hfuel).
      exists (take (S n) l :: runes). split.
      * cbn [concat]. rewrite <- app_assoc, <- El. by rewrite take_drop.
      * split; [by constructor|].
        intros Hl. apply Hfuel. rewrite length_drop. lia.
Qed.

Lemma rev_concat {A} (ls : list (list A)) :
  rev (concat ls) = concat (rev (map (@rev A) ls)).
Proof.
  induction ls as [|l ls IH]; [done|].
  cbn [concat map rev]. rewrite rev_app_distr, IH, concat_app. cbn [concat].
  by rewrite app_nil_r.
Qed.

Lemma TrimSpace_trimmed (s : string) :
  trimmed (list_ascii_of_string s) (list_ascii_of_string (strings.TrimSpace s)).
Proof.
  unfold strings.TrimSpace. rewrite list_ascii_of_string_of_list_ascii.
  set (l := list_ascii_of_string s).
  destruct (trim_front_spec strings.space_len space_rune space_len_sound (length l) l)
    as (front & El & Hfront & Hl1).
  specialize (Hl1 (le_n _)).
  set (l1 := strings.trim_front strings.space_len (length l) l) in *.
  destruct (trim_front_spec strings.space_len_rev (fun m => space_rune (rev m))
              space_len_rev_sound (length l1) (rev l1))
    as (back & El1 & Hback & Hl2).
  rewrite length_rev in Hl2. specialize (Hl2 (le_n _)).
  set (t2 := strings.trim_front strings.space_len_rev (length l1) (rev l1)) in *.
  assert (E1 : l1 = rev t2 ++ concat (rev (map (@rev ascii) back))).
  { rewrite <- (rev_involutive l1), El1, rev_app_distr, rev_concat. done. }
  exists front, (rev (map (@rev ascii) back)).
  split; [by rewrite <- E1|]. split; [done|]. split.
  { apply Forall_forall. intros m Hm. apply list_elem_of_In, in_rev in Hm.
    apply in_map_iff in Hm as (m0 & <- & Hm0).
    rewrite Forall_forall in Hback. apply Hback. by apply list_elem_of_In. }
  split.
  - intros m rest E Hm.
    rewrite E, <- app_assoc in E1. rewrite E1 in Hl1.
    rewrite (space_len_complete _ _ Hm) in Hl1.
    destruct m; [by apply no_empty_rune|done].
  - intros rest m E Hm.
    assert (E2 : t2 = rev m ++ rev rest)
      by (by rewrite <- (rev_involutive t2), E, rev_app_distr).
    rewrite E2 in Hl2. rewrite (space_len_rev_complete _ _ Hm) in Hl2.
    destruct m; [by apply no_empty_rune|done].
Qed.

(** C5, as the code has it.  The sanitized text of a value is the
    composition, in this order, of five steps.  The rendering of the value
    is its indented JSON text, for a string the JSON string literal between
    its quotes, in which no angle bracket and no control byte of the class
    is left unescaped, [null], [true] and [false] for the values without
    structure, and the [%v] text when the value has no JSON text, as [NaN]
    has none.  The matches of the tag pattern are deleted, then the matches of the URL
    pattern, each as [ReplaceAllString] finds them, from left to right and
    the longest at its place; then every control byte of the class is
    replaced by a space; then the white space is cut at both ends.  The
    string of the example gives [visit  now] between the quotes of its
    literal. *)
Theorem sanitize_composition :
  (forall v,
     mail.sanitize v
     = strings.TrimSpace
         (regexp.reCtrl_ReplaceAllString
            (regexp.reURL_ReplaceAllString
               (regexp.reHTML_ReplaceAllString (mail.render v)))))
  /\ (forall v, mail.render v
               = match json.MarshalIndent v with
                 | Some j => j
                 | None => fmt.Sprintf_v v
                 end)
  /\ (forall s, exists body,
        mail.render (VString s) = String dquote (String.append body (str1 dquote))
        /\ Forall (fun c => inert c = true)
             (list_ascii_of_string (mail.render (VString s))))
  /\ (mail.render VNil = "null"
      /\ (forall b, mail.render (VBool b) = if b then "true" else "false")
      /\ mail.render (VFloat NaN) = "NaN")
  /\ (forall s,
        replaced tag_match [] (list_ascii_of_string s)
          (list_ascii_of_string (regexp.reHTML_ReplaceAllString s)))
  /\ (forall s,
        replaced url_match [] (list_ascii_of_string s)
          (list_ascii_of_string (regexp.reURL_ReplaceAllString s)))
  /\ (forall s,
        replaced ctrl_match [SP] (list_ascii_of_string s)
          (list_ascii_of_string (regexp.reCtrl_ReplaceAllString s)))
  /\ (forall s,
        trimmed (list_ascii_of_string s) (list_ascii_of_string (strings.TrimSpace s)))
  /\ mail.sanitize (VString example_text) = cat [dq; "visit  now"; dq].
Proof.
  split; [reflexivity|]. split; [by intros v; unfold mail.render; case_match|].
  split.
  { intros s. rewrite render_string. unfold json.quote. eexists. split; [reflexivity|].
    apply (quote_inert s). }
  split; [split; [reflexivity|]; split; [by intros []|reflexivity]|].
  split; [apply reHTML_replaced|]. split; [apply reURL_replaced|].
  split; [apply reCtrl_replaced|]. split; [apply TrimSpace_trimmed|].
  reflexivity.
Qed.
